(** * VersatileESPCampLog: the datalogger sketch, embedded and verified

    A shallow embedding of [datalogger.ino] (Wemos D1 mini, SHT3x, DS18B20,
    DS3231, SD card): the log store ([reinitSD], [countLogEntries],
    [verifyLastWrite], [logData], [rotateLogFile]), the acquisition cycle
    ([measureAndLog], [measureDisplay], the conversion poll of
    [updateDisplay]), the display and its history ([displayOnFunc],
    [readLastMeasurements]), and the scheduler: [enterLightSleep]
    (resolution of a pending DS18B20 conversion, sleep duration, the
    sleep in slices, the wake-up on the button or on the timer) and
    [loop()].

    The sketch is a single thread mutating global variables and calling
    into driver libraries.  Globals become a record, driver and libc calls
    become primitives of a state monad; what a driver answers is read from
    a [Platform] record indexed by the number of the call, so every run of
    the sketch is a run of the model for some platform. *)

From Stdlib Require Import ZArith String Ascii List Lia Bool DecimalString.
From Stdlib Require DecimalFacts DecimalPos.
From Stdlib Require Import Floats.PrimFloat Floats.FloatOps Floats.SpecFloat.
From stdpp Require Import gmap strings.

Open Scope string_scope.
Open Scope list_scope.
Open Scope Z_scope.

(** ** Machine integers *)

(** [uint32_t], [uint8_t] and the cast [(int32_t)] of an unsigned value. *)
Definition u32 (z : Z) : Z := z mod 2 ^ 32.
Definition u8 (z : Z) : Z := z mod 2 ^ 8.
Definition i32 (z : Z) : Z :=
  let r := u32 z in if r <? 2 ^ 31 then r else r - 2 ^ 32.

(** ** Constants of the sketch *)

Definition SHT_RETRY_INTERVAL : Z := 10.
Definition LOG_COUNT_UPDATE_INTERVAL : Z := 30000.
Definition INTERVAL_NO_SD : Z := 60.
Definition INTERVAL_SD : Z := 240.
Definition SD_MAX_RETRIES : Z := 5.
Definition SD_RETRY_INTERVAL : Z := 60000.
Definition MAX_LOG_RETRIES : nat := 2.
Definition MAX_SLEEP_SEC : Z := 268.

Definition CSV_HEADER : string :=
  "ts_utc,epoch_ms,timestamp_local,temperature_C,"
  +:+ "humidity_pct,dewpoint_C,water_temp_C,sht_ok,water_ok".

Definition DS18B20_ERROR_DISCONNECTED : float := (-127)%float.
Definition DS18B20_ERROR_POWER_ON_RESET : float := 85%float.

Definition data_csv : string := "/data.csv".

(** The line end of [println], and the header as a line of the file. *)
Definition crlf : string := String "013" (String "010" "").
Definition header_line : string := CSV_HEADER +:+ crlf.

(** ** Data *)

(** RTClib's [DateTime], as far as the sketch reads it.  (The library
    keeps the year as an offset from 2000; the record keeps the year.) *)
Record DateTime := mkDateTime {
  year : Z; month : Z; day : Z; hour : Z; minute : Z; second : Z
}.

(** libc's [struct tm], the members the sketch reads. *)
Record tm := mkTm {
  tm_year : Z; tm_mon : Z; tm_mday : Z; tm_hour : Z; tm_min : Z; tm_sec : Z
}.

(** [struct MeasurementData]. *)
Record MeasurementData := mkData {
  ts : DateTime;
  t : float; h : float; td : float;
  tWater : float;
  shtValid : bool;
  waterTempValid : bool
}.

(** [struct HistoricalData]. *)
Record HistoricalData := mkHist {
  hist_t : list float; hist_h : list float; hist_tWater : list float;
  valid : bool
}.

(** The global variables the embedded functions read or write. *)
Record Globals := mkGlobals {
  sdAvailable : bool;
  shtOK : bool;
  rtcOK : bool;
  ds18b20OK : bool;
  displayOn : bool;
  isMeasuring : bool;
  displayUpdateCount : Z;
  lastDisplayUpdate : Z;
  sht_retry_counter : Z;
  logCount : Z;
  lastLogCountUpdate : Z;
  lastMeasureUnix : Z;
  interval : Z;
  historicalData : HistoricalData;
  data : MeasurementData;
  dsConvPending : bool;
  dsConvReadyAt : Z;
  sdFailCount : Z;
  lastSDRetry : Z;
  isBootPhase : bool
}.

(** Assignments to one member or one global. *)
Definition set_ts (v : DateTime) (s : MeasurementData) : MeasurementData :=
  mkData v (t s) (h s) (td s) (tWater s) (shtValid s) (waterTempValid s).
Definition set_t (v : float) (s : MeasurementData) : MeasurementData :=
  mkData (ts s) v (h s) (td s) (tWater s) (shtValid s) (waterTempValid s).
Definition set_h (v : float) (s : MeasurementData) : MeasurementData :=
  mkData (ts s) (t s) v (td s) (tWater s) (shtValid s) (waterTempValid s).
Definition set_td (v : float) (s : MeasurementData) : MeasurementData :=
  mkData (ts s) (t s) (h s) v (tWater s) (shtValid s) (waterTempValid s).
Definition set_tWater (v : float) (s : MeasurementData) : MeasurementData :=
  mkData (ts s) (t s) (h s) (td s) v (shtValid s) (waterTempValid s).
Definition set_shtValid (v : bool) (s : MeasurementData) : MeasurementData :=
  mkData (ts s) (t s) (h s) (td s) (tWater s) v (waterTempValid s).
Definition set_waterTempValid (v : bool) (s : MeasurementData) : MeasurementData :=
  mkData (ts s) (t s) (h s) (td s) (tWater s) (shtValid s) v.
Definition set_valid (v : bool) (s : HistoricalData) : HistoricalData :=
  mkHist (hist_t s) (hist_h s) (hist_tWater s) v.
Definition set_sdAvailable (v : bool) (s : Globals) : Globals :=
  mkGlobals v (shtOK s) (rtcOK s) (ds18b20OK s) (displayOn s) (isMeasuring
    s) (displayUpdateCount s) (lastDisplayUpdate s) (sht_retry_counter s)
    (logCount s) (lastLogCountUpdate s) (lastMeasureUnix s) (interval s)
    (historicalData s) (data s) (dsConvPending s) (dsConvReadyAt s)
    (sdFailCount s) (lastSDRetry s) (isBootPhase s).
Definition set_shtOK (v : bool) (s : Globals) : Globals :=
  mkGlobals (sdAvailable s) v (rtcOK s) (ds18b20OK s) (displayOn s)
    (isMeasuring s) (displayUpdateCount s) (lastDisplayUpdate s)
    (sht_retry_counter s) (logCount s) (lastLogCountUpdate s)
    (lastMeasureUnix s) (interval s) (historicalData s) (data s)
    (dsConvPending s) (dsConvReadyAt s) (sdFailCount s) (lastSDRetry s)
    (isBootPhase s).
Definition set_rtcOK (v : bool) (s : Globals) : Globals :=
  mkGlobals (sdAvailable s) (shtOK s) v (ds18b20OK s) (displayOn s)
    (isMeasuring s) (displayUpdateCount s) (lastDisplayUpdate s)
    (sht_retry_counter s) (logCount s) (lastLogCountUpdate s)
    (lastMeasureUnix s) (interval s) (historicalData s) (data s)
    (dsConvPending s) (dsConvReadyAt s) (sdFailCount s) (lastSDRetry s)
    (isBootPhase s).
Definition set_ds18b20OK (v : bool) (s : Globals) : Globals :=
  mkGlobals (sdAvailable s) (shtOK s) (rtcOK s) v (displayOn s) (isMeasuring
    s) (displayUpdateCount s) (lastDisplayUpdate s) (sht_retry_counter s)
    (logCount s) (lastLogCountUpdate s) (lastMeasureUnix s) (interval s)
    (historicalData s) (data s) (dsConvPending s) (dsConvReadyAt s)
    (sdFailCount s) (lastSDRetry s) (isBootPhase s).
Definition set_displayOn (v : bool) (s : Globals) : Globals :=
  mkGlobals (sdAvailable s) (shtOK s) (rtcOK s) (ds18b20OK s) v (isMeasuring
    s) (displayUpdateCount s) (lastDisplayUpdate s) (sht_retry_counter s)
    (logCount s) (lastLogCountUpdate s) (lastMeasureUnix s) (interval s)
    (historicalData s) (data s) (dsConvPending s) (dsConvReadyAt s)
    (sdFailCount s) (lastSDRetry s) (isBootPhase s).
Definition set_isMeasuring (v : bool) (s : Globals) : Globals :=
  mkGlobals (sdAvailable s) (shtOK s) (rtcOK s) (ds18b20OK s) (displayOn s)
    v (displayUpdateCount s) (lastDisplayUpdate s) (sht_retry_counter s)
    (logCount s) (lastLogCountUpdate s) (lastMeasureUnix s) (interval s)
    (historicalData s) (data s) (dsConvPending s) (dsConvReadyAt s)
    (sdFailCount s) (lastSDRetry s) (isBootPhase s).
Definition set_displayUpdateCount (v : Z) (s : Globals) : Globals :=
  mkGlobals (sdAvailable s) (shtOK s) (rtcOK s) (ds18b20OK s) (displayOn s)
    (isMeasuring s) v (lastDisplayUpdate s) (sht_retry_counter s) (logCount
    s) (lastLogCountUpdate s) (lastMeasureUnix s) (interval s)
    (historicalData s) (data s) (dsConvPending s) (dsConvReadyAt s)
    (sdFailCount s) (lastSDRetry s) (isBootPhase s).
Definition set_lastDisplayUpdate (v : Z) (s : Globals) : Globals :=
  mkGlobals (sdAvailable s) (shtOK s) (rtcOK s) (ds18b20OK s) (displayOn s)
    (isMeasuring s) (displayUpdateCount s) v (sht_retry_counter s) (logCount
    s) (lastLogCountUpdate s) (lastMeasureUnix s) (interval s)
    (historicalData s) (data s) (dsConvPending s) (dsConvReadyAt s)
    (sdFailCount s) (lastSDRetry s) (isBootPhase s).
Definition set_sht_retry_counter (v : Z) (s : Globals) : Globals :=
  mkGlobals (sdAvailable s) (shtOK s) (rtcOK s) (ds18b20OK s) (displayOn s)
    (isMeasuring s) (displayUpdateCount s) (lastDisplayUpdate s) v (logCount
    s) (lastLogCountUpdate s) (lastMeasureUnix s) (interval s)
    (historicalData s) (data s) (dsConvPending s) (dsConvReadyAt s)
    (sdFailCount s) (lastSDRetry s) (isBootPhase s).
Definition set_logCount (v : Z) (s : Globals) : Globals :=
  mkGlobals (sdAvailable s) (shtOK s) (rtcOK s) (ds18b20OK s) (displayOn s)
    (isMeasuring s) (displayUpdateCount s) (lastDisplayUpdate s)
    (sht_retry_counter s) v (lastLogCountUpdate s) (lastMeasureUnix s)
    (interval s) (historicalData s) (data s) (dsConvPending s)
    (dsConvReadyAt s) (sdFailCount s) (lastSDRetry s) (isBootPhase s).
Definition set_lastLogCountUpdate (v : Z) (s : Globals) : Globals :=
  mkGlobals (sdAvailable s) (shtOK s) (rtcOK s) (ds18b20OK s) (displayOn s)
    (isMeasuring s) (displayUpdateCount s) (lastDisplayUpdate s)
    (sht_retry_counter s) (logCount s) v (lastMeasureUnix s) (interval s)
    (historicalData s) (data s) (dsConvPending s) (dsConvReadyAt s)
    (sdFailCount s) (lastSDRetry s) (isBootPhase s).
Definition set_lastMeasureUnix (v : Z) (s : Globals) : Globals :=
  mkGlobals (sdAvailable s) (shtOK s) (rtcOK s) (ds18b20OK s) (displayOn s)
    (isMeasuring s) (displayUpdateCount s) (lastDisplayUpdate s)
    (sht_retry_counter s) (logCount s) (lastLogCountUpdate s) v (interval s)
    (historicalData s) (data s) (dsConvPending s) (dsConvReadyAt s)
    (sdFailCount s) (lastSDRetry s) (isBootPhase s).
Definition set_interval (v : Z) (s : Globals) : Globals :=
  mkGlobals (sdAvailable s) (shtOK s) (rtcOK s) (ds18b20OK s) (displayOn s)
    (isMeasuring s) (displayUpdateCount s) (lastDisplayUpdate s)
    (sht_retry_counter s) (logCount s) (lastLogCountUpdate s)
    (lastMeasureUnix s) v (historicalData s) (data s) (dsConvPending s)
    (dsConvReadyAt s) (sdFailCount s) (lastSDRetry s) (isBootPhase s).
Definition set_historicalData (v : HistoricalData) (s : Globals) : Globals :=
  mkGlobals (sdAvailable s) (shtOK s) (rtcOK s) (ds18b20OK s) (displayOn s)
    (isMeasuring s) (displayUpdateCount s) (lastDisplayUpdate s)
    (sht_retry_counter s) (logCount s) (lastLogCountUpdate s)
    (lastMeasureUnix s) (interval s) v (data s) (dsConvPending s)
    (dsConvReadyAt s) (sdFailCount s) (lastSDRetry s) (isBootPhase s).
Definition set_data (v : MeasurementData) (s : Globals) : Globals :=
  mkGlobals (sdAvailable s) (shtOK s) (rtcOK s) (ds18b20OK s) (displayOn s)
    (isMeasuring s) (displayUpdateCount s) (lastDisplayUpdate s)
    (sht_retry_counter s) (logCount s) (lastLogCountUpdate s)
    (lastMeasureUnix s) (interval s) (historicalData s) v (dsConvPending s)
    (dsConvReadyAt s) (sdFailCount s) (lastSDRetry s) (isBootPhase s).
Definition set_dsConvPending (v : bool) (s : Globals) : Globals :=
  mkGlobals (sdAvailable s) (shtOK s) (rtcOK s) (ds18b20OK s) (displayOn s)
    (isMeasuring s) (displayUpdateCount s) (lastDisplayUpdate s)
    (sht_retry_counter s) (logCount s) (lastLogCountUpdate s)
    (lastMeasureUnix s) (interval s) (historicalData s) (data s) v
    (dsConvReadyAt s) (sdFailCount s) (lastSDRetry s) (isBootPhase s).
Definition set_dsConvReadyAt (v : Z) (s : Globals) : Globals :=
  mkGlobals (sdAvailable s) (shtOK s) (rtcOK s) (ds18b20OK s) (displayOn s)
    (isMeasuring s) (displayUpdateCount s) (lastDisplayUpdate s)
    (sht_retry_counter s) (logCount s) (lastLogCountUpdate s)
    (lastMeasureUnix s) (interval s) (historicalData s) (data s)
    (dsConvPending s) v (sdFailCount s) (lastSDRetry s) (isBootPhase s).
Definition set_sdFailCount (v : Z) (s : Globals) : Globals :=
  mkGlobals (sdAvailable s) (shtOK s) (rtcOK s) (ds18b20OK s) (displayOn s)
    (isMeasuring s) (displayUpdateCount s) (lastDisplayUpdate s)
    (sht_retry_counter s) (logCount s) (lastLogCountUpdate s)
    (lastMeasureUnix s) (interval s) (historicalData s) (data s)
    (dsConvPending s) (dsConvReadyAt s) v (lastSDRetry s) (isBootPhase s).
Definition set_lastSDRetry (v : Z) (s : Globals) : Globals :=
  mkGlobals (sdAvailable s) (shtOK s) (rtcOK s) (ds18b20OK s) (displayOn s)
    (isMeasuring s) (displayUpdateCount s) (lastDisplayUpdate s)
    (sht_retry_counter s) (logCount s) (lastLogCountUpdate s)
    (lastMeasureUnix s) (interval s) (historicalData s) (data s)
    (dsConvPending s) (dsConvReadyAt s) (sdFailCount s) v (isBootPhase s).
Definition set_isBootPhase (v : bool) (s : Globals) : Globals :=
  mkGlobals (sdAvailable s) (shtOK s) (rtcOK s) (ds18b20OK s) (displayOn s)
    (isMeasuring s) (displayUpdateCount s) (lastDisplayUpdate s)
    (sht_retry_counter s) (logCount s) (lastLogCountUpdate s)
    (lastMeasureUnix s) (interval s) (historicalData s) (data s)
    (dsConvPending s) (dsConvReadyAt s) (sdFailCount s) (lastSDRetry s) v.

(** ** The platform: drivers, sensors, clock and libc

    What the hardware answers is not decided by the sketch.  Each driver
    call takes its answer from the platform at the current call number, so
    a platform is one complete history of the card, the sensors and the
    clock.  A card fault is a [false] (or a short length) at that call. *)
Record Platform := mkPlatform {
  sd_begin_ok : nat -> bool;        (* SD.begin(cs) *)
  sd_card_type : nat -> Z;          (* SD.type(), 0 = no card *)
  sd_lookup_ok : nat -> bool;       (* the directory can be read *)
  sd_open_ok : nat -> bool;         (* SD.open gives a valid handle *)
  sd_write_len : nat -> nat;        (* bytes the card accepts from a write *)
  sd_remove_ok : nat -> bool;
  sd_rename_ok : nat -> bool;
  sht_begin_ok : nat -> Z -> bool;  (* sht31.begin(addr) *)
  sht_temperature : nat -> float;
  sht_humidity : nat -> float;
  ds_resolution : nat -> Z;
  ds_temp : nat -> float;           (* ds18b20.getTempCByIndex(0) *)
  rtc_unixtime : nat -> Z;          (* rtc.now().unixtime() *)
  pin_low : nat -> Z -> bool;       (* digitalRead(pin) == LOW *)
  libc_localtime : Z -> tm;         (* localtime under the TZ of setup() *)
  libc_gmtime : Z -> tm;
  libc_logf : float -> float;
  libc_fixed : nat -> float -> string  (* printf's "%.<n>f" *)
}.

Inductive Mode := FILE_READ | FILE_WRITE.

(** What a run does, in program order: the driver calls with their
    outcome, and the updates of [logCount]. *)
Inductive Event :=
| SdBegin (ok : bool)
| SdEnd
| SdType (ty : Z)
| SpiBegin
| SpiEnd
| CsHigh
| SdExists (p : string) (found : bool)
| SdOpen (p : string) (m : Mode) (ok : bool)
| FilePrintln (p : string) (line : string) (written : Z)
| FileFlush (p : string)
| FileClose (p : string)
| SdRemove (p : string) (ok : bool)
| SdRename (src dst : string) (ok : bool)
| ShtBegin (addr : Z) (ok : bool)
| ShtTemperature (v : float)
| ShtHumidity (v : float)
| DsResolution (bits : Z)
| DsSetWait (wait : bool)
| DsRequest
| DsRead (v : float)
| RtcNow (unix : Z)
| DisplayFrame
| CountIncr
| CountSet (v : Z).

(** The whole machine: globals, files on the card, [millis()], the number
    of driver calls made so far, and the trace. *)
Record State := mkState {
  vars : Globals;
  card : gmap string string;
  now_ms : Z;
  calls : nat;
  trace : list Event
}.

Definition with_vars (v : Globals) (s : State) : State :=
  mkState v (card s) (now_ms s) (calls s) (trace s).
Definition with_card (c : gmap string string) (s : State) : State :=
  mkState (vars s) c (now_ms s) (calls s) (trace s).
Definition with_ms (n : Z) (s : State) : State :=
  mkState (vars s) (card s) n (calls s) (trace s).
Definition with_calls (n : nat) (s : State) : State :=
  mkState (vars s) (card s) (now_ms s) n (trace s).
Definition with_trace (tr : list Event) (s : State) : State :=
  mkState (vars s) (card s) (now_ms s) (calls s) tr.

(** ** The state monad *)

Definition M (A : Type) : Type := State -> A * State.

Definition ret {A} (a : A) : M A := fun s => (a, s).
Definition bind {A B} (m : M A) (f : A -> M B) : M B :=
  fun s => let (a, s') := m s in f a s'.

Declare Scope prog_scope.
Delimit Scope prog_scope with prog.
Bind Scope prog_scope with M.
Notation "x <- m ;; k" := (bind m (fun x => k))
  (at level 100, m at next level, right associativity) : prog_scope.
Notation "m ;; k" := (bind m (fun _ => k))
  (at level 100, right associativity) : prog_scope.
Open Scope prog_scope.

Definition get {A} (f : Globals -> A) : M A := fun s => (f (vars s), s).
Definition assign (upd : Globals -> Globals) : M unit :=
  fun s => (tt, with_vars (upd (vars s)) s).
Definition emit (e : Event) : M unit :=
  fun s => (tt, with_trace (trace s ++ [e]) s).
Definition millis : M Z := fun s => (now_ms s, s).
Definition delay (n : Z) : M unit :=
  fun s => (tt, with_ms (u32 (now_ms s + n)) s).
Definition files : M (gmap string string) := fun s => (card s, s).
Definition store (f : gmap string string -> gmap string string) : M unit :=
  fun s => (tt, with_card (f (card s)) s).
Definition when (b : bool) (m : M unit) : M unit := if b then m else ret tt.

(** The events a computation adds to the trace of [s]. *)
Definition run {A} (m : M A) (s : State) : State := snd (m s).
Definition result {A} (m : M A) (s : State) : A := fst (m s).
Definition events {A} (m : M A) (s : State) : list Event :=
  drop (length (trace s)) (trace (run m s)).

Section Sketch.

Variable hw : Platform.

(** A driver call: read the platform's answer, count the call. *)
Definition ask {A} (f : Platform -> nat -> A) : M A :=
  fun s => (f hw (calls s), with_calls (S (calls s)) s).

(** *** Driver primitives *)

Definition SD_begin : M bool :=
  ok <- ask sd_begin_ok;; emit (SdBegin ok);; ret ok.
Definition SD_end : M unit := emit SdEnd.
Definition SD_type : M Z :=
  ty <- ask sd_card_type;; emit (SdType ty);; ret ty.
Definition SPI_begin : M unit := emit SpiBegin.
Definition SPI_end : M unit := emit SpiEnd.
Definition cs_high : M unit := emit CsHigh.

Definition opened (f : option string) : bool :=
  match f with Some _ => true | None => false end.

Definition present (fs : gmap string string) (p : string) : bool :=
  opened (fs !! p).

(** [SD.exists(p)]. *)
Definition SD_exists (p : string) : M bool :=
  ok <- ask sd_lookup_ok;;
  fs <- files;;
  let found := ok && present fs p in
  emit (SdExists p found);; ret found.

(** [SD.open(p, FILE_READ)]: the handle is the content read through it,
    [None] is the handle that tests false. *)
Definition SD_open_read (p : string) : M (option string) :=
  ok <- ask sd_open_ok;;
  fs <- files;;
  let f := if ok then fs !! p else None in
  emit (SdOpen p FILE_READ (opened f));; ret f.

(** [SD.open("/")], the root directory. *)
Definition SD_open_root : M bool :=
  ok <- ask sd_open_ok;; emit (SdOpen "/" FILE_READ ok);; ret ok.

(** [SD.open(p, FILE_WRITE)]: creates the file when it is missing and
    positions at its end. *)
Definition SD_open_write (p : string) : M bool :=
  ok <- ask sd_open_ok;;
  fs <- files;;
  when (ok && negb (present fs p)) (store (insert p ""));;
  emit (SdOpen p FILE_WRITE ok);; ret ok.

(** [f.println(line)]: the line and CR LF go to the end of the file, as
    far as the card accepts them; the result is the number of bytes
    written. *)
Definition File_println (p : string) (line : string) : M Z :=
  n <- ask sd_write_len;;
  let chunk := substring 0 n (line +:+ crlf) in
  store (alter (fun c => c +:+ chunk) p);;
  let written := Z.of_nat (String.length chunk) in
  emit (FilePrintln p line written);; ret written.

Definition File_flush (p : string) : M unit := emit (FileFlush p).
Definition File_close (p : string) : M unit := emit (FileClose p).

Definition SD_remove (p : string) : M bool :=
  ok <- ask sd_remove_ok;;
  fs <- files;;
  let done := ok && present fs p in
  when done (store (delete p));;
  emit (SdRemove p done);; ret done.

Definition SD_rename (src dst : string) : M bool :=
  ok <- ask sd_rename_ok;;
  fs <- files;;
  let done := ok && present fs src && negb (present fs dst) in
  when done
    (store (fun fs => match fs !! src with
                      | Some c => <[dst := c]> (delete src fs)
                      | None => fs
                      end));;
  emit (SdRename src dst done);; ret done.

Definition sht31_begin (addr : Z) : M bool :=
  ok <- ask (fun p n => sht_begin_ok p n addr);;
  emit (ShtBegin addr ok);; ret ok.
Definition sht31_readTemperature : M float :=
  v <- ask sht_temperature;; emit (ShtTemperature v);; ret v.
Definition sht31_readHumidity : M float :=
  v <- ask sht_humidity;; emit (ShtHumidity v);; ret v.

Definition ds18b20_getResolution : M Z :=
  r <- ask ds_resolution;; emit (DsResolution r);; ret r.
Definition ds18b20_setWaitForConversion (b : bool) : M unit :=
  emit (DsSetWait b).
Definition ds18b20_requestTemperatures : M unit := emit DsRequest.
Definition ds18b20_getTempCByIndex0 : M float :=
  v <- ask ds_temp;; emit (DsRead v);; ret v.

(** [rtc.now().unixtime()], a [uint32_t]. *)
Definition rtc_now_unixtime : M Z :=
  u <- ask rtc_unixtime;; emit (RtcNow (u32 u));; ret (u32 u).

(** *** Text formatting *)

Definition decimal (z : Z) : string :=
  (if z <? 0 then "-" else "") +:+ NilZero.string_of_uint (N.to_uint (Z.abs_N z)).

Fixpoint zeros (n : nat) : string :=
  match n with O => "" | S k => String "0" (zeros k) end.

(** printf's [%0<w>d]. *)
Definition fmt_0d (w : nat) (z : Z) : string :=
  let sign := if z <? 0 then "-" else "" in
  let digits := NilZero.string_of_uint (N.to_uint (Z.abs_N z)) in
  sign +:+ zeros (w - String.length sign - String.length digits) +:+ digits.

(** [snprintf(buf, size, ...)] keeps at most [size - 1] characters. *)
Definition snprintf (size : nat) (s : string) : string :=
  substring 0 (size - 1) s.

(** *** Utility functions *)

(** Magnus formula.  [b] and [c] are the binary32 values of [17.62f] and
    [243.12f]; the operations are those of binary64, so [td] may differ
    from the sketch's binary32 result in its last bits.  Nothing below
    depends on the value of [td]. *)
Definition dewpoint (t h : float) : float :=
  let b := 0x1.19eb86p+4%float in
  let c := 0x1.e63d7p+7%float in
  let g := (libc_logf hw (h / 100) + (b * t) / (c + t))%float in
  ((c * g) / (b - g))%float.

Definition unixToLocal (t : Z) : DateTime :=
  let ti := libc_localtime hw t in
  mkDateTime (1900 + tm_year ti) (1 + tm_mon ti) (tm_mday ti) (tm_hour ti)
    (tm_min ti) (tm_sec ti).

Definition nowLocalFromRTC : M DateTime :=
  u <- rtc_now_unixtime;; ret (unixToLocal u).

(** *** SD card functions *)

Definition forceEndSD : M unit :=
  SD_end;; delay 50;;
  cs_high;; delay 10;;
  SPI_end;; delay 10.

Definition endSD : M unit :=
  sd <- get sdAvailable;;
  if negb sd then cs_high;; SPI_end
  else forceEndSD.

(** [for (attempt = 0; attempt < n; attempt++) { fileExists =
    SD.exists(p); if (fileExists) break; delay(50); }] *)
Fixpoint exists_retry (n : nat) (p : string) : M bool :=
  match n with
  | O => ret false
  | S k =>
      fileExists <- SD_exists p;;
      if fileExists then ret true else delay 50;; exists_retry k p
  end.

(** The loop that checks a freshly written [/data.csv]: it exists, opens
    and is not empty. *)
Fixpoint verify_created (n : nat) : M bool :=
  match n with
  | O => ret false
  | S k =>
      e <- SD_exists data_csv;;
      verified <-
        (if e then
           testFile <- SD_open_read data_csv;;
           match testFile with
           | Some c => File_close data_csv;; ret (0 <? Z.of_nat (String.length c))
           | None => ret false
           end
         else ret false);;
      if verified then ret true else delay 100;; verify_created k
  end.

Definition sdFail : M unit :=
  fc <- get sdFailCount;; assign (set_sdFailCount (u8 (fc + 1))).

(** The header line goes into a file just opened for writing. *)
Definition write_header : M Z :=
  written <- File_println data_csv CSV_HEADER;;
  File_flush data_csv;; delay 50;;
  File_close data_csv;;
  ret written.

(** One iteration of the retry loop of [reinitSD]; [false] is
    [continue]. *)
Definition reinitSD_attempt (retryAttempt : nat) : M bool :=
  when (0 <? Z.of_nat retryAttempt) (delay 500);;
  now <- millis;; assign (set_lastSDRetry now);;
  cs_high;; delay 50;;
  SPI_end;; delay 10;; SPI_begin;; delay 50;; delay 10;;
  began <- SD_begin;;
  if negb began then sdFail;; ret false else
  delay 200;;
  cardType <- SD_type;;
  if cardType =? 0 then sdFail;; SD_end;; ret false else
  fileExists <- exists_retry 3 data_csv;;
  ok <-
    (if negb fileExists then
       root <- SD_open_root;;
       if negb root then ret false else
       File_close "/";; delay 50;;
       f <- SD_open_write data_csv;;
       if negb f then ret false else
       write_header;; delay 200;;
       verify_created 3
     else
       f <- SD_open_read data_csv;;
       match f with
       | None =>
           SD_remove data_csv;; delay 100;;
           newFile <- SD_open_write data_csv;;
           if negb newFile then ret false else
           write_header;; delay 200;; ret true
       | Some _ => File_close data_csv;; ret true
       end);;
  if negb ok then sdFail;; SD_end;; ret false else
  assign (set_sdAvailable true);;
  assign (set_sdFailCount 0);;
  assign (set_interval INTERVAL_SD);;
  ret true.

Fixpoint reinitSD_loop (n : nat) (retryAttempt : nat) : M bool :=
  match n with
  | O => ret false
  | S k =>
      ok <- reinitSD_attempt retryAttempt;;
      if ok then ret true else reinitSD_loop k (S retryAttempt)
  end.

Definition reinitSD : M bool :=
  boot <- get isBootPhase;;
  fc <- get sdFailCount;;
  now <- millis;;
  last <- get lastSDRetry;;
  if negb boot && (0 <? fc) && (u32 (now - last) <? SD_RETRY_INTERVAL)
  then ret false
  else reinitSD_loop (if boot then 3%nat else 1%nat) 0.

(** The scan of [countLogEntries]: one row per line feed after the
    header's. *)
Fixpoint count_rows (isHeader : bool) (count : Z) (content : string) : Z :=
  match content with
  | EmptyString => count
  | String c rest =>
      if Ascii.eqb c "010" then
        if isHeader then count_rows false count rest
        else count_rows false (u32 (count + 1)) rest
      else count_rows isHeader count rest
  end.

Definition countLogEntries : M Z :=
  sd <- get sdAvailable;;
  if negb sd then ret 0 else
  f <- SD_open_read data_csv;;
  match f with
  | None => ret 0
  | Some content => File_close data_csv;; ret (count_rows true 0 content)
  end.

(** Assignments to [logCount] are recorded in the trace. *)
Definition logCount_incr : M unit :=
  lc <- get logCount;; assign (set_logCount (u32 (lc + 1)));; emit CountIncr.
Definition logCount_set (v : Z) : M unit :=
  assign (set_logCount v);; emit (CountSet v).

(** [for (attempt = 0; attempt < n; attempt++) { f = SD.open(...); if (f)
    break; delay(150); }] *)
Fixpoint open_retry (n : nat) : M (option string) :=
  match n with
  | O => ret None
  | S k =>
      f <- SD_open_read data_csv;;
      match f with
      | Some c => ret (Some c)
      | None => delay 150;; open_retry k
      end
  end.

Definition verifyLastWrite : M bool :=
  sd <- get sdAvailable;;
  if negb sd then ret false else
  f <- open_retry 5;;
  match f with
  | None => forceEndSD;; assign (set_sdAvailable false);; ret false
  | Some content =>
      let size := u32 (Z.of_nat (String.length content)) in
      File_close data_csv;; delay 50;;
      if size <? 10 then ret false else
      actualCount <- countLogEntries;;
      lc <- get logCount;;
      if actualCount >=? lc then logCount_set actualCount;; ret true
      else logCount_set actualCount;; ret false
  end.

(** The row of [logData], in the column order of the header. *)
Definition formatRow (utcNow : Z) (d : MeasurementData) : string :=
  let tmg := libc_gmtime hw utcNow in
  let ts_utc := snprintf 25
    (fmt_0d 4 (1900 + tm_year tmg) +:+ "-" +:+ fmt_0d 2 (1 + tm_mon tmg) +:+ "-"
     +:+ fmt_0d 2 (tm_mday tmg) +:+ "T" +:+ fmt_0d 2 (tm_hour tmg) +:+ ":"
     +:+ fmt_0d 2 (tm_min tmg) +:+ ":" +:+ fmt_0d 2 (tm_sec tmg) +:+ "Z") in
  let epoch_sec := u32 utcNow in
  let ts_local := snprintf 20
    (fmt_0d 4 (year (ts d)) +:+ "-" +:+ fmt_0d 2 (month (ts d)) +:+ "-"
     +:+ fmt_0d 2 (day (ts d)) +:+ " " +:+ fmt_0d 2 (hour (ts d)) +:+ ":"
     +:+ fmt_0d 2 (minute (ts d)) +:+ ":" +:+ fmt_0d 2 (second (ts d))) in
  let tempStr := if shtValid d then snprintf 16 (libc_fixed hw 2 (t d)) else "" in
  let humStr := if shtValid d then snprintf 16 (libc_fixed hw 1 (h d)) else "" in
  let dewStr := if shtValid d then snprintf 16 (libc_fixed hw 2 (td d)) else "" in
  let waterStr :=
    if waterTempValid d then snprintf 16 (libc_fixed hw 2 (tWater d)) else "" in
  let sht_ok := if shtValid d then 1 else 0 in
  let water_ok := if waterTempValid d then 1 else 0 in
  snprintf 220
    (ts_utc +:+ "," +:+ decimal epoch_sec +:+ "000," +:+ ts_local +:+ ","
     +:+ tempStr +:+ "," +:+ humStr +:+ "," +:+ dewStr +:+ "," +:+ waterStr
     +:+ "," +:+ decimal sht_ok +:+ "," +:+ decimal water_ok).

(** How an iteration of the retry loop of [logData] ends. *)
Inductive Flow := Return | Continue.

(** [/data.csv] has disappeared: create it again; [false] is
    [continue]. *)
Definition logData_recreate : M bool :=
  f <- SD_open_write data_csv;;
  if negb f then assign (set_sdAvailable false);; ret false else
  write_header;; delay 100;;
  e <- SD_exists data_csv;;
  if e then logCount_set 0;; ret true
  else assign (set_sdAvailable false);; ret false.

(** The row is appended: from [SD.open("/data.csv", FILE_WRITE)] to
    [logCount++]. *)
Definition logData_append : M Flow :=
  f <- SD_open_write data_csv;;
  if negb f then assign (set_sdAvailable false);; ret Continue else
  utcNow <- rtc_now_unixtime;;
  d <- get data;;
  written <- File_println data_csv (formatRow utcNow d);;
  File_flush data_csv;; delay 50;;
  File_close data_csv;; delay 200;;
  if written =? 0 then assign (set_sdAvailable false);; ret Continue else
  logCount_incr;; ret Return.

(** The iteration from the presence check on. *)
Definition logData_write : M Flow :=
  fileExists <- exists_retry 3 data_csv;;
  created <- (if negb fileExists then logData_recreate else ret true);;
  if negb created then ret Continue else logData_append.

Definition logData_iteration : M Flow :=
  sd <- get sdAvailable;;
  if negb sd then
    fc <- get sdFailCount;;
    if fc <? SD_MAX_RETRIES then
      ok <- reinitSD;;
      if negb ok then ret Continue else logData_write
    else assign (set_interval INTERVAL_NO_SD);; ret Return
  else logData_write.

(** [while (retryCount < MAX_LOG_RETRIES)]: every [continue] comes after
    [retryCount++], so [n] counts the iterations that are left. *)
Fixpoint logData_loop (n : nat) : M unit :=
  match n with
  | O => assign (set_interval INTERVAL_NO_SD)
  | S k =>
      flow <- logData_iteration;;
      match flow with
      | Return => ret tt
      | Continue => logData_loop k
      end
  end.

Definition logData : M unit := logData_loop MAX_LOG_RETRIES.

Definition rotatedName (ts : DateTime) : string :=
  snprintf 40
    ("/data_" +:+ fmt_0d 4 (year ts) +:+ fmt_0d 2 (month ts) +:+ fmt_0d 2 (day ts)
     +:+ "_" +:+ fmt_0d 2 (hour ts) +:+ fmt_0d 2 (minute ts)
     +:+ fmt_0d 2 (second ts) +:+ ".csv").

(** The old file is moved out of the way: renamed to [newName], or
    removed when the rename fails. *)
Definition rotate_archive (newName : string) : M unit :=
  e <- SD_exists data_csv;;
  when e
    (taken <- SD_exists newName;;
     when taken (SD_remove newName;; delay 100);;
     renamed <- SD_rename data_csv newName;;
     if negb renamed then SD_remove data_csv;; delay 100
     else delay 100).

Definition rotateLogFile : M bool :=
  sd <- get sdAvailable;;
  ready <- (if sd then ret true else reinitSD);;
  if negb ready then ret false else
  ts <- nowLocalFromRTC;;
  let newName := rotatedName ts in
  rotate_archive newName;;
  f <- SD_open_write data_csv;;
  if negb f then assign (set_sdAvailable false);; ret false else
  write_header;; delay 200;;
  verified <- verify_created 3;;
  if negb verified then assign (set_sdAvailable false);; ret false else
  logCount_set 0;;
  now <- millis;; assign (set_lastLogCountUpdate now);;
  hd <- get historicalData;;
  assign (set_historicalData (set_valid false hd));;
  ret true.

(** *** Sensor functions *)

(** [tWater != DS18B20_ERROR_DISCONNECTED && tWater !=
    DS18B20_ERROR_POWER_ON_RESET] *)
Definition plausible (tWater : float) : bool :=
  negb (tWater =? DS18B20_ERROR_DISCONNECTED)%float
  && negb (tWater =? DS18B20_ERROR_POWER_ON_RESET)%float.

(** [sht31.begin(0x44) || sht31.begin(0x45)] *)
Definition sht31_probe : M bool :=
  found <- sht31_begin 68;;
  if found then ret true else sht31_begin 69.

(** [if (shtOK) { ... }], the same in both measuring functions. *)
Definition read_sht : M unit :=
  ok <- get shtOK;;
  when ok
    (t <- sht31_readTemperature;;
     h <- sht31_readHumidity;;
     if negb (is_nan t) && negb (is_nan h) then
       d <- get data;;
       assign (set_data
                 (set_shtValid true (set_td (dewpoint t h) (set_h h (set_t t d)))))
     else assign (set_shtOK false)).

Definition store_water (tWater : float) : M unit :=
  d <- get data;;
  assign (set_data (set_waterTempValid true (set_tWater tWater d))).

Definition clear_valid : M unit :=
  d <- get data;;
  assign (set_data (set_waterTempValid false (set_shtValid false d))).

Definition measureAndLog : M unit :=
  assign (set_isMeasuring true);;
  clear_valid;;
  c <- get sht_retry_counter;;
  assign (set_sht_retry_counter (u32 (c + 1)));;
  ok <- get shtOK;;
  c <- get sht_retry_counter;;
  when (negb ok && (c mod SHT_RETRY_INTERVAL =? 0))
    (found <- sht31_probe;; assign (set_shtOK found));;
  read_sht;;
  dsOK <- get ds18b20OK;;
  when dsOK
    (ds18b20_requestTemperatures;;
     tWater <- ds18b20_getTempCByIndex0;;
     if plausible tWater then store_water tWater
     else assign (set_ds18b20OK false));;
  rtc <- get rtcOK;;
  nowUnix <- (if rtc then rtc_now_unixtime else ret 0);;
  d <- get data;;
  assign (set_data
            (set_ts (if rtc then unixToLocal nowUnix
                     else mkDateTime 2023 1 1 0 0 0) d));;
  sd <- get sdAvailable;;
  when sd (logData;; verifyLastWrite;; ret tt);;
  assign (set_lastMeasureUnix nowUnix);;
  assign (set_isMeasuring false).

(** [convMs], the conversion time for a resolution in bits. *)
Definition conversion_ms (res : Z) : Z :=
  if res =? 9 then 94
  else if res =? 10 then 188
  else if res =? 11 then 375
  else 750.

Definition measureDisplay : M unit :=
  clear_valid;;
  ok <- get shtOK;;
  when (negb ok) (found <- sht31_probe;; assign (set_shtOK found));;
  read_sht;;
  dsOK <- get ds18b20OK;;
  when dsOK
    (assign (set_dsConvPending true);;
     res <- ds18b20_getResolution;;
     let convMs := conversion_ms res in
     ds18b20_setWaitForConversion false;;
     ds18b20_requestTemperatures;;
     now <- millis;;
     assign (set_dsConvReadyAt (u32 (now + convMs))));;
  nowUnix <- rtc_now_unixtime;;
  d <- get data;;
  assign (set_data (set_ts (unixToLocal nowUnix) d)).

(** *** Display *)

(** [updateDisplay]; what is drawn is left out, a frame is one event. *)
Definition updateDisplay : M unit :=
  on <- get displayOn;;
  if negb on then ret tt else
  pending <- get dsConvPending;;
  now <- millis;;
  readyAt <- get dsConvReadyAt;;
  when (pending && (now >=? readyAt))
    (tWater <- ds18b20_getTempCByIndex0;;
     (if plausible tWater then store_water tWater
      else assign (set_ds18b20OK false));;
     assign (set_dsConvPending false));;
  nowLocalFromRTC;;
  emit DisplayFrame;;
  c <- get displayUpdateCount;;
  assign (set_displayUpdateCount (u32 (c + 1))).

(** *** Going to sleep: the first part of [enterLightSleep] *)

(** [while (dsConvPending && (millis() - waitStart < 2000UL))].  The loop
    is bounded by the clock; [fuel] bounds the recursion, and the result
    is [false] when the fuel ran out before the loop was left. *)
Fixpoint resolve_loop (fuel : nat) (waitStart : Z) : M bool :=
  pending <- get dsConvPending;;
  now <- millis;;
  if pending && (u32 (now - waitStart) <? 2000) then
    match fuel with
    | O => ret false
    | S k =>
        readyAt <- get dsConvReadyAt;;
        when (i32 (now - readyAt) >=? 0)
          (tWater <- ds18b20_getTempCByIndex0;;
           when (plausible tWater) (store_water tWater);;
           assign (set_dsConvPending false));;
        delay 10;;
        resolve_loop k waitStart
    end
  else ret true.

(** [if (dsConvPending) { ... }] at the head of [enterLightSleep]. *)
Definition enterLightSleep_resolve : M bool :=
  pending <- get dsConvPending;;
  if pending then
    waitStart <- millis;;
    left <- resolve_loop 200 waitStart;;
    assign (set_dsConvPending false);;
    ret left
  else ret true.

(** The sleep duration, from [uint32_t remaining = interval] to the two
    clamps. *)
Definition sleepRemaining (interval lastMeasureUnix nowUnix : Z) (rtcOK : bool)
  : Z :=
  let remaining := interval in
  let remaining :=
    if rtcOK then
      let elapsed :=
        if nowUnix >=? lastMeasureUnix then u32 (nowUnix - lastMeasureUnix)
        else 0 in
      if elapsed <? interval then u32 (interval - elapsed) else 1
    else remaining in
  let remaining :=
    if remaining >? MAX_SLEEP_SEC then MAX_SLEEP_SEC else remaining in
  if remaining =? 0 then 1 else remaining.

Definition enterLightSleep_remaining : M Z :=
  iv <- get interval;;
  rtc <- get rtcOK;;
  last <- get lastMeasureUnix;;
  nowUnix <- (if rtc then rtc_now_unixtime else ret 0);;
  ret (sleepRemaining iv last nowUnix rtc).

End Sketch.

(** ** A bench platform

    A concrete platform to run the model on: libc's calendar for the
    time zone of [setup()] (CET-1CEST,M3.5.0/2,M10.5.0/3), its fixed-point
    formatting, a logarithm, and drivers whose outcomes are given. *)
Module Bench.

(** Days since 1970-01-01 to year, month, day and back. *)
Definition civil_from_days (z : Z) : Z * Z * Z :=
  let z := z + 719468 in
  let era := z / 146097 in
  let doe := z - era * 146097 in
  let yoe := (doe - doe / 1460 + doe / 36524 - doe / 146096) / 365 in
  let doy := doe - (365 * yoe + yoe / 4 - yoe / 100) in
  let mp := (5 * doy + 2) / 153 in
  let d := doy - (153 * mp + 2) / 5 + 1 in
  let m := if mp <? 10 then mp + 3 else mp - 9 in
  let y := yoe + era * 400 in
  (if m <=? 2 then y + 1 else y, m, d).

Definition days_from_civil (y m d : Z) : Z :=
  let y := if m <=? 2 then y - 1 else y in
  let era := y / 400 in
  let yoe := y - era * 400 in
  let doy := (153 * (if m >? 2 then m - 3 else m + 9) + 2) / 5 + d - 1 in
  let doe := yoe * 365 + yoe / 4 - yoe / 100 + doy in
  era * 146097 + doe - 719468.

Definition gmtime (u : Z) : tm :=
  let secs := u mod 86400 in
  let '(y, m, d) := civil_from_days (u / 86400) in
  mkTm (y - 1900) (m - 1) d (secs / 3600) (secs mod 3600 / 60) (secs mod 60).

(** 01:00 UTC on the last Sunday of a month of 31 days. *)
Definition last_sunday_1utc (y m : Z) : Z :=
  let d31 := days_from_civil y m 31 in
  (d31 - (d31 + 4) mod 7) * 86400 + 3600.

Definition summer_time (u : Z) : bool :=
  let '(y, _, _) := civil_from_days (u / 86400) in
  (last_sunday_1utc y 3 <=? u) && (u <? last_sunday_1utc y 10).

Definition localtime (u : Z) : tm :=
  gmtime (u + if summer_time u then 7200 else 3600).

(** Division rounding to nearest, ties to even. *)
Definition round_div (a b : Z) : Z :=
  let q := a / b in
  let r := a mod b in
  if 2 * r <? b then q
  else if 2 * r >? b then q + 1
  else if Z.even q then q else q + 1.

(** printf's [%.<n>f]. *)
Definition fixed (n : nat) (x : float) : string :=
  let scale := 10 ^ Z.of_nat n in
  let digits (neg : bool) (q : Z) :=
    (if neg then "-" else "") +:+ decimal (q / scale)
    +:+ (if Nat.eqb n 0 then "" else "." +:+ fmt_0d n (q mod scale)) in
  match Prim2SF x with
  | S754_nan => "nan"
  | S754_infinity neg => if neg then "-inf" else "inf"
  | S754_zero neg => digits neg 0
  | S754_finite neg m e =>
      digits neg (if 0 <=? e then Z.pos m * scale * 2 ^ e
                  else round_div (Z.pos m * scale) (2 ^ (- e)))
  end.

(** Natural logarithm of a positive finite float, by the series of
    [atanh] after reduction to [[0.5, 1)]. *)
Fixpoint atanh_series (k : nat) (z2 pow : float) (odd : float) : float :=
  match k with
  | O => 0%float
  | S k' => (pow / odd + atanh_series k' z2 (pow * z2) (odd + 2))%float
  end.

Definition logf (x : float) : float :=
  let (m, e) := FloatOps.Z.frexp x in
  let z := ((m - 1) / (m + 1))%float in
  let ln2 := 0x1.62e42fefa39efp-1%float in
  let n := of_uint63 (Uint63Axioms.of_Z (Z.abs e)) in
  let shift := if (e <? 0)%Z then (- (n * ln2))%float else (n * ln2)%float in
  (2 * atanh_series 30 (z * z) z 1 + shift)%float.

(** Outcomes of the card, per kind of operation. *)
Record Card := mkCard {
  begins : nat -> bool;
  lookups : nat -> bool;
  opens : nat -> bool;
  writes : nat -> nat;
  removes : nat -> bool;
  renames : nat -> bool
}.

Definition sound_card : Card :=
  mkCard (fun _ => true) (fun _ => true) (fun _ => true) (fun _ => 4096%nat)
    (fun _ => true) (fun _ => true).

(** A platform with the given card, SHT3x presence, DS18B20 reading and
    clock; the button is not pressed and the clock raises no alarm. *)
Definition platform (c : Card) (sht : bool) (water : float) (unix : Z)
  : Platform :=
  mkPlatform (begins c) (fun _ => 3) (lookups c) (opens c) (writes c)
    (removes c) (renames c)
    (fun _ _ => sht) (fun _ => 22.5%float) (fun _ => 58.5%float)
    (fun _ => 12) (fun _ => water) (fun _ => unix) (fun _ _ => false)
    localtime gmtime logf fixed.

(** Christmas afternoon 2024, 14:30:00 UTC. *)
Definition xmas : Z := 1735137000.

Definition healthy : Platform := platform sound_card true 8.5%float xmas.

Definition no_data : MeasurementData :=
  mkData (mkDateTime 2000 1 1 0 0 0) 0%float 0%float 0%float 0%float false
    false.

(** The globals after a boot that found every device. *)
Definition booted : Globals :=
  mkGlobals true true true true false false 0 0 0 0 0 xmas INTERVAL_SD
    (mkHist [] [] [] false) no_data false 0 0 0 false.

Definition fresh_card : gmap string string := {[ data_csv := header_line ]}.

Definition start (g : Globals) (c : gmap string string) : State :=
  mkState g c 100000 0 [].

End Bench.

(** * Properties of runs *)

(** ** Relations every step preserves

    [obeys R m]: from any state, [m] ends in a state related by [R].  When
    [R] is reflexive and transitive and holds of the elementary updates,
    it holds of whole functions; the loops are handled by induction on
    their bound. *)

Definition obeys {A} (R : State -> State -> Prop) (m : M A) : Prop :=
  forall s, R s (run m s).

Class Law (R : State -> State -> Prop) : Prop := {
  law_refl : forall s, R s s;
  law_trans : forall a b c, R a b -> R b c -> R a c;
  law_calls : forall s n, R s (with_calls n s)
}.

(** ** Frames: which events a function may add, what it may do to the
    globals, to the card and to the clock *)

Record Frame := mkFrame {
  allows : Event -> Prop;
  keeps : Globals -> Globals -> Prop;
  holds : gmap string string -> gmap string string -> Prop;
  ticks : Z -> Z -> Prop
}.

Definition within (F : Frame) (s s' : State) : Prop :=
  (exists evs, trace s' = trace s ++ evs /\ Forall (allows F) evs)
  /\ keeps F (vars s) (vars s')
  /\ holds F (card s) (card s')
  /\ ticks F (now_ms s) (now_ms s').

Class Lawful (F : Frame) : Prop := {
  keeps_refl : forall g, keeps F g g;
  keeps_trans : forall a b c, keeps F a b -> keeps F b c -> keeps F a c;
  holds_refl : forall c, holds F c c;
  holds_trans : forall a b c, holds F a b -> holds F b c -> holds F a c;
  ticks_refl : forall n, ticks F n n;
  ticks_trans : forall a b c, ticks F a b -> ticks F b c -> ticks F a c
}.

(** Kinds of events. *)
Definition is_storage (e : Event) : bool :=
  match e with
  | SdBegin _ | SdEnd | SdType _ | SpiBegin | SpiEnd | CsHigh | SdExists _ _
  | SdOpen _ _ _ | FilePrintln _ _ _ | FileFlush _ | FileClose _
  | SdRemove _ _ | SdRename _ _ _ => true
  | _ => false
  end.

Definition is_count (e : Event) : bool :=
  match e with CountIncr | CountSet _ => true | _ => false end.

Definition is_incr (e : Event) : bool :=
  match e with CountIncr => true | _ => false end.

Definition is_probe (e : Event) : bool :=
  match e with ShtBegin _ _ => true | _ => false end.

Definition is_sht (e : Event) : bool :=
  match e with
  | ShtBegin _ _ | ShtTemperature _ | ShtHumidity _ => true
  | _ => false
  end.

Definition is_request (e : Event) : bool :=
  match e with DsRequest => true | _ => false end.

Definition is_ds (e : Event) : bool :=
  match e with
  | DsResolution _ | DsSetWait _ | DsRequest | DsRead _ => true
  | _ => false
  end.

Definition is_clock (e : Event) : bool :=
  match e with RtcNow _ => true | _ => false end.

(** What a frame lets through. *)
Class StorageIO (F : Frame) : Prop :=
  storage_io : forall e, is_storage e = true -> allows F e.
Class ProbeIO (F : Frame) : Prop :=
  probe_io : forall addr ok, allows F (ShtBegin addr ok).
Class ShtIO (F : Frame) : Prop := {
  sht_io_t : forall v, allows F (ShtTemperature v);
  sht_io_h : forall v, allows F (ShtHumidity v)
}.
Class DsIO (F : Frame) : Prop :=
  ds_io : forall e, is_ds e = true -> allows F e.
Class ClockIO (F : Frame) : Prop :=
  clock_io : forall u, allows F (RtcNow u).
Class CardFree (F : Frame) : Prop :=
  card_free : forall c c', holds F c c'.
Class TimeFree (F : Frame) : Prop :=
  time_free : forall a b, ticks F a b.
Class HealthFree (F : Frame) : Prop := {
  free_sdAvailable : forall g v, keeps F g (set_sdAvailable v g);
  free_sdFailCount : forall g v, keeps F g (set_sdFailCount v g);
  free_lastSDRetry : forall g v, keeps F g (set_lastSDRetry v g);
  free_interval : forall g v, keeps F g (set_interval v g)
}.
Class CountFree (F : Frame) : Prop := {
  free_incr : allows F CountIncr;
  free_set : forall v, allows F (CountSet v);
  free_logCount : forall g v, keeps F g (set_logCount v g)
}.
Class ShtFree (F : Frame) : Prop := {
  free_shtOK : forall g v, keeps F g (set_shtOK v g);
  free_data : forall g v, keeps F g (set_data v g)
}.

(** ** The frames used below *)

Definition any {A} (_ _ : A) : Prop := True.

(** No constraint, but that the trace only grows. *)
Definition growing : Frame := mkFrame (fun _ => True) any any any.

(** The globals of the DS18B20 and of its conversion. *)
Definition same_conversion (g g' : Globals) : Prop :=
  ds18b20OK g' = ds18b20OK g
  /\ dsConvPending g' = dsConvPending g
  /\ dsConvReadyAt g' = dsConvReadyAt g.

(** Code that leaves the DS18B20 alone and takes no time. *)
Definition no_ds : Frame :=
  mkFrame (fun e => is_ds e = false) same_conversion any eq.

(** Code that does not probe the SHT3x nor count a cycle. *)
Definition no_probe : Frame :=
  mkFrame (fun e => is_probe e = false)
    (fun g g' => sht_retry_counter g' = sht_retry_counter g) any any.

(** What the acquisition owns: sensor health, reading, conversion. *)
Definition same_sensors (g g' : Globals) : Prop :=
  shtOK g' = shtOK g /\ rtcOK g' = rtcOK g /\ data g' = data g
  /\ sht_retry_counter g' = sht_retry_counter g
  /\ same_conversion g g'.

(** The log store: it talks to the card and to the clock only, and leaves
    the acquisition's globals alone. *)
Definition storage_only : Frame :=
  mkFrame (fun e => is_storage e || is_count e || is_clock e = true)
    same_sensors any any.

(** Code that does not touch [logCount]. *)
Definition quiet : Frame :=
  mkFrame (fun e => is_count e = false)
    (fun g g' => logCount g' = logCount g) any any.

(** The pre-sleep resolution: it reads the DS18B20 and leaves its health
    flag alone. *)
Definition resolving : Frame :=
  mkFrame (fun e => is_ds e = true)
    (fun g g' => ds18b20OK g' = ds18b20OK g /\ shtOK g' = shtOK g) eq any.

(** The state in which the counting pass of [verifyLastWrite] starts: the
    file has been opened, measured and closed. *)
Definition counting_state (hw : Platform) (s : State) : State :=
  run (delay 50) (run (File_close data_csv) (run (open_retry hw 5) s)).

Definition is_set (e : Event) : bool :=
  match e with CountSet _ => true | _ => false end.

(** Code that only reads the card. *)
Definition readonly : Frame :=
  mkFrame (fun e => is_storage e = true) eq eq any.

(** Events that do not advance [logCount]: anything but an increment, a
    reset only to zero. *)
Definition tidy (e : Event) : Prop :=
  match e with
  | CountIncr => False
  | CountSet v => v = 0
  | _ => True
  end.

Definition resetting : Frame := mkFrame tidy any any any.

(** ** The count and the trace *)

(** [logCount] as the trace tells it. *)
Definition replay_event (c : Z) (e : Event) : Z :=
  match e with
  | CountIncr => u32 (c + 1)
  | CountSet v => v
  | _ => c
  end.

Definition replay (evs : list Event) (c : Z) : Z :=
  fold_left replay_event evs c.

Definition tracks (s s' : State) : Prop :=
  exists evs,
    trace s' = trace s ++ evs
    /\ logCount (vars s') = replay evs (logCount (vars s)).

(** The end of a successful append: [written] bytes of the row, flush,
    close, and only then the increment. *)
Definition commit_events (row : string) (written : Z) : list Event :=
  [FilePrintln data_csv row written; FileFlush data_csv; FileClose data_csv;
   CountIncr].

Definition committed (evs : list Event) : Prop :=
  exists pre row written,
    evs = pre ++ commit_events row written
    /\ 0 < written
    /\ Forall tidy pre.

(** ** States and platforms of the examples *)

Module Scenario.

(** The probe has come off: every reading is -127.0. *)
Definition unplugged : Platform :=
  Bench.platform Bench.sound_card true DS18B20_ERROR_DISCONNECTED Bench.xmas.

(** The SHT3x is marked unhealthy, three cycles have been counted. *)
Definition sht_down : State :=
  Bench.start (set_sht_retry_counter 3 (set_shtOK false Bench.booted))
    Bench.fresh_card.

(** [rtc.begin()] failed at boot. *)
Definition no_clock : State :=
  Bench.start (set_rtcOK false Bench.booted) Bench.fresh_card.

Definition placeholder : DateTime := mkDateTime 2023 1 1 0 0 0.

(** A row as [logData] writes it, with its line end. *)
Definition row : string :=
  "2024-12-25T14:30:00Z,1735137000000,2024-12-25 15:30:00,22.50,58.5,13.95,8.50,1,1"
  +:+ crlf.

(** Five rows on the card, six counted. *)
Definition five_rows : string :=
  header_line +:+ row +:+ row +:+ row +:+ row +:+ row.

Definition miscounted : State :=
  Bench.start (set_logCount 6 Bench.booted) {[ data_csv := five_rows ]}.

(** The card has lost its file; 41 rows were counted. *)
Definition file_gone : State :=
  Bench.start (set_logCount 41 Bench.booted) ∅.

(** A card on which no rename succeeds. *)
Definition no_rename : Platform :=
  Bench.platform
    (Bench.mkCard (fun _ => true) (fun _ => true) (fun _ => true)
       (fun _ => 4096%nat) (fun _ => true) (fun _ => false))
    true 8.5%float Bench.xmas.

(** A file of three bytes. *)
Definition stub_file : State :=
  Bench.start (set_logCount 6 Bench.booted) {[ data_csv := "abc" ]}.

End Scenario.

(** What is left of [logData] once the file has been re-created. *)
Definition after_recreate (hw : Platform) : M unit :=
  flow <- logData_append hw;;
  match flow with
  | Return => ret tt
  | Continue => logData_loop hw 1
  end.

(** How an iteration of [logData] ends, and what it added to the trace:
    with a commit and a [return], or without advancing the count. *)
Definition ends (s : State) (p : Flow * State) : Prop :=
  exists evs,
    trace p.2 = trace s ++ evs
    /\ ((p.1 = Return /\ committed evs) \/ Forall tidy evs).

(** * The rest of the sketch

    The functions around the log store and the acquisition: the refresh of
    the counter, the display's switch, the due test of [loop()] and the
    wake-up on the timer. *)

Definition DISPLAY_UPDATE_INTERVAL : Z := 1000.

Section Rest.

Variable hw : Platform.

Definition updateLogCount : M unit :=
  now <- millis;;
  last <- get lastLogCountUpdate;;
  when (u32 (now - last) >=? LOG_COUNT_UPDATE_INTERVAL)
    (c <- countLogEntries hw;;
     logCount_set c;;
     now <- millis;;
     assign (set_lastLogCountUpdate now)).

(** [displayOff]: a blank frame, then the panel is switched off. *)
Definition displayOff : M unit :=
  emit DisplayFrame;;
  assign (set_displayOn false).

(** The test of [loop()] that starts a measurement, from
    [uint32_t elapsed] to [elapsed >= interval]. *)
Definition measurement_due (interval lastMeasureUnix nowUnix : Z) : bool :=
  let elapsed :=
    if nowUnix >=? lastMeasureUnix then u32 (nowUnix - lastMeasureUnix)
    else 0 in
  elapsed >=? interval.

(** [if (rtcOK) { ... measureAndLog(); }] in [loop()]. *)
Definition loop_measure : M unit :=
  rtc <- get rtcOK;;
  when rtc
    (nowUnix <- rtc_now_unixtime hw;;
     last <- get lastMeasureUnix;;
     iv <- get interval;;
     when (measurement_due iv last nowUnix) (measureAndLog hw)).

(** The wake-up of [enterLightSleep] when the button is not held: the
    card is brought up again after a long sleep, then a reading is taken
    and logged.  (The alarm flags of the DS3231 are cleared in between
    when its pin is low; the clock's time is not affected.) *)
Definition wake_timer (longSleep : bool) : M unit :=
  sd <- get sdAvailable;;
  when (longSleep || negb sd)
    (ok <- reinitSD hw;;
     when (negb ok)
       (assign (set_sdAvailable false);;
        assign (set_interval INTERVAL_NO_SD)));;
  measureAndLog hw.

(** The storage part of [initSensors], from [isBootPhase = true] on. *)
Definition initSensors_storage : M unit :=
  assign (set_isBootPhase true);;
  assign (set_sdFailCount 0);;
  ok <- reinitSD hw;;
  assign (set_sdAvailable ok);;
  assign (set_isBootPhase false);;
  sd <- get sdAvailable;;
  assign (set_interval (if sd then INTERVAL_SD else INTERVAL_NO_SD));;
  when sd (c <- countLogEntries hw;; logCount_set c).

End Rest.

(** ** More frames *)

(** Code that talks to the card and leaves every global alone. *)
Definition card_only : Frame :=
  mkFrame (fun e => is_storage e = true) eq any any.

(** What the log store owns. *)
Definition same_store (g g' : Globals) : Prop :=
  sdAvailable g' = sdAvailable g /\ logCount g' = logCount g
  /\ interval g' = interval g /\ sdFailCount g' = sdFailCount g
  /\ lastSDRetry g' = lastSDRetry g
  /\ lastMeasureUnix g' = lastMeasureUnix g
  /\ lastLogCountUpdate g' = lastLogCountUpdate g.

(** Code that stays away from the card and from the log store. *)
Definition no_storage : Frame :=
  mkFrame (fun e => is_storage e || is_count e = false) same_store eq any.

(** ** Outcomes of the storage functions *)

(** What one attempt of [reinitSD] leaves: the retry clock is restarted
    and the card is touched; on success storage is up, with the file on
    the card; on failure one more failure is counted and nothing else of
    the store changes. *)
Definition attempt_post (k : nat) (s : State) (p : bool * State) : Prop :=
  lastSDRetry (vars p.2)
  = (if 0 <? Z.of_nat k then u32 (now_ms s + 500) else now_ms s)
  /\ isBootPhase (vars p.2) = isBootPhase (vars s)
  /\ logCount (vars p.2) = logCount (vars s)
  /\ (exists evs, trace p.2 = trace s ++ CsHigh :: evs)
  /\ if p.1 then
       sdAvailable (vars p.2) = true /\ sdFailCount (vars p.2) = 0
       /\ interval (vars p.2) = INTERVAL_SD
       /\ present (card p.2) data_csv = true
     else
       sdAvailable (vars p.2) = sdAvailable (vars s)
       /\ interval (vars p.2) = interval (vars s)
       /\ sdFailCount (vars p.2) = u8 (sdFailCount (vars s) + 1).

(** The same for the loop of [n] attempts. *)
Definition retries_post (n : nat) (s : State) (p : bool * State) : Prop :=
  isBootPhase (vars p.2) = isBootPhase (vars s)
  /\ logCount (vars p.2) = logCount (vars s)
  /\ if p.1 then
       sdAvailable (vars p.2) = true /\ sdFailCount (vars p.2) = 0
       /\ interval (vars p.2) = INTERVAL_SD
       /\ present (card p.2) data_csv = true
     else
       sdAvailable (vars p.2) = sdAvailable (vars s)
       /\ interval (vars p.2) = interval (vars s)
       /\ sdFailCount (vars p.2) = u8 (sdFailCount (vars s) + Z.of_nat n).

(** The guard of [reinitSD]: a failure was counted less than
    [SD_RETRY_INTERVAL] ago, and the boot is over. *)
Definition cooling (s : State) : bool :=
  negb (isBootPhase (vars s)) && (0 <? sdFailCount (vars s))
  && (u32 (now_ms s - lastSDRetry (vars s)) <? SD_RETRY_INTERVAL).

(** ** More states and platforms for the examples *)

Module Cases.

(** A card that does not answer [SD.begin]. *)
Definition dead : Platform :=
  Bench.platform
    (Bench.mkCard (fun _ => false) (fun _ => true) (fun _ => true)
       (fun _ => 4096%nat) (fun _ => true) (fun _ => true))
    true 8.5%float Bench.xmas.

(** Storage has just been lost; no failure is counted yet. *)
Definition card_lost : State :=
  Bench.start (set_sdAvailable false Bench.booted) Bench.fresh_card.

End Cases.

(** How an iteration of [logData] leaves the store: a row is committed
    and storage is up; or storage is given up, nothing is done and the
    interval falls back; or the iteration is to be repeated, with storage
    marked unavailable. *)
Definition settles (s : State) (p : Flow * State) : Prop :=
  exists evs,
    trace p.2 = trace s ++ evs
    /\ ((p.1 = Return /\ committed evs /\ sdAvailable (vars p.2) = true)
        \/ (p.1 = Return /\ evs = [] /\ sdAvailable (vars p.2) = false
            /\ interval (vars p.2) = INTERVAL_NO_SD)
        \/ (p.1 = Continue /\ Forall tidy evs
            /\ sdAvailable (vars p.2) = false)).

(** Either a row is committed and storage is up, or the iteration is to
    be repeated with storage marked unavailable. *)
Definition commits_or_fails (s : State) (p : Flow * State) : Prop :=
  exists evs,
    trace p.2 = trace s ++ evs
    /\ ((p.1 = Return /\ committed evs /\ sdAvailable (vars p.2) = true)
        \/ (p.1 = Continue /\ Forall tidy evs
            /\ sdAvailable (vars p.2) = false)).

Module More.

(** Storage is down and five failures are counted. *)
Definition given_up : State :=
  Bench.start (set_sdFailCount 5 (set_sdAvailable false Bench.booted))
    Bench.fresh_card.

(** A card on which no file opens. *)
Definition no_open : Platform :=
  Bench.platform
    (Bench.mkCard (fun _ => true) (fun _ => true) (fun _ => false)
       (fun _ => 4096%nat) (fun _ => true) (fun _ => true))
    true 8.5%float Bench.xmas.

End More.

(** ** Text without a given character *)

Definition LF : ascii := "010".
Definition COMMA : ascii := ",".
Definition NUL : ascii := "000".

Fixpoint lacks (c : ascii) (s : string) : bool :=
  match s with
  | EmptyString => true
  | String x rest => negb (Ascii.eqb x c) && lacks c rest
  end.

(** A file as [println] builds it, line by line. *)
Fixpoint unlines (ls : list string) : string :=
  match ls with
  | [] => ""
  | l :: rest => l +:+ crlf +:+ unlines rest
  end.

(** ** Outcomes of the acquisition *)

(** The globals after the SHT3x part of a measurement that started from
    [g]: the store, the clock's flag and the probe's flag are untouched,
    the water reading is cleared, and a valid reading comes from a healthy
    sensor. *)
Definition sht_part (g g' : Globals) : Prop :=
  rtcOK g' = rtcOK g /\ sdAvailable g' = sdAvailable g
  /\ logCount g' = logCount g /\ interval g' = interval g
  /\ ds18b20OK g' = ds18b20OK g
  /\ waterTempValid (data g') = false
  /\ (shtValid (data g') = true -> shtOK g' = true).

(** The globals once both sensors are read, the DS18B20 having answered
    [v]: the store and the clock's flag are untouched, the probe is
    healthy and its reading valid exactly when it was healthy and [v] is no
    sentinel. *)
Definition acquired (g : Globals) (v : float) (g' : Globals) : Prop :=
  rtcOK g' = rtcOK g /\ sdAvailable g' = sdAvailable g
  /\ logCount g' = logCount g /\ interval g' = interval g
  /\ ds18b20OK g' = ds18b20OK g && plausible v
  /\ waterTempValid (data g') = ds18b20OK g && plausible v
  /\ (waterTempValid (data g') = true -> tWater (data g') = v)
  /\ (shtValid (data g') = true -> shtOK g' = true).

(** What a run of [measureAndLog] from [s] does: the SHT3x is handled
    first, then the DS18B20 (when healthy: a request and the reading [v]),
    then the clock (when available: the reading [u]), then the log store
    (when storage is available). *)
Definition measured (hw : Platform) (s : State) (p : unit * State) : Prop :=
  let s' := p.2 in
  exists sht_evs v u store_evs,
    trace s'
    = trace s ++ sht_evs
      ++ (if ds18b20OK (vars s) then [DsRequest; DsRead v] else [])
      ++ (if rtcOK (vars s) then [RtcNow u] else []) ++ store_evs
    /\ Forall (fun e => is_sht e = true) sht_evs
    /\ Forall (fun e => is_storage e || is_count e || is_clock e = true)
         store_evs
    /\ (sdAvailable (vars s) = false ->
        store_evs = [] /\ card s' = card s
        /\ logCount (vars s') = logCount (vars s)
        /\ interval (vars s') = interval (vars s)
        /\ sdAvailable (vars s') = false)
    /\ ds18b20OK (vars s') = ds18b20OK (vars s) && plausible v
    /\ waterTempValid (data (vars s')) = ds18b20OK (vars s) && plausible v
    /\ (waterTempValid (data (vars s')) = true -> tWater (data (vars s')) = v)
    /\ ts (data (vars s'))
       = (if rtcOK (vars s) then unixToLocal hw u
          else mkDateTime 2023 1 1 0 0 0)
    /\ lastMeasureUnix (vars s') = (if rtcOK (vars s) then u else 0)
    /\ isMeasuring (vars s') = false
    /\ (shtValid (data (vars s')) = true -> shtOK (vars s') = true)
    /\ rtcOK (vars s') = rtcOK (vars s).

(** What the wait of [enterLightSleep] for a pending conversion leaves,
    [j] rounds of 10 ms after [s]: the loop has ended by itself; the
    sensor was read at most once, and then the conversion is no longer
    pending and the reading is stored unless it is a sentinel; the
    probe's health flag is never touched; with nothing pending the loop is
    left at once. *)
Definition resolved (s : State) (j : Z) (p : bool * State) : Prop :=
  p.1 = true
  /\ u32 (now_ms p.2 - now_ms s) = 10 * j
  /\ card p.2 = card s
  /\ ds18b20OK (vars p.2) = ds18b20OK (vars s)
  /\ (dsConvPending (vars s) = false -> p.2 = s)
  /\ ((trace p.2 = trace s /\ data (vars p.2) = data (vars s)
       /\ dsConvPending (vars p.2) = dsConvPending (vars s))
      \/ exists v,
           trace p.2 = trace s ++ [DsRead v]
           /\ dsConvPending (vars p.2) = false
           /\ data (vars p.2)
              = if plausible v
                then set_waterTempValid true (set_tWater v (data (vars s)))
                else data (vars s)).

(** * The history shown on the display *)

Definition set_hist_t (v : list float) (s : HistoricalData) : HistoricalData :=
  mkHist v (hist_h s) (hist_tWater s) (valid s).
Definition set_hist_h (v : list float) (s : HistoricalData) : HistoricalData :=
  mkHist (hist_t s) v (hist_tWater s) (valid s).
Definition set_hist_tWater (v : list float) (s : HistoricalData)
  : HistoricalData :=
  mkHist (hist_t s) (hist_h s) v (valid s).

(** A C string ends at its first NUL. *)
Fixpoint c_str (s : string) : string :=
  match s with
  | EmptyString => EmptyString
  | String c rest =>
      if Ascii.eqb c "000" then EmptyString else String c (c_str rest)
  end.

(** [safeStrncpy(dest, src, destSize)], as the new content of [dest];
    [None] is a buffer that was never written. *)
Definition safeStrncpy (dest : option string) (src : option string)
    (destSize : nat) : option string :=
  if Nat.eqb destSize 0 then dest
  else match src with
       | Some l => Some (substring 0 (destSize - 1) (c_str l))
       | None => None
       end.

(** [while (f.available() && f.read() != '\n') {}]: what is left to read
    after the header line. *)
Fixpoint skip_line (content : string) : string :=
  match content with
  | EmptyString => EmptyString
  | String c rest => if Ascii.eqb c "010" then rest else skip_line rest
  end.

(** [lines], [lineCount], and the first [charIdx] characters of
    [currentLine]. *)
Record LineScan := mkScan {
  lines : list (option string);
  lineCount : Z;
  currentLine : string
}.

Definition line_at (ls : list (option string)) (i : nat) : option string :=
  match ls !! i with Some l => l | None => None end.

(** The line just read goes into the buffer of three: into the next free
    place, or into the last one after the others have moved up. *)
Definition keep_line (sc : LineScan) : LineScan :=
  let cur := Some (currentLine sc) in
  let ls := lines sc in
  mkScan
    (if lineCount sc <? 3 then
       <[Z.to_nat (lineCount sc) :=
           safeStrncpy (line_at ls (Z.to_nat (lineCount sc))) cur 220]> ls
     else
       let l0 := safeStrncpy (line_at ls 0) (line_at ls 1) 220 in
       let l1 := safeStrncpy (line_at ls 1) (line_at ls 2) 220 in
       let l2 := safeStrncpy (line_at ls 2) cur 220 in
       [l0; l1; l2])
    (lineCount sc + 1) "".

(** [while (f.available()) { char c = f.read(); ... }] *)
Fixpoint scan_lines (content : string) (sc : LineScan) : LineScan :=
  match content with
  | EmptyString => sc
  | String c rest =>
      scan_lines rest
        (if Ascii.eqb c "010" then
           if 0 <? Z.of_nat (String.length (currentLine sc)) then keep_line sc
           else sc
         else if negb (Ascii.eqb c "013")
                 && (Z.of_nat (String.length (currentLine sc)) <? 219) then
           mkScan (lines sc) (lineCount sc) (currentLine sc +:+ String c "")
         else sc)
  end.

(** The whole reading of the file, with the line that has no line feed. *)
Definition read_lines (content : string) : LineScan :=
  let sc := scan_lines (skip_line content) (mkScan [None; None; None] 0 "") in
  if 0 <? Z.of_nat (String.length (currentLine sc)) then keep_line sc else sc.

Section History.

(** libc's [atof], with its result converted to [float]. *)
Variable atof : string -> float.

(** [if (fieldIdx == 3 && fieldCharIdx > 0) ... else if ...] *)
Definition store_field (fieldIdx : Z) (field : string) (dataIdx : nat)
    (hd : HistoricalData) : HistoricalData :=
  let filled := 0 <? Z.of_nat (String.length field) in
  if (fieldIdx =? 3) && filled then
    set_hist_t (<[dataIdx := atof field]> (hist_t hd)) hd
  else if (fieldIdx =? 4) && filled then
    set_hist_h (<[dataIdx := atof field]> (hist_h hd)) hd
  else if (fieldIdx =? 6) && filled then
    set_hist_tWater (<[dataIdx := atof field]> (hist_tWater hd)) hd
  else hd.

(** [for (int j = 0; lines[i][j] != '\0'; j++) { ... }] and what follows
    it for the last field; [field] is the first [fieldCharIdx] characters
    of the buffer. *)
Fixpoint parse_fields (line : string) (fieldIdx : Z) (field : string)
    (dataIdx : nat) (hd : HistoricalData) : HistoricalData :=
  match line with
  | EmptyString =>
      if (0 <? Z.of_nat (String.length field)) && (fieldIdx =? 6) then
        set_hist_tWater (<[dataIdx := atof field]> (hist_tWater hd)) hd
      else hd
  | String ch rest =>
      if Ascii.eqb ch "," then
        parse_fields rest (fieldIdx + 1) "" dataIdx
          (store_field fieldIdx field dataIdx hd)
      else if Z.of_nat (String.length field) <? 31 then
        parse_fields rest fieldIdx (field +:+ String ch "") dataIdx hd
      else parse_fields rest fieldIdx field dataIdx hd
  end.

(** [for (int i = 0; i < count; i++)], from [i] on; a buffer that was
    never written reads as empty. *)
Fixpoint parse_lines (todo : nat) (i count : nat) (ls : list (option string))
    (hd : HistoricalData) : HistoricalData :=
  match todo with
  | O => hd
  | S k =>
      let line := match line_at ls i with Some l => l | None => "" end in
      parse_lines k (S i) count ls
        (parse_fields line 0 "" (count - 1 - i) hd)
  end.

Definition no_history : HistoricalData :=
  mkHist [0; 0; 0]%float [0; 0; 0]%float [0; 0; 0]%float false.

(** What [readLastMeasurements] makes of the content of the file. *)
Definition history (content : string) : HistoricalData :=
  let sc := read_lines content in
  let count := Z.to_nat (Z.min (lineCount sc) 3) in
  set_valid (0 <? Z.of_nat count)
    (parse_lines count 0 count (lines sc) no_history).

Variable hw : Platform.

Definition readLastMeasurements : M unit :=
  assign (set_historicalData no_history);;
  sd <- get sdAvailable;;
  if negb sd then ret tt else
  f <- SD_open_read hw data_csv;;
  match f with
  | None => ret tt
  | Some content =>
      File_close data_csv;;
      assign (set_historicalData (history content))
  end.

(** [displayOnFunc]: the panel is switched on and cleared, the counter
    and the history are read from the card. *)
Definition displayOnFunc : M unit :=
  delay 2;;
  assign (set_displayOn true);;
  assign (set_displayUpdateCount 0);;
  now <- millis;;
  assign (set_lastDisplayUpdate now);;
  emit DisplayFrame;;
  c <- countLogEntries hw;;
  logCount_set c;;
  now <- millis;;
  assign (set_lastLogCountUpdate now);;
  readLastMeasurements.

(** The display's part of [loop()]. *)
Definition loop_display : M unit :=
  on <- get displayOn;;
  when on
    (c <- get displayUpdateCount;;
     if c >=? 20 then displayOff
     else
       now <- millis;;
       last <- get lastDisplayUpdate;;
       when (u32 (now - last) >=? DISPLAY_UPDATE_INTERVAL)
         (updateDisplay hw;;
          now <- millis;;
          assign (set_lastDisplayUpdate now);;
          updateLogCount hw)).

End History.

(** ** The lines of a file, for reference *)

(** A line as the buffer of three stores it. *)
Definition stored (l : string) : string := substring 0 219 (c_str l).

(** The lines that the scan completes: what is read up to a line feed,
    without carriage returns and cut at 219 characters, empty lines left
    out; [cur] is the line being read. *)
Fixpoint full_lines (content : string) (cur : string) : list string :=
  match content with
  | EmptyString => []
  | String c rest =>
      if Ascii.eqb c "010" then
        if 0 <? Z.of_nat (String.length cur) then cur :: full_lines rest ""
        else full_lines rest ""
      else if negb (Ascii.eqb c "013")
              && (Z.of_nat (String.length cur) <? 219) then
        full_lines rest (cur +:+ String c "")
      else full_lines rest cur
  end.

(** The line that is being read when the file ends. *)
Fixpoint last_line (content : string) (cur : string) : string :=
  match content with
  | EmptyString => cur
  | String c rest =>
      if Ascii.eqb c "010" then last_line rest ""
      else if negb (Ascii.eqb c "013")
              && (Z.of_nat (String.length cur) <? 219) then
        last_line rest (cur +:+ String c "")
      else last_line rest cur
  end.

(** All the data lines of a file, oldest first, as they would be
    stored. *)
Definition data_lines (content : string) : list string :=
  let rest := skip_line content in
  map stored
    (full_lines rest ""
     ++ (if 0 <? Z.of_nat (String.length (last_line rest "")) then
           [last_line rest ""]
         else [])).

(** The buffer of three holds the last lines of [kept]. *)
Definition holds_last (kept : list string) (sc : LineScan) : Prop :=
  lineCount sc = Z.of_nat (length kept)
  /\ length (lines sc) = 3%nat
  /\ take (Nat.min 3 (length kept)) (lines sc)
     = map Some (drop (length kept - 3) (map stored kept)).

Section HistoryValues.

Variable atof : string -> float.

(** The number in a field; an empty field has none. *)
Definition field_value (field : string) : option float :=
  if 0 <? Z.of_nat (String.length field) then Some (atof field) else None.

(** The values of one line: temperature, humidity, water temperature,
    as the scan of the fields finds them from field [fieldIdx] on, [field]
    being the part of the current field already read. *)
Fixpoint line_values (line : string) (fieldIdx : Z) (field : string)
    (acc : option float * option float * option float)
  : option float * option float * option float :=
  let '(t, h, w) := acc in
  match line with
  | EmptyString =>
      if (0 <? Z.of_nat (String.length field)) && (fieldIdx =? 6) then
        (t, h, Some (atof field))
      else acc
  | String ch rest =>
      if Ascii.eqb ch "," then
        let filled := 0 <? Z.of_nat (String.length field) in
        line_values rest (fieldIdx + 1) ""
          (if (fieldIdx =? 3) && filled then (Some (atof field), h, w)
           else if (fieldIdx =? 4) && filled then (t, Some (atof field), w)
           else if (fieldIdx =? 6) && filled then (t, h, Some (atof field))
           else acc)
      else if Z.of_nat (String.length field) <? 31 then
        line_values rest fieldIdx (field +:+ String ch "") acc
      else line_values rest fieldIdx field acc
  end.

(** A value goes to its place in an array of the history. *)
Definition put (idx : nat) (v : option float) (l : list float) : list float :=
  match v with Some x => <[idx := x]> l | None => l end.

Definition put_values (idx : nat)
    (v : option float * option float * option float) (hd : HistoricalData)
  : HistoricalData :=
  let '(t, h, w) := v in
  mkHist (put idx t (hist_t hd)) (put idx h (hist_h hd))
    (put idx w (hist_tWater hd)) (valid hd).

(** The history made of the given lines, oldest first: each goes to the
    place that counts the lines after it. *)
Fixpoint place_lines (recent : list string) (hd : HistoricalData)
  : HistoricalData :=
  match recent with
  | [] => hd
  | l :: rest =>
      place_lines rest (parse_fields atof l 0 "" (length rest) hd)
  end.

End HistoryValues.

(** A row of fields. *)
Fixpoint csv (fields : list string) : string :=
  match fields with
  | [] => ""
  | [f] => f
  | f :: rest => f +:+ "," +:+ csv rest
  end.

(** * Sleep and wake-up

    The rest of [enterLightSleep] and [loop()].  The calls that configure
    the radio, the pins and the sleep mode, and [Serial], change nothing
    the sketch reads back and are left out; a pin is read from the
    platform. *)

Definition PIN_BUTTON : Z := 0.
Definition PIN_WAKE_RX : Z := 3.
Definition LONG_PRESS_MS : Z := 15000.

Section Wake.

Variable atof : string -> float.
Variable hw : Platform.

(** [digitalRead(pin) == LOW] *)
Definition pin_is_low (pin : Z) : M bool :=
  ask hw (fun p n => pin_low p n pin).

(** [while (isMeasuring && (millis() - waitStart < 5000UL)) delay(50);]
    [fuel] bounds the recursion; the result is [false] when it ran
    out. *)
Fixpoint wait_measuring (fuel : nat) (waitStart : Z) : M bool :=
  measuring <- get isMeasuring;;
  now <- millis;;
  if measuring && (u32 (now - waitStart) <? 5000) then
    match fuel with
    | O => ret false
    | S k => delay 50;; wait_measuring k waitStart
    end
  else ret true.

(** [while (remaining > 0) { ... }]: the sleep in slices of five
    seconds, left when the button or, if armed, the clock's alarm pulls
    its pin low. *)
Fixpoint sleep_loop (fuel : nat) (useRtcWake : bool) (remaining : Z) : M bool :=
  if remaining >? 0 then
    match fuel with
    | O => ret false
    | S k =>
        pressed <- pin_is_low PIN_BUTTON;;
        if pressed then ret true else
        let slice := if remaining >? 5 then 5 else remaining in
        delay 10;;
        buttonLow <- pin_is_low PIN_BUTTON;;
        rtcLow <- (if useRtcWake then pin_is_low PIN_WAKE_RX else ret false);;
        if negb buttonLow && negb rtcLow then
          delay (slice * 1000);;
          sleep_loop k useRtcWake (u32 (remaining - slice))
        else ret true
    end
  else ret true.

(** [enterLightSleep] until the wake lines have been sampled: the pending
    conversion is resolved, the card is released before a long sleep, the
    device sleeps.  The result is [longSleep] and [buttonLow]. *)
Definition enterLightSleep_asleep : M (bool * bool) :=
  enterLightSleep_resolve hw;;
  waitStart <- millis;;
  wait_measuring 100 waitStart;;
  remaining <- enterLightSleep_remaining hw;;
  let longSleep := remaining >? 30 in
  sd <- get sdAvailable;;
  when (longSleep && sd) endSD;;
  delay 1;;
  let useRtcWake := remaining >? 250 in
  delay 1;;
  sleep_loop 268 useRtcWake remaining;;
  delay 5;;
  buttonLow <- pin_is_low PIN_BUTTON;;
  pin_is_low PIN_WAKE_RX;;
  ret (longSleep, buttonLow).

(** The button branch as far as the call of [measureDisplay]. *)
Definition wake_button_open (longSleep : bool) : M unit :=
  sd <- get sdAvailable;;
  when (longSleep || negb sd) (reinitSD hw;; ret tt);;
  displayOnFunc atof hw.

(** [while (digitalRead(PIN_BUTTON) == LOW && (millis() - holdStart) <
    LONG_PRESS_MS)]: the display is refreshed while the button is
    held. *)
Fixpoint hold_loop (fuel : nat) (holdStart : Z) : M bool :=
  held <- pin_is_low PIN_BUTTON;;
  now <- millis;;
  if held && (u32 (now - holdStart) <? LONG_PRESS_MS) then
    match fuel with
    | O => ret false
    | S k =>
        now <- millis;;
        last <- get lastDisplayUpdate;;
        when (u32 (now - last) >=? DISPLAY_UPDATE_INTERVAL)
          (updateDisplay hw;;
           now <- millis;;
           assign (set_lastDisplayUpdate now));;
        delay 50;;
        hold_loop k holdStart
    end
  else ret true.

(** [while (digitalRead(PIN_BUTTON) == LOW && (millis() - debounceStart <
    5000UL)) delay(50);] *)
Fixpoint debounce_loop (fuel : nat) (debounceStart : Z) : M bool :=
  held <- pin_is_low PIN_BUTTON;;
  now <- millis;;
  if held && (u32 (now - debounceStart) <? 5000) then
    match fuel with
    | O => ret false
    | S k => delay 50;; debounce_loop k debounceStart
    end
  else ret true.

(** From [updateDisplay()] after the measurement to the test of the long
    press; the result is that test. *)
Definition wake_button_hold : M bool :=
  updateDisplay hw;;
  holdStart <- millis;;
  hold_loop 300 holdStart;;
  pin_is_low PIN_BUTTON.

(** The long press: a new log file is started. *)
Definition long_press : M unit :=
  sd <- get sdAvailable;;
  when (negb sd) (reinitSD hw;; ret tt);;
  rotateLogFile hw;;
  emit DisplayFrame;;
  delay 2000;;
  displayOnFunc atof hw.

(** The button branch after the call of [measureDisplay]. *)
Definition wake_button_close : M unit :=
  held <- wake_button_hold;;
  when held long_press;;
  debounceStart <- millis;;
  debounce_loop 100 debounceStart;;
  ret tt.

Definition wake_button (longSleep : bool) : M unit :=
  wake_button_open longSleep;;
  measureDisplay hw;;
  wake_button_close.

Definition enterLightSleep : M unit :=
  p <- enterLightSleep_asleep;;
  if p.2 then wake_button p.1 else wake_timer hw p.1.

(** [loop()] before it sleeps or pauses; the result is [!displayOn]. *)
Definition loop_awake : M bool :=
  loop_display hw;;
  loop_measure hw;;
  on <- get displayOn;;
  ret (negb on).

Definition loop : M unit :=
  off <- loop_awake;;
  if off then enterLightSleep else delay 100.

Fixpoint loops (n : nat) : M unit :=
  match n with
  | O => ret tt
  | S k => loop;; loops k
  end.

End Wake.

(** Code that starts no conversion and leaves the pending flag alone. *)
Definition idle : Frame :=
  mkFrame (fun e => is_request e = false)
    (fun g g' => dsConvPending g' = dsConvPending g) any any.

(** Code that takes no time. *)
Definition timeless : Frame := mkFrame (fun _ => True) any any eq.

(** ** A press on the button *)

Module Press.

(** [hw] with the button held low during the first [n] driver calls and
    released afterwards; the clock raises no alarm. *)
Definition held_for (n : nat) (hw : Platform) : Platform :=
  mkPlatform (sd_begin_ok hw) (sd_card_type hw) (sd_lookup_ok hw)
    (sd_open_ok hw) (sd_write_len hw) (sd_remove_ok hw) (sd_rename_ok hw)
    (sht_begin_ok hw) (sht_temperature hw) (sht_humidity hw)
    (ds_resolution hw) (ds_temp hw) (rtc_unixtime hw)
    (fun k pin => (pin =? PIN_BUTTON) && (k <? n)%nat)
    (libc_localtime hw) (libc_gmtime hw) (libc_logf hw) (libc_fixed hw).

(** The numbers of the history are not looked at. *)
Definition atof : string -> float := fun _ => 0%float.

(** A short press: the button is down when [loop()] goes to sleep and up
    again when the display is on.  The probe has come off. *)
Definition short_unplugged : Platform := held_for 4 Scenario.unplugged.

(** [loop()] is about to sleep; [millis()] wraps in 1299 ms. *)
Definition before_wrap : State :=
  mkState Bench.booted Bench.fresh_card (2 ^ 32 - 1299) 0 [].

(** The same, far from the wrap. *)
Definition far_from_wrap : State :=
  mkState Bench.booted Bench.fresh_card 100000 0 [].

(** A card on which files open during the first [n] driver calls only. *)
Definition pulled_at (n : nat) : Platform :=
  Bench.platform
    (Bench.mkCard (fun _ => true) (fun _ => true) (fun k => (k <? n)%nat)
       (fun _ => 4096%nat) (fun _ => true) (fun _ => true))
    true 8.5%float Bench.xmas.

(** A long press, during which the card stops opening files. *)
Definition long_pulled : Platform := held_for 332 (pulled_at 100).

(** Five rows are on the card and five are counted. *)
Definition five_logged : State :=
  Bench.start (set_logCount 5 Bench.booted) {[ data_csv := Scenario.five_rows ]}.

End Press.

(** * Reasoning about runs *)

Lemma run_bind {A B} (m : M A) (f : A -> M B) s :
  run (bind m f) s = run (f (result m s)) (run m s).
Proof. unfold run, result, bind. destruct (m s); reflexivity. Qed.

Lemma result_bind {A B} (m : M A) (f : A -> M B) s :
  result (bind m f) s = result (f (result m s)) (run m s).
Proof. unfold run, result, bind. destruct (m s); reflexivity. Qed.

Lemma run_ret {A} (a : A) s : run (ret a) s = s.
Proof. reflexivity. Qed.

Lemma result_ret {A} (a : A) s : result (ret a) s = a.
Proof. reflexivity. Qed.

(** Forward execution: what holds of [bind m f] from [s] is shown from
    any outcome of [m]. *)
Lemma bind_elim {A B} (m : M A) (f : A -> M B) s (P : B * State -> Prop) :
  (forall a s1, m s = (a, s1) -> P (f a s1)) -> P (bind m f s).
Proof.
  intros H. unfold bind. destruct (m s) as [a s1]. apply H. reflexivity.
Qed.

Lemma u32_range z : 0 <= u32 z < 2 ^ 32.
Proof. unfold u32. apply Z.mod_pos_bound. reflexivity. Qed.

Lemma u32_small z : 0 <= z < 2 ^ 32 -> u32 z = z.
Proof. intros H. unfold u32. apply Z.mod_small. exact H. Qed.

Lemma events_intro {A} (m : M A) s evs :
  trace (run m s) = trace s ++ evs -> events m s = evs.
Proof. intros H. unfold events. rewrite H. apply drop_app_length. Qed.

Lemma drop_trace (tr evs tail : list Event) full :
  full = tr ++ evs -> drop (length tr) (full ++ tail) = evs ++ tail.
Proof. intros ->. rewrite <- List.app_assoc. apply drop_app_length. Qed.

Lemma drop_trace_nil (tr evs : list Event) full :
  full = tr ++ evs -> drop (length tr) full = evs.
Proof. intros ->. apply drop_app_length. Qed.

Lemma existsb_forall_false {A} (p : A -> bool) l :
  Forall (fun x => p x = false) l -> existsb p l = false.
Proof. induction 1 as [ | x l Hx _ IH]; simpl; [reflexivity | rewrite Hx; exact IH]. Qed.

Section Obeys.

Context (R : State -> State -> Prop) `{!Law R}.

Lemma obeys_ret {A} (a : A) : obeys R (ret a).
Proof. intros s. apply law_refl. Qed.

Lemma obeys_bind {A B} (m : M A) (f : A -> M B) :
  obeys R m -> (forall a, obeys R (f a)) -> obeys R (bind m f).
Proof.
  intros Hm Hf s. rewrite run_bind.
  eapply law_trans; [apply Hm | apply Hf].
Qed.

Lemma obeys_get {A} (f : Globals -> A) : obeys R (get f).
Proof. intros s. apply law_refl. Qed.

Lemma obeys_millis : obeys R millis.
Proof. intros s. apply law_refl. Qed.

Lemma obeys_files : obeys R files.
Proof. intros s. apply law_refl. Qed.

Lemma obeys_delay n :
  (forall s, R s (with_ms (u32 (now_ms s + n)) s)) -> obeys R (delay n).
Proof. intros H s. apply H. Qed.

Lemma obeys_ask hw {A} (f : Platform -> nat -> A) : obeys R (ask hw f).
Proof. intros s. apply law_calls. Qed.

Lemma obeys_emit e :
  (forall s, R s (with_trace (trace s ++ [e]) s)) -> obeys R (emit e).
Proof. intros H s. apply H. Qed.

Lemma obeys_assign upd :
  (forall s, R s (with_vars (upd (vars s)) s)) -> obeys R (assign upd).
Proof. intros H s. apply H. Qed.

Lemma obeys_store f :
  (forall s, R s (with_card (f (card s)) s)) -> obeys R (store f).
Proof. intros H s. apply H. Qed.

End Obeys.

Lemma within_refl F `{!Lawful F} s : within F s s.
Proof.
  split; [exists []; rewrite app_nil_r; auto | repeat split].
  - apply keeps_refl.
  - apply holds_refl.
  - apply ticks_refl.
Qed.

Lemma within_law F `{!Lawful F} : Law (within F).
Proof.
  split.
  - apply within_refl; assumption.
  - intros a b c [[e1 [H1 F1]] [K1 [C1 T1]]] [[e2 [H2 F2]] [K2 [C2 T2]]].
    split; [exists (e1 ++ e2) | repeat split].
    + rewrite H2, H1, List.app_assoc.
      split; [reflexivity | apply Forall_app; auto].
    + eapply keeps_trans; eauto.
    + eapply holds_trans; eauto.
    + eapply ticks_trans; eauto.
  - intros s n. apply (within_refl F s).
Qed.
#[export] Existing Instance within_law.

Lemma within_emit F `{!Lawful F} e s :
  allows F e -> within F s (with_trace (trace s ++ [e]) s).
Proof.
  intros H. split; [exists [e]; simpl; auto | repeat split].
  - apply keeps_refl.
  - apply holds_refl.
  - apply ticks_refl.
Qed.

Lemma within_assign F `{!Lawful F} g s :
  keeps F (vars s) g -> within F s (with_vars g s).
Proof.
  intros H. split; [exists []; simpl; rewrite app_nil_r; auto | repeat split].
  - apply H.
  - apply holds_refl.
  - apply ticks_refl.
Qed.

Lemma within_store F `{!Lawful F} c s :
  holds F (card s) c -> within F s (with_card c s).
Proof.
  intros H. split; [exists []; simpl; rewrite app_nil_r; auto | repeat split].
  - apply keeps_refl.
  - apply H.
  - apply ticks_refl.
Qed.

Lemma within_delay F `{!Lawful F} n s :
  ticks F (now_ms s) n -> within F s (with_ms n s).
Proof.
  intros H. split; [exists []; simpl; rewrite app_nil_r; auto | repeat split].
  - apply keeps_refl.
  - apply holds_refl.
  - apply H.
Qed.

Create HintDb side discriminated.
Create HintDb obey discriminated.

#[export] Hint Resolve within_emit within_assign within_store within_delay : side.
#[export] Hint Resolve free_sdAvailable free_sdFailCount free_lastSDRetry
  free_interval free_incr free_set free_logCount clock_io card_free time_free
  free_shtOK free_data probe_io sht_io_t sht_io_h : side.
#[export] Hint Extern 1 (allows _ _) => (apply storage_io; reflexivity) : side.
#[export] Hint Extern 1 (allows _ _) => (apply ds_io; reflexivity) : side.
#[export] Hint Extern 5 (allows _ _) => (simpl; try tauto; try reflexivity; try discriminate) : side.
#[export] Hint Extern 5 (keeps _ _ _) => (simpl; try tauto; try reflexivity) : side.
#[export] Hint Extern 5 (holds _ _ _) => (simpl; try tauto; try reflexivity) : side.
#[export] Hint Extern 5 (ticks _ _ _) => (simpl; try tauto; try reflexivity) : side.

Ltac side := solve [ intros; eauto with side typeclass_instances ].

Ltac obey_head m :=
  lazymatch m with
  | ?f _ _ _ _ => unfold f
  | ?f _ _ _ => unfold f
  | ?f _ _ => unfold f
  | ?f _ => unfold f
  | ?f => unfold f
  end.

Ltac obey1 :=
  lazymatch goal with
  | |- obeys ?R (ret _) => apply (obeys_ret R)
  | |- obeys ?R (bind _ _) => apply (obeys_bind R); [ | intros ? ]
  | |- obeys ?R (get _) => apply (obeys_get R)
  | |- obeys ?R millis => apply (obeys_millis R)
  | |- obeys ?R files => apply (obeys_files R)
  | |- obeys ?R (delay _) =>
      first [ apply (obeys_delay R); side | solve [ eauto with obey ] ]
  | |- obeys ?R (ask _ _) => apply (obeys_ask R)
  | |- obeys ?R (emit _) =>
      first [ apply (obeys_emit R); side | solve [ eauto with obey ] ]
  | |- obeys ?R (assign _) =>
      first [ apply (obeys_assign R); side | solve [ eauto with obey ] ]
  | |- obeys ?R (store _) =>
      first [ apply (obeys_store R); side | solve [ eauto with obey ] ]
  | |- obeys _ (when ?b _) => unfold when
  | |- obeys _ (if ?b then _ else _) => destruct b
  | |- obeys _ (match ?x with _ => _ end) => destruct x
  | |- obeys _ ?m =>
      first [ solve [ eauto with obey typeclass_instances ]
            | progress cbv zeta
            | obey_head m ]
  end.

Ltac obey := repeat obey1.

Lemma within_trans F `{!Lawful F} a b c :
  within F a b -> within F b c -> within F a c.
Proof. apply law_trans. Qed.

Lemma within_run {A} F (m : M A) s a s1 :
  obeys (within F) m -> m s = (a, s1) -> within F s s1.
Proof.
  intros H E. specialize (H s). unfold run in H. rewrite E in H. exact H.
Qed.

Lemma within_events {A} F (m : M A) s :
  obeys (within F) m ->
  trace (run m s) = trace s ++ events m s /\ Forall (allows F) (events m s).
Proof.
  intros H. destruct (H s) as [[evs [Htr Hev]] _].
  rewrite (events_intro m s evs Htr). split; assumption.
Qed.

(** *** The frames are lawful and let through what they should *)

Ltac lawful :=
  split; simpl; unfold any, same_sensors, same_conversion; intros;
  repeat match goal with H : _ /\ _ |- _ => destruct H end;
  repeat split; try congruence.

#[export] Instance growing_lawful : Lawful growing.
Proof. lawful. Qed.
#[export] Instance no_ds_lawful : Lawful no_ds.
Proof. lawful. Qed.
#[export] Instance no_probe_lawful : Lawful no_probe.
Proof. lawful. Qed.
#[export] Instance storage_only_lawful : Lawful storage_only.
Proof. lawful. Qed.
#[export] Instance quiet_lawful : Lawful quiet.
Proof. lawful. Qed.
#[export] Instance readonly_lawful : Lawful readonly.
Proof. lawful. Qed.
#[export] Instance resetting_lawful : Lawful resetting.
Proof. lawful. Qed.
#[export] Instance resolving_lawful : Lawful resolving.
Proof. lawful. Qed.

Ltac by_kind :=
  unfold StorageIO, ProbeIO, DsIO, ClockIO, CardFree, TimeFree;
  try (split; simpl);
  simpl; unfold any, same_sensors, same_conversion; intros;
  repeat match goal with e : Event |- _ => destruct e end;
  simpl in *; unfold any, same_sensors, same_conversion;
  repeat split; try congruence; auto.

#[export] Instance growing_storage : StorageIO growing. Proof. by_kind. Qed.
#[export] Instance growing_probe : ProbeIO growing. Proof. by_kind. Qed.
#[export] Instance growing_sht : ShtIO growing. Proof. by_kind. Qed.
#[export] Instance growing_ds : DsIO growing. Proof. by_kind. Qed.
#[export] Instance growing_clock : ClockIO growing. Proof. by_kind. Qed.
#[export] Instance growing_card : CardFree growing. Proof. by_kind. Qed.
#[export] Instance growing_time : TimeFree growing. Proof. by_kind. Qed.
#[export] Instance growing_health : HealthFree growing. Proof. by_kind. Qed.
#[export] Instance growing_count : CountFree growing. Proof. by_kind. Qed.
#[export] Instance growing_shtfree : ShtFree growing. Proof. by_kind. Qed.

#[export] Instance no_ds_probe : ProbeIO no_ds. Proof. by_kind. Qed.
#[export] Instance no_ds_sht : ShtIO no_ds. Proof. by_kind. Qed.
#[export] Instance no_ds_clock : ClockIO no_ds. Proof. by_kind. Qed.
#[export] Instance no_ds_shtfree : ShtFree no_ds. Proof. by_kind. Qed.

#[export] Instance no_probe_storage : StorageIO no_probe. Proof. by_kind. Qed.
#[export] Instance no_probe_sht : ShtIO no_probe. Proof. by_kind. Qed.
#[export] Instance no_probe_ds : DsIO no_probe. Proof. by_kind. Qed.
#[export] Instance no_probe_clock : ClockIO no_probe. Proof. by_kind. Qed.
#[export] Instance no_probe_card : CardFree no_probe. Proof. by_kind. Qed.
#[export] Instance no_probe_time : TimeFree no_probe. Proof. by_kind. Qed.
#[export] Instance no_probe_health : HealthFree no_probe. Proof. by_kind. Qed.
#[export] Instance no_probe_count : CountFree no_probe. Proof. by_kind. Qed.
#[export] Instance no_probe_shtfree : ShtFree no_probe. Proof. by_kind. Qed.

#[export] Instance storage_only_storage : StorageIO storage_only.
Proof. intros e H; simpl; rewrite H; reflexivity. Qed.
#[export] Instance storage_only_clock : ClockIO storage_only. Proof. by_kind. Qed.
#[export] Instance storage_only_card : CardFree storage_only. Proof. by_kind. Qed.
#[export] Instance storage_only_time : TimeFree storage_only. Proof. by_kind. Qed.
#[export] Instance storage_only_health : HealthFree storage_only. Proof. by_kind. Qed.
#[export] Instance storage_only_count : CountFree storage_only. Proof. by_kind. Qed.

#[export] Instance quiet_storage : StorageIO quiet. Proof. by_kind. Qed.
#[export] Instance quiet_clock : ClockIO quiet. Proof. by_kind. Qed.
#[export] Instance quiet_card : CardFree quiet. Proof. by_kind. Qed.
#[export] Instance quiet_time : TimeFree quiet. Proof. by_kind. Qed.
#[export] Instance quiet_health : HealthFree quiet. Proof. by_kind. Qed.

#[export] Instance readonly_storage : StorageIO readonly.
Proof. intros e H; exact H. Qed.
#[export] Instance readonly_time : TimeFree readonly. Proof. by_kind. Qed.

#[export] Instance resolving_ds : DsIO resolving.
Proof. intros e H; exact H. Qed.
#[export] Instance resolving_time : TimeFree resolving. Proof. by_kind. Qed.

#[export] Instance resetting_storage : StorageIO resetting. Proof. by_kind. Qed.
#[export] Instance resetting_clock : ClockIO resetting. Proof. by_kind. Qed.
#[export] Instance resetting_card : CardFree resetting. Proof. by_kind. Qed.
#[export] Instance resetting_time : TimeFree resetting. Proof. by_kind. Qed.
#[export] Instance resetting_health : HealthFree resetting. Proof. by_kind. Qed.

(** *** Frames of the functions *)

Section StorageFrames.

Variable hw : Platform.
Context (F : Frame) `{!Lawful F} `{!TimeFree F}.

Lemma exists_retry_within `{!StorageIO F} n p :
  obeys (within F) (exists_retry hw n p).
Proof. induction n; simpl; obey. Qed.

Lemma verify_created_within `{!StorageIO F} n :
  obeys (within F) (verify_created hw n).
Proof. induction n; simpl; obey. Qed.

Lemma open_retry_within `{!StorageIO F} n :
  obeys (within F) (open_retry hw n).
Proof. induction n; simpl; obey. Qed.

Lemma countLogEntries_within `{!StorageIO F} :
  obeys (within F) (countLogEntries hw).
Proof. obey. Qed.

Lemma forceEndSD_within `{!StorageIO F} : obeys (within F) forceEndSD.
Proof. obey. Qed.

Lemma write_header_within `{!StorageIO F} `{!CardFree F} :
  obeys (within F) (write_header hw).
Proof. obey. Qed.

#[local] Hint Resolve exists_retry_within verify_created_within
  open_retry_within countLogEntries_within forceEndSD_within
  write_header_within : obey.

Lemma reinitSD_attempt_within `{!StorageIO F} `{!CardFree F} `{!HealthFree F} k :
  obeys (within F) (reinitSD_attempt hw k).
Proof. obey. Qed.

#[local] Hint Resolve reinitSD_attempt_within : obey.

Lemma reinitSD_loop_within `{!StorageIO F} `{!CardFree F} `{!HealthFree F} n k :
  obeys (within F) (reinitSD_loop hw n k).
Proof. revert k. induction n; intros k; simpl; obey. Qed.

#[local] Hint Resolve reinitSD_loop_within : obey.

Lemma reinitSD_within `{!StorageIO F} `{!CardFree F} `{!HealthFree F} :
  obeys (within F) (reinitSD hw).
Proof. obey. Qed.

#[local] Hint Resolve reinitSD_within : obey.

Section Logging.

Context `{!StorageIO F} `{!CardFree F} `{!HealthFree F} `{!CountFree F}
  `{!ClockIO F}.

Lemma logData_iteration_within : obeys (within F) (logData_iteration hw).
Proof. obey. Qed.

#[local] Hint Resolve logData_iteration_within : obey.

Lemma logData_loop_within n : obeys (within F) (logData_loop hw n).
Proof. induction n; simpl; obey. Qed.

Lemma logData_within : obeys (within F) (logData hw).
Proof. apply logData_loop_within. Qed.

Lemma verifyLastWrite_within : obeys (within F) (verifyLastWrite hw).
Proof. obey. Qed.

End Logging.

End StorageFrames.

#[export] Hint Resolve exists_retry_within verify_created_within
  open_retry_within countLogEntries_within forceEndSD_within
  write_header_within reinitSD_attempt_within reinitSD_loop_within
  reinitSD_within logData_iteration_within logData_loop_within logData_within
  verifyLastWrite_within : obey.

Section SensorFrames.

Variable hw : Platform.
Context (F : Frame) `{!Lawful F}.

Lemma sht31_probe_within `{!ProbeIO F} : obeys (within F) (sht31_probe hw).
Proof. obey. Qed.

Lemma read_sht_within `{!ShtIO F} `{!ShtFree F} :
  obeys (within F) (read_sht hw).
Proof. obey. Qed.

Lemma clear_valid_within `{!ShtFree F} : obeys (within F) clear_valid.
Proof. obey. Qed.

Lemma store_water_within `{!ShtFree F} v : obeys (within F) (store_water v).
Proof. obey. Qed.

End SensorFrames.

#[export] Hint Resolve sht31_probe_within read_sht_within clear_valid_within
  store_water_within : obey.

(** *** Forward execution *)

Ltac focus m :=
  cbv zeta; unfold events, run, result;
  match goal with |- context [m ?s] => pattern (m s) end.

(** The next computation is summarised by the frame [F]. *)
Ltac fwd_frame F :=
  apply bind_elim;
  let a := fresh "a" in
  let s1 := fresh "s" in
  let E := fresh "E" in
  let W := fresh "W" in
  intros a s1 E;
  assert (W : within F _ s1) by (eapply within_run; [ | exact E]; obey).

(** The next computation is a primitive: run it. *)
Ltac fwd_prim :=
  apply bind_elim;
  let a := fresh "a" in
  let s1 := fresh "s" in
  let E := fresh "E" in
  intros a s1 E;
  cbv [get assign emit millis delay files store ask ret bind when
       sht31_begin sht31_readTemperature sht31_readHumidity
       ds18b20_getResolution ds18b20_setWaitForConversion
       ds18b20_requestTemperatures ds18b20_getTempCByIndex0 rtc_now_unixtime
       nowLocalFromRTC SD_begin SD_end SD_type SPI_begin SPI_end cs_high
       File_flush File_close logCount_incr logCount_set clear_valid
       store_water] in E;
  injection E as <- <-.

Ltac merge :=
  repeat match goal with
         | W1 : within ?F ?a ?b, W2 : within ?F ?b ?c |- _ =>
             let W := fresh "W" in
             pose proof (within_trans F a b c W1 W2) as W; clear W1 W2
         end.

Ltac open_within :=
  repeat match goal with
         | W : within _ _ _ |- _ =>
             let evs := fresh "evs" in
             let Htr := fresh "Htr" in
             let Hev := fresh "Hev" in
             let Hk := fresh "Hk" in
             let Hc := fresh "Hc" in
             let Ht := fresh "Ht" in
             destruct W as [[evs [Htr Hev]] [Hk [Hc Ht]]];
             simpl in Hev, Hk, Hc, Ht
         end.

Lemma frame_elim {A} F (m : M A) s (P : A * State -> Prop) :
  obeys (within F) m ->
  (forall a s1, within F s s1 -> P (a, s1)) -> P (m s).
Proof.
  intros H K. specialize (H s). unfold run in H.
  destruct (m s) as [a s1]. apply K. exact H.
Qed.

(** The rest of the function is summarised by the frame [F]. *)
Ltac fwd_rest F :=
  apply (frame_elim F);
  [ obey
  | let a := fresh "a" in
    let s1 := fresh "s" in
    let W := fresh "W" in
    intros a s1 W; cbn [fst snd] ].

Lemma no_request evs :
  Forall (fun e => is_ds e = false) evs -> existsb is_request evs = false.
Proof.
  intros H. apply existsb_forall_false.
  eapply List.Forall_impl; [ | exact H].
  intros e. destruct e; simpl; congruence.
Qed.

(** * The sleep duration *)

(** C3: whatever the interval (a [uint32_t]), the last measurement, the
    clock's reading and [rtcOK], [remaining] lies between 1 and
    [MAX_SLEEP_SEC] = 268; with the clock working, an interval of 240 s
    and 250 s elapsed, it is 1. *)
Theorem sleepRemaining_range (interval lastMeasureUnix nowUnix : Z)
    (rtcOK : bool) :
  0 <= interval < 2 ^ 32 ->
  1 <= sleepRemaining interval lastMeasureUnix nowUnix rtcOK <= MAX_SLEEP_SEC
  /\ sleepRemaining 240 lastMeasureUnix (lastMeasureUnix + 250) true = 1.
Proof.
  intros Hi. split.
  - unfold sleepRemaining, MAX_SLEEP_SEC.
    pose proof (u32_range (nowUnix - lastMeasureUnix)) as He.
    destruct rtcOK; [destruct (nowUnix >=? lastMeasureUnix) | ];
      repeat match goal with
             | |- context [?a <? ?b] => destruct (Z.ltb_spec a b)
             | |- context [?a >? ?b] => destruct (Z.gtb_spec a b)
             | |- context [?a =? ?b] => destruct (Z.eqb_spec a b)
             end; try rewrite u32_small in * by lia; lia.
  - unfold sleepRemaining.
    replace (lastMeasureUnix + 250 >=? lastMeasureUnix) with true
      by (symmetry; apply Z.geb_le; lia).
    replace (lastMeasureUnix + 250 - lastMeasureUnix) with 250 by lia.
    reflexivity.
Qed.

Lemma sleepRemaining_range_witness :
  1 <= sleepRemaining 240 1735137000 1735137100 true <= MAX_SLEEP_SEC
  /\ sleepRemaining 240 1735137000 (1735137000 + 250) true = 1.
Proof. apply (sleepRemaining_range 240 1735137000 1735137100 true). lia. Defined.

(** * The DS18B20 conversion *)

(** [measureDisplay] itself does not test the pending flag.  With
    [ds18b20OK] it sets the flag, requests a conversion and sets the
    deadline to [millis() + convMs]; without, it requests nothing and
    leaves flag and deadline as they were. *)
Lemma measureDisplay_conversion hw s :
  let s' := run (measureDisplay hw) s in
  let evs := events (measureDisplay hw) s in
  if ds18b20OK (vars s) then
    dsConvPending (vars s') = true
    /\ (exists res, In (DsResolution res) evs
        /\ dsConvReadyAt (vars s') = u32 (now_ms s + conversion_ms res))
    /\ existsb is_request evs = true
  else
    dsConvPending (vars s') = dsConvPending (vars s)
    /\ dsConvReadyAt (vars s') = dsConvReadyAt (vars s)
    /\ existsb is_request evs = false.
Proof.
  focus (measureDisplay hw). unfold measureDisplay.
  fwd_frame no_ds. fwd_prim. fwd_frame no_ds. fwd_frame no_ds. fwd_prim.
  merge. open_within. destruct Hk as (Hok & Hp & Hr).
  rewrite Hok.
  destruct (ds18b20OK (vars s));
    cbv [when bind assign ret get millis ask emit ds18b20_getResolution
         ds18b20_setWaitForConversion ds18b20_requestTemperatures
         rtc_now_unixtime]; simpl;
    repeat rewrite <- List.app_assoc; simpl;
    rewrite (drop_trace _ _ _ _ Htr), existsb_app, (no_request _ Hev); simpl.
  - repeat split. eexists. split; [ | rewrite Ht; reflexivity].
    apply in_or_app. right. left. reflexivity.
  - auto.
Qed.

(** ** The call of [measureDisplay] *)

#[export] Instance idle_lawful : Lawful idle.
Proof. lawful. Qed.
#[export] Instance idle_storage : StorageIO idle. Proof. by_kind. Qed.
#[export] Instance idle_probe : ProbeIO idle. Proof. by_kind. Qed.
#[export] Instance idle_sht : ShtIO idle. Proof. by_kind. Qed.
#[export] Instance idle_clock : ClockIO idle. Proof. by_kind. Qed.
#[export] Instance idle_card : CardFree idle. Proof. by_kind. Qed.
#[export] Instance idle_time : TimeFree idle. Proof. by_kind. Qed.
#[export] Instance idle_health : HealthFree idle. Proof. by_kind. Qed.
#[export] Instance idle_count : CountFree idle. Proof. by_kind. Qed.
#[export] Instance idle_shtfree : ShtFree idle. Proof. by_kind. Qed.

Lemma wait_measuring_within F `{!Lawful F} `{!TimeFree F} n w :
  obeys (within F) (wait_measuring n w).
Proof. revert w. induction n; intros w; simpl; obey. Qed.

Lemma sleep_loop_within hw F `{!Lawful F} `{!TimeFree F} n u r :
  obeys (within F) (sleep_loop hw n u r).
Proof. revert r. induction n; intros r; simpl; obey. Qed.

#[export] Hint Resolve wait_measuring_within sleep_loop_within : obey.

(** Whatever the wait does, the flag is down when it is over. *)
Lemma enterLightSleep_resolve_clears hw s :
  dsConvPending (vars (run (enterLightSleep_resolve hw) s)) = false.
Proof.
  unfold run, enterLightSleep_resolve, bind, get.
  destruct (dsConvPending (vars s)) eqn:Hp; [ | exact Hp].
  unfold millis. destruct (resolve_loop hw 200 (now_ms s) s) as [left s1].
  reflexivity.
Qed.

(** From the end of the wait to the call of [measureDisplay] no
    conversion is started and the flag is not written. *)
Lemma asleep_idle hw :
  obeys (within idle)
    (waitStart <- millis;;
     wait_measuring 100 waitStart;;
     remaining <- enterLightSleep_remaining hw;;
     let longSleep := remaining >? 30 in
     sd <- get sdAvailable;;
     when (longSleep && sd) endSD;;
     delay 1;;
     let useRtcWake := remaining >? 250 in
     delay 1;;
     sleep_loop hw 268 useRtcWake remaining;;
     delay 5;;
     buttonLow <- pin_is_low hw PIN_BUTTON;;
     pin_is_low hw PIN_WAKE_RX;;
     ret (longSleep, buttonLow)).
Proof. obey. Qed.

Lemma readLastMeasurements_idle atof hw :
  obeys (within idle) (readLastMeasurements atof hw).
Proof. obey. Qed.

Lemma wake_button_open_idle atof hw longSleep :
  obeys (within idle) (wake_button_open atof hw longSleep).
Proof.
  pose proof (readLastMeasurements_idle atof hw).
  unfold wake_button_open, displayOnFunc. obey.
Qed.

Lemma no_request_filter evs :
  Forall (fun e => is_ds e = false) evs -> List.filter is_request evs = [].
Proof.
  induction 1 as [ | e evs He _ IH]; [reflexivity | ].
  cbn [List.filter]. destruct e; try discriminate He; exact IH.
Qed.

(** The requests of one call of [measureDisplay]. *)
Lemma measureDisplay_requests hw s :
  List.filter is_request (events (measureDisplay hw) s)
  = if ds18b20OK (vars s) then [DsRequest] else [].
Proof.
  focus (measureDisplay hw). unfold measureDisplay.
  fwd_frame no_ds. fwd_prim. fwd_frame no_ds. fwd_frame no_ds. fwd_prim.
  merge. open_within. destruct Hk as (Hok & Hp & Hr).
  rewrite Hok.
  destruct (ds18b20OK (vars s));
    cbv [when bind assign ret get millis ask emit ds18b20_getResolution
         ds18b20_setWaitForConversion ds18b20_requestTemperatures
         rtc_now_unixtime]; simpl;
    repeat rewrite <- List.app_assoc; simpl;
    rewrite (drop_trace _ _ _ _ Htr), List.filter_app, (no_request_filter _ Hev);
    reflexivity.
Qed.

Lemma idle_pending s s' :
  within idle s s' -> dsConvPending (vars s') = dsConvPending (vars s).
Proof. intros (_ & H & _). exact H. Qed.

Lemma enterLightSleep_asleep_clears hw s :
  dsConvPending (vars (run (enterLightSleep_asleep hw) s)) = false.
Proof.
  unfold enterLightSleep_asleep. rewrite run_bind.
  rewrite (idle_pending _ _ (asleep_idle hw _)).
  apply enterLightSleep_resolve_clears.
Qed.


(** * Re-probing the SHT3x *)

Lemma no_probes evs :
  Forall (fun e => is_probe e = false) evs -> existsb is_probe evs = false.
Proof. apply existsb_forall_false. Qed.

Lemma measureAndLog_probes hw s :
  existsb is_probe (events (measureAndLog hw) s)
  = negb (shtOK (vars s))
    && (u32 (sht_retry_counter (vars s) + 1) mod SHT_RETRY_INTERVAL =? 0).
Proof.
  focus (measureAndLog hw). unfold measureAndLog.
  do 6 fwd_prim. simpl.
  destruct (shtOK (vars s)); simpl.
  - fwd_prim. fwd_rest no_probe. open_within. simpl in Htr.
    rewrite (drop_trace_nil _ _ _ Htr). apply no_probes, Hev.
  - destruct (_ =? 0).
    + apply bind_elim. intros a s1 E.
      cbv [when sht31_probe sht31_begin bind ask emit ret assign] in E.
      simpl in E.
      destruct (sht_begin_ok hw (calls s) 68); injection E as <- <-;
        fwd_rest no_probe; open_within; simpl in Htr;
        repeat rewrite <- List.app_assoc in Htr;
        rewrite (drop_trace_nil _ _ _ Htr); reflexivity.
    + fwd_prim. fwd_rest no_probe. open_within. simpl in Htr.
      rewrite (drop_trace_nil _ _ _ Htr). apply no_probes, Hev.
Qed.

Lemma measureDisplay_probes hw s :
  existsb is_probe (events (measureDisplay hw) s) = negb (shtOK (vars s))
  /\ sht_retry_counter (vars (run (measureDisplay hw) s))
     = sht_retry_counter (vars s).
Proof.
  focus (measureDisplay hw). unfold measureDisplay.
  do 2 fwd_prim. simpl.
  destruct (shtOK (vars s)); simpl.
  - fwd_prim. fwd_rest no_probe. open_within. simpl in *.
    rewrite (drop_trace_nil _ _ _ Htr).
    split; [apply no_probes, Hev | exact Hk].
  - apply bind_elim. intros a s1 E.
    cbv [when sht31_probe sht31_begin bind ask emit ret assign] in E.
    simpl in E.
    destruct (sht_begin_ok hw (calls s) 68); injection E as <- <-;
      fwd_rest no_probe; open_within; simpl in *;
      repeat rewrite <- List.app_assoc in Htr;
      rewrite (drop_trace_nil _ _ _ Htr); (split; [reflexivity | exact Hk]).
Qed.



(** * Sentinel readings of the DS18B20 *)

(** C8 fails in [enterLightSleep].  The button is pressed 1299 ms before
    [millis()] wraps and the probe has come off.  [measureDisplay] starts
    a conversion at 2^32 - 900 ms, due at 2^32 - 150 ms.  The first
    refresh of the display comes one second later, after the wrap, and
    from then on the comparison [millis() >= dsConvReadyAt] of
    [updateDisplay] is false: after 192 passes of [loop()] and 20
    refreshes the conversion is still pending, and the next pass of
    [loop()] switches the display off and enters [enterLightSleep] with
    it.  The wait there reads -127.0, stores nothing and clears the flag,
    but [ds18b20OK] stays true, until the wake lines are sampled after
    the sleep.  The same press far from the wrap is resolved by
    [updateDisplay], which clears [ds18b20OK]. *)
Theorem enterLightSleep_resolve_keeps_health_on_sentinel :
  let hw := Press.short_unplugged in
  let shown n := run (loops Press.atof hw n) Press.before_wrap in
  let asleep := run (loop_awake hw) (shown 192%nat) in
  let s' := run (enterLightSleep_resolve hw) asleep in
  (dsConvPending (vars (shown 1%nat)) = true
   /\ now_ms (shown 1%nat) = 2 ^ 32 - 900
   /\ dsConvReadyAt (vars (shown 1%nat)) = 2 ^ 32 - 150)
  /\ (displayOn (vars (shown 192%nat)) = true
      /\ displayUpdateCount (vars (shown 192%nat)) = 20
      /\ now_ms (shown 192%nat) = 18200)
  /\ (result (loop_awake hw) (shown 192%nat) = true
      /\ dsConvPending (vars asleep) = true
      /\ ds18b20OK (vars asleep) = true)
  /\ (events (enterLightSleep_resolve hw) asleep
      = [DsRead DS18B20_ERROR_DISCONNECTED]
      /\ waterTempValid (data (vars s')) = false
      /\ dsConvPending (vars s') = false
      /\ ds18b20OK (vars s') = true
      /\ ds18b20OK (vars (run (enterLightSleep_asleep hw) asleep)) = true)
  /\ (let there := run (loops Press.atof hw 192) Press.far_from_wrap in
      dsConvPending (vars there) = false /\ ds18b20OK (vars there) = false).
Proof. vm_compute. repeat split. Qed.

(** * The timestamp of a reading *)

(** C9 fails in [measureDisplay]: with [rtcOK] false it still stamps the
    reading with what the clock returns (here 2024-12-25 15:30:00 local),
    where [measureAndLog] takes the placeholder 2023-01-01 00:00:00. *)
Theorem measureDisplay_stamps_without_clock :
  rtcOK (vars Scenario.no_clock) = false
  /\ ts (data (vars (run (measureDisplay Bench.healthy) Scenario.no_clock)))
     = mkDateTime 2024 12 25 15 30 0
  /\ ts (data (vars (run (measureAndLog Bench.healthy) Scenario.no_clock)))
     = Scenario.placeholder.
Proof. vm_compute. repeat split. Qed.

(** * The count and the trace of [logData] *)


Lemma replay_app e1 e2 c : replay (e1 ++ e2) c = replay e2 (replay e1 c).
Proof. unfold replay. apply fold_left_app. Qed.

Lemma replay_quiet evs c :
  Forall (fun e => is_count e = false) evs -> replay evs c = c.
Proof.
  intros H. revert c. induction H as [ | e l He _ IH]; intros c; [reflexivity | ].
  unfold replay in *. simpl. rewrite IH. destruct e; simpl in *; congruence.
Qed.

Lemma replay_tidy evs c :
  Forall tidy evs -> replay evs c = c \/ replay evs c = 0.
Proof.
  intros H. revert c. induction H as [ | e l He _ IH]; intros c; [left; reflexivity | ].
  unfold replay in *. simpl.
  destruct e; simpl in *;
    try apply IH; try contradiction.
  subst v. destruct (IH 0); auto.
Qed.

Lemma tidy_no_incr evs : Forall tidy evs -> existsb is_incr evs = false.
Proof.
  intros H. apply existsb_forall_false.
  eapply List.Forall_impl; [ | exact H].
  intros e He. destruct e; simpl in *; try reflexivity. contradiction.
Qed.

Lemma tidy_quiet evs :
  Forall (fun e => is_count e = false) evs -> Forall tidy evs.
Proof.
  apply List.Forall_impl. intros e. destruct e; simpl; intros; congruence || exact I.
Qed.

Lemma committed_incr evs : committed evs -> existsb is_incr evs = true.
Proof.
  intros (pre & row & n & -> & _ & _). rewrite existsb_app. simpl.
  apply orb_true_r.
Qed.

#[export] Instance tracks_law : Law tracks.
Proof.
  split.
  - intros s. exists []. rewrite app_nil_r. split; reflexivity.
  - intros a b c (e1 & H1 & L1) (e2 & H2 & L2). exists (e1 ++ e2).
    rewrite H2, H1, List.app_assoc, L2, L1, replay_app. split; reflexivity.
  - intros s n. exists []. simpl. rewrite app_nil_r. split; reflexivity.
Qed.

Lemma quiet_tracks s s' : within quiet s s' -> tracks s s'.
Proof.
  intros [[evs [Htr Hev]] [Hk _]]. simpl in *. exists evs.
  split; [exact Htr | ]. rewrite replay_quiet by exact Hev. exact Hk.
Qed.

Lemma quiet_obeys_tracks {A} (m : M A) :
  obeys (within quiet) m -> obeys tracks m.
Proof. intros H s. apply quiet_tracks, H. Qed.

Lemma logCount_incr_tracks : obeys tracks logCount_incr.
Proof.
  intros s. exists [CountIncr]. split; reflexivity.
Qed.

Lemma logCount_set_tracks v : obeys tracks (logCount_set v).
Proof.
  intros s. exists [CountSet v]. split; reflexivity.
Qed.

#[export] Hint Resolve logCount_incr_tracks logCount_set_tracks : obey.
#[export] Hint Extern 3 (obeys tracks _) =>
  (apply quiet_obeys_tracks; solve [obey]) : obey.

Lemma logData_loop_tracks hw n : obeys tracks (logData_loop hw n).
Proof. induction n; simpl; obey. Qed.

Lemma logData_append_ends hw s :
  (fun p => exists evs, trace p.2 = trace s ++ evs
     /\ ((p.1 = Return /\ committed evs) \/ (p.1 = Continue /\ Forall tidy evs)))
    (logData_append hw s).
Proof.
  unfold logData_append.
  fwd_frame resetting. destruct a; cbn [negb].
  - fwd_frame resetting. fwd_prim.
    apply bind_elim. intros written s2 E1.
    cbv [File_println bind ask store emit ret] in E1. injection E1 as <- <-.
    do 4 fwd_prim. merge. open_within.
    match goal with |- context [Z.of_nat ?n =? 0] =>
      destruct (Z.eqb_spec (Z.of_nat n) 0) as [Hz | Hz]
    end.
    + fwd_prim. cbn. eexists. split.
      * rewrite Htr. rewrite <- !List.app_assoc. reflexivity.
      * right. split; [reflexivity | ].
        apply Forall_app. split; [exact Hev | ].
        repeat constructor.
    + cbv [logCount_incr bind get assign emit ret]. cbn. eexists. split.
      * rewrite Htr. rewrite <- !List.app_assoc. reflexivity.
      * left. split; [reflexivity | ].
        eexists evs, _, _. split; [reflexivity | ]. split; [lia | exact Hev].
  - fwd_prim. cbn. open_within. exists evs. split; [exact Htr | ].
    right. split; [reflexivity | exact Hev].
Qed.

Lemma committed_after pre evs : Forall tidy pre -> committed evs -> committed (pre ++ evs).
Proof.
  intros Hp (pre' & row & n & -> & Hn & Hpre').
  exists (pre ++ pre'), row, n. rewrite List.app_assoc.
  split; [reflexivity | ]. split; [exact Hn | ].
  apply Forall_app. split; assumption.
Qed.

Lemma logData_write_ends hw s : ends s (logData_write hw s).
Proof.
  unfold ends. pattern (logData_write hw s). unfold logData_write.
  fwd_frame resetting. fwd_frame resetting. merge. open_within.
  destruct a0; cbn [negb].
  - destruct (logData_append_ends hw s1) as (evs' & Htr' & H).
    destruct (logData_append hw s1) as [flow s2]. cbn [fst snd] in *.
    exists (evs ++ evs'). rewrite Htr', Htr, List.app_assoc.
    split; [reflexivity | ].
    destruct H as [[-> Hcm] | [_ Ht']].
    + left. split; [reflexivity | apply committed_after; assumption].
    + right. apply Forall_app. split; assumption.
  - cbn. exists evs. split; [exact Htr | right; exact Hev].
Qed.

Lemma logData_iteration_ends hw s : ends s (logData_iteration hw s).
Proof.
  unfold ends. pattern (logData_iteration hw s). unfold logData_iteration.
  fwd_prim. destruct (sdAvailable (vars s)); cbn [negb].
  - apply logData_write_ends.
  - fwd_prim. destruct (_ <? _).
    + fwd_frame resetting. open_within. destruct a; cbn [negb].
      * destruct (logData_write_ends hw s0) as (evs' & Htr' & H).
        destruct (logData_write hw s0) as [flow s2]. cbn [fst snd] in *.
        exists (evs ++ evs'). rewrite Htr', Htr, List.app_assoc.
        split; [reflexivity | ].
        destruct H as [[-> Hcm] | Ht'].
        -- left. split; [reflexivity | apply committed_after; assumption].
        -- right. apply Forall_app. split; assumption.
      * cbn. exists evs. split; [exact Htr | right; exact Hev].
    + fwd_prim. cbn. exists []. rewrite app_nil_r. split; [reflexivity | ].
      right. constructor.
Qed.

Lemma logData_loop_ends hw n s :
  exists evs,
    trace (run (logData_loop hw n) s) = trace s ++ evs
    /\ (committed evs \/ Forall tidy evs).
Proof.
  revert s. induction n as [ | n IH]; intros s.
  - exists []. cbn. rewrite app_nil_r. split; [reflexivity | right; constructor].
  - unfold run. pattern (logData_loop hw (S n) s). cbn [logData_loop].
    apply bind_elim. intros flow s1 E.
    pose proof (logData_iteration_ends hw s) as (evs & Htr & H).
    rewrite E in Htr, H. cbn [fst snd] in Htr, H.
    destruct flow.
    + cbn. exists evs. split; [exact Htr | ]. tauto.
    + destruct H as [[Hf _] | Ht]; [discriminate | ].
      destruct (IH s1) as (evs' & Htr' & H'). unfold run in Htr'.
      exists (evs ++ evs'). rewrite Htr', Htr, List.app_assoc.
      split; [reflexivity | ].
      destruct H' as [Hcm | Ht'].
      * left. apply committed_after; assumption.
      * right. apply Forall_app. split; assumption.
Qed.

(** The events of a run of [logData]: they end with a commit, or none of
    them advances the count; and the count follows them. *)
Lemma logData_shape hw s :
  trace (run (logData hw) s) = trace s ++ events (logData hw) s
  /\ logCount (vars (run (logData hw) s))
     = replay (events (logData hw) s) (logCount (vars s))
  /\ (committed (events (logData hw) s) \/ Forall tidy (events (logData hw) s)).
Proof.
  destruct (logData_loop_ends hw MAX_LOG_RETRIES s) as (evs & Htr & H).
  destruct (logData_loop_tracks hw MAX_LOG_RETRIES s) as (evs' & Htr' & Hlc).
  fold (logData hw) in Htr, Htr', Hlc.
  rewrite (events_intro _ _ _ Htr).
  assert (evs' = evs) as ->
    by (rewrite Htr in Htr'; eapply app_inv_head; eauto).
  auto.
Qed.

(** C4: in every run of [logData] the count follows the trace; if the
    count is incremented at all, the increment is the last event and
    comes right after the row was written (more than zero bytes), flushed
    and closed; if it is not, the count is what it was, or zero after a
    re-creation of the file. *)
Theorem logData_counts_after_flush hw s :
  let evs := events (logData hw) s in
  let s' := run (logData hw) s in
  logCount (vars s') = replay evs (logCount (vars s))
  /\ (existsb is_incr evs = true -> committed evs)
  /\ (existsb is_incr evs = false ->
      logCount (vars s') = logCount (vars s) \/ logCount (vars s') = 0).
Proof.
  cbv zeta. destruct (logData_shape hw s) as (_ & Hlc & H).
  split; [exact Hlc | ]. rewrite Hlc. split.
  - intros Hi. destruct H as [H | H]; [exact H | ].
    rewrite (tidy_no_incr _ H) in Hi. discriminate.
  - intros Hi. destruct H as [H | H].
    + apply committed_incr in H. congruence.
    + apply replay_tidy, H.
Qed.

(** * Verification of the last write *)


Lemma trace_events {A} F (m : M A) s :
  obeys (within F) m -> trace (run m s) = trace s ++ events m s.
Proof. intros H. apply (within_events F m s H). Qed.

Lemma open_retry_events hw n s content :
  result (open_retry hw n) s = Some content ->
  exists k, (k < n)%nat
    /\ events (open_retry hw n) s
       = repeat (SdOpen data_csv FILE_READ false) k
         ++ [SdOpen data_csv FILE_READ true].
Proof.
  revert s. induction n as [ | n IH]; intros s; [discriminate | ].
  unfold result, events, run. pattern (open_retry hw (S n) s).
  cbn [open_retry].
  apply bind_elim. intros f s1 E.
  cbv [SD_open_read bind ask files emit ret] in E. injection E as <- <-.
  destruct (if sd_open_ok hw (calls s) then card s !! data_csv else None) eqn:Ef.
  - intros _. exists 0%nat. split; [lia | ]. simpl. apply drop_app_length.
  - apply bind_elim. intros a s1 E. cbv [delay] in E. injection E as <- <-.
    intros Hres. destruct (IH _ Hres) as (k & Hk & Hev).
    exists (S k). split; [lia | ].
    match type of Hev with events ?m ?s2 = _ =>
      pose proof (trace_events readonly m s2 ltac:(obey)) as Htr
    end.
    unfold run in Htr. rewrite Htr, Hev. simpl.
    rewrite <- List.app_assoc. rewrite drop_app_length. reflexivity.
Qed.

(** C10: when [verifyLastWrite] opens the file and finds it shorter than
    ten bytes, it returns false and leaves the globals (the count, the
    storage flag) and the card as they were; it only closes the file: no
    counting pass, no shutdown of the card. *)
Theorem verifyLastWrite_too_small hw s content :
  sdAvailable (vars s) = true ->
  result (open_retry hw 5) s = Some content ->
  u32 (Z.of_nat (String.length content)) < 10 ->
  result (verifyLastWrite hw) s = false
  /\ vars (run (verifyLastWrite hw) s) = vars s
  /\ card (run (verifyLastWrite hw) s) = card s
  /\ exists k, (k < 5)%nat
     /\ events (verifyLastWrite hw) s
        = repeat (SdOpen data_csv FILE_READ false) k
          ++ [SdOpen data_csv FILE_READ true; FileClose data_csv].
Proof.
  intros Hsd Hopen Hsize.
  destruct (open_retry_events hw 5 s content Hopen) as (k & Hk & Hev).
  pose proof (trace_events readonly (open_retry hw 5) s ltac:(obey)) as Htr.
  rewrite Hev in Htr.
  pose proof (open_retry_within hw readonly 5 s) as W.
  revert Hopen Htr W.
  focus (verifyLastWrite hw). unfold verifyLastWrite.
  fwd_prim. rewrite Hsd. cbn [negb].
  apply bind_elim. intros f s1 E. rewrite E. cbn [fst snd]. intros -> Htr W.
  do 2 fwd_prim.
  apply Z.ltb_lt in Hsize. rewrite Hsize. cbn.
  destruct W as (_ & Hv & Hc & _). simpl in Hv, Hc.
  repeat split; auto.
  exists k. split; [exact Hk | ].
  rewrite Htr. rewrite <- !List.app_assoc. rewrite drop_app_length. reflexivity.
Qed.

Lemma verifyLastWrite_counts hw s content :
  sdAvailable (vars s) = true ->
  result (open_retry hw 5) s = Some content ->
  10 <= u32 (Z.of_nat (String.length content)) ->
  let observed := result (countLogEntries hw) (counting_state hw s) in
  logCount (vars (run (verifyLastWrite hw) s)) = observed
  /\ result (verifyLastWrite hw) s = (observed >=? logCount (vars s)).
Proof.
  intros Hsd Hopen Hsize.
  pose proof (open_retry_within hw readonly 5 s) as W.
  unfold counting_state. revert Hopen W.
  focus (verifyLastWrite hw). unfold verifyLastWrite.
  fwd_prim. rewrite Hsd. cbn [negb].
  apply bind_elim. intros f s1 E. rewrite E. cbn [fst snd]. intros -> W.
  do 2 fwd_prim.
  replace (_ <? 10) with false by (symmetry; apply Z.ltb_ge; exact Hsize).
  destruct W as (_ & Hv & _). simpl in Hv.
  apply bind_elim. intros actual s2 E2.
  cbv [File_close emit delay run]. cbn [fst snd now_ms with_trace]. rewrite E2. cbn [fst snd].
  pose proof (within_run readonly _ _ _ _ (countLogEntries_within hw readonly) E2)
    as (_ & Hv2 & _).
  simpl in Hv2.
  fwd_prim. rewrite <- Hv2, <- Hv.
  destruct (actual >=? logCount (vars s)); simpl; auto.
Qed.

Lemma no_sets_quiet evs :
  Forall tidy evs -> existsb is_set evs = false ->
  Forall (fun e => is_count e = false) evs.
Proof.
  induction 1 as [ | e l He _ IH]; simpl; intros Hs; constructor.
  - destruct e; simpl in *; try reflexivity; [contradiction | discriminate].
  - apply IH. apply orb_false_iff in Hs. tauto.
Qed.

(** An append that does not go through a re-creation of the file adds one
    to the count. *)
Lemma logData_commit_increments hw s :
  existsb is_incr (events (logData hw) s) = true ->
  existsb is_set (events (logData hw) s) = false ->
  logCount (vars (run (logData hw) s)) = u32 (logCount (vars s) + 1).
Proof.
  intros Hi Hs.
  destruct (logData_shape hw s) as (_ & Hlc & [Hc | Ht]).
  2: { rewrite (tidy_no_incr _ Ht) in Hi. discriminate. }
  destruct Hc as (pre & row & n & Hev & _ & Hpre).
  rewrite Hlc, Hev, replay_app. rewrite Hev, existsb_app in Hs.
  apply orb_false_iff in Hs. destruct Hs as [Hs _].
  rewrite (replay_quiet pre) by (apply no_sets_quiet; assumption).
  reflexivity.
Qed.

(** C5: once [verifyLastWrite] has opened a file of ten bytes or more, its
    counting pass decides: [logCount] becomes the observed count, and the
    result is false exactly when that count is below the tracked one.  An
    append that follows (without re-creating the file) counts one more. *)
Theorem verifyLastWrite_resync hw s content :
  sdAvailable (vars s) = true ->
  result (open_retry hw 5) s = Some content ->
  10 <= u32 (Z.of_nat (String.length content)) ->
  let observed := result (countLogEntries hw) (counting_state hw s) in
  let s' := run (verifyLastWrite hw) s in
  logCount (vars s') = observed
  /\ (observed < logCount (vars s) -> result (verifyLastWrite hw) s = false)
  /\ (logCount (vars s) <= observed -> result (verifyLastWrite hw) s = true)
  /\ (existsb is_incr (events (logData hw) s') = true ->
      existsb is_set (events (logData hw) s') = false ->
      logCount (vars (run (logData hw) s')) = u32 (observed + 1)).
Proof.
  intros Hsd Hopen Hsize. cbv zeta.
  destruct (verifyLastWrite_counts hw s content Hsd Hopen Hsize) as (Hlc & Hr).
  split; [exact Hlc | ]. rewrite Hr. repeat split.
  - intros H. rewrite Z.geb_leb. apply Z.leb_gt. exact H.
  - intros H. rewrite Z.geb_leb. apply Z.leb_le. exact H.
  - intros Hi Hs. rewrite <- Hlc. apply logData_commit_increments; assumption.
Qed.

(** Five rows on the card and six counted: the count becomes five, the
    verification reports a mismatch, the next append counts six. *)
Lemma verifyLastWrite_resync_witness :
  let hw := Bench.healthy in
  let s := Scenario.miscounted in
  let s' := run (verifyLastWrite hw) s in
  logCount (vars s) = 6
  /\ result (countLogEntries hw) (counting_state hw s) = 5
  /\ logCount (vars s') = 5
  /\ result (verifyLastWrite hw) s = false
  /\ logCount (vars (run (logData hw) s')) = 6.
Proof.
  cbv zeta.
  assert (H1 : sdAvailable (vars Scenario.miscounted) = true) by reflexivity.
  assert (H2 : result (open_retry Bench.healthy 5) Scenario.miscounted
               = Some Scenario.five_rows) by (vm_compute; reflexivity).
  assert (H3 : 10 <= u32 (Z.of_nat (String.length Scenario.five_rows)))
    by (vm_compute; discriminate).
  assert (H5 : result (countLogEntries Bench.healthy)
                 (counting_state Bench.healthy Scenario.miscounted) = 5)
    by (vm_compute; reflexivity).
  destruct (verifyLastWrite_resync Bench.healthy Scenario.miscounted
              Scenario.five_rows H1 H2 H3) as (A & B & _ & D).
  rewrite H5 in A, B, D.
  split; [reflexivity | ]. split; [exact H5 | ]. split; [exact A | ].
  split; [apply B; vm_compute; reflexivity | ].
  apply D; vm_compute; reflexivity.
Defined.

(** A file of three bytes: the verification fails and nothing changes. *)
Lemma verifyLastWrite_too_small_witness :
  let hw := Bench.healthy in
  let s := Scenario.stub_file in
  result (verifyLastWrite hw) s = false
  /\ vars (run (verifyLastWrite hw) s) = vars s
  /\ card (run (verifyLastWrite hw) s) = card s
  /\ exists k, (k < 5)%nat
     /\ events (verifyLastWrite hw) s
        = repeat (SdOpen data_csv FILE_READ false) k
          ++ [SdOpen data_csv FILE_READ true; FileClose data_csv].
Proof.
  apply (verifyLastWrite_too_small Bench.healthy Scenario.stub_file "abc").
  - reflexivity.
  - vm_compute. reflexivity.
  - vm_compute. reflexivity.
Defined.

(** * Re-creation of a missing file *)


(** *** What the file operations do, in one equation each *)

Section Io.
Variable hw : Platform.

Lemma SD_exists_run p s :
  SD_exists hw p s
  = let found := sd_lookup_ok hw (calls s) && present (card s) p in
    (found,
     mkState (vars s) (card s) (now_ms s) (S (calls s))
       (trace s ++ [SdExists p found])).
Proof. reflexivity. Qed.

Lemma SD_open_read_run p s :
  SD_open_read hw p s
  = let f := if sd_open_ok hw (calls s) then card s !! p else None in
    (f,
     mkState (vars s) (card s) (now_ms s) (S (calls s))
       (trace s ++ [SdOpen p FILE_READ (opened f)])).
Proof. reflexivity. Qed.

Lemma SD_open_write_run p s :
  SD_open_write hw p s
  = let ok := sd_open_ok hw (calls s) in
    (ok,
     mkState (vars s)
       (if ok && negb (present (card s) p) then <[p := ""]> (card s)
        else card s)
       (now_ms s) (S (calls s)) (trace s ++ [SdOpen p FILE_WRITE ok])).
Proof.
  cbv [SD_open_write bind ask files emit ret when store]. simpl.
  destruct (sd_open_ok hw (calls s)), (present (card s) p); reflexivity.
Qed.

Lemma File_println_run p line s :
  File_println hw p line s
  = let chunk := substring 0 (sd_write_len hw (calls s)) (line +:+ crlf) in
    (Z.of_nat (String.length chunk),
     mkState (vars s) (alter (fun c => c +:+ chunk) p (card s)) (now_ms s)
       (S (calls s))
       (trace s ++ [FilePrintln p line (Z.of_nat (String.length chunk))])).
Proof. reflexivity. Qed.

Lemma SD_remove_run p s :
  SD_remove hw p s
  = let done := sd_remove_ok hw (calls s) && present (card s) p in
    (done,
     mkState (vars s) (if done then delete p (card s) else card s) (now_ms s)
       (S (calls s)) (trace s ++ [SdRemove p done])).
Proof.
  cbv [SD_remove bind ask files emit ret when store]. simpl.
  destruct (sd_remove_ok hw (calls s) && present (card s) p); reflexivity.
Qed.

Lemma SD_rename_run src dst s :
  SD_rename hw src dst s
  = let done := sd_rename_ok hw (calls s) && present (card s) src
                && negb (present (card s) dst) in
    (done,
     mkState (vars s)
       (if done then
          match card s !! src with
          | Some c => <[dst := c]> (delete src (card s))
          | None => card s
          end
        else card s)
       (now_ms s) (S (calls s)) (trace s ++ [SdRename src dst done])).
Proof.
  cbv [SD_rename bind ask files emit ret when store]. simpl.
  destruct (sd_rename_ok hw (calls s) && present (card s) src
            && negb (present (card s) dst)); reflexivity.
Qed.

Lemma write_header_run s :
  write_header hw s
  = let chunk := substring 0 (sd_write_len hw (calls s)) header_line in
    (Z.of_nat (String.length chunk),
     mkState (vars s) (alter (fun c => c +:+ chunk) data_csv (card s))
       (u32 (now_ms s + 50)) (S (calls s))
       (trace s ++ [FilePrintln data_csv CSV_HEADER
                      (Z.of_nat (String.length chunk));
                    FileFlush data_csv; FileClose data_csv])).
Proof.
  cbv [write_header File_println File_flush File_close bind ask store emit
       delay ret]. simpl. rewrite <- !List.app_assoc. reflexivity.
Qed.

End Io.

#[global] Opaque header_line.

(** The next computation is a file operation. *)
Ltac fwd_io :=
  apply bind_elim;
  let a := fresh "a" in
  let s1 := fresh "s" in
  let E := fresh "E" in
  intros a s1 E;
  first [ rewrite SD_exists_run in E | rewrite SD_open_read_run in E
        | rewrite SD_open_write_run in E | rewrite File_println_run in E
        | rewrite SD_remove_run in E | rewrite SD_rename_run in E
        | rewrite write_header_run in E ];
  cbv zeta in E; injection E as <- <-.

Lemma substring_all n s : (String.length s <= n)%nat -> substring 0 n s = s.
Proof.
  revert n. induction s as [ | c s IH]; intros [ | n] H; simpl in *;
    try reflexivity; try lia.
  rewrite IH by lia. reflexivity.
Qed.

Lemma substring_prefix_length n s :
  substring 0 (String.length (substring 0 n s)) s = substring 0 n s.
Proof.
  revert n. induction s as [ | c s IH]; intros [ | n]; simpl; try reflexivity.
  rewrite IH. reflexivity.
Qed.

Lemma logData_recreate_ok hw s :
  result (logData_recreate hw) s = true ->
  let s' := run (logData_recreate hw) s in
  logCount (vars s') = 0
  /\ exists written,
      events (logData_recreate hw) s
      = [SdOpen data_csv FILE_WRITE true;
         FilePrintln data_csv CSV_HEADER written; FileFlush data_csv;
         FileClose data_csv; SdExists data_csv true; CountSet 0]
      /\ (card s !! data_csv = None ->
          card s' !! data_csv
          = Some (substring 0 (Z.to_nat written) header_line))
      /\ ((forall n, (String.length header_line <= sd_write_len hw n)%nat) ->
          written = Z.of_nat (String.length header_line)).
Proof.
  focus (logData_recreate hw). unfold logData_recreate.
  fwd_io. destruct (sd_open_ok hw (calls s)) eqn:Hopen; cbn [negb andb].
  2: { fwd_prim. cbn. discriminate. }
  fwd_io. fwd_prim. fwd_io. cbn [calls card].
  match goal with |- context [if ?b then _ else _] => destruct b eqn:Hex end.
  2: { fwd_prim. cbn. discriminate. }
  cbv [logCount_set bind assign emit ret]. cbn. intros _.
  split; [reflexivity | ]. eexists. split; [ | split].
  - rewrite <- !List.app_assoc. rewrite drop_app_length. reflexivity.
  - intros Hnone. unfold present. rewrite Hnone. cbn.
    rewrite lookup_alter, decide_True by reflexivity. rewrite lookup_insert_eq. cbn.
    rewrite Nat2Z.id, substring_prefix_length. reflexivity.
  - intros Hlen. rewrite substring_all by apply Hlen. reflexivity.
Qed.

Lemma replay_committed_zero evs : committed evs -> replay evs 0 = 1.
Proof.
  intros (pre & row & n & -> & _ & Hpre). rewrite replay_app.
  destruct (replay_tidy pre 0 Hpre) as [-> | ->]; reflexivity.
Qed.

Lemma logData_iteration_recreated hw s :
  sdAvailable (vars s) = true ->
  result (exists_retry hw 3 data_csv) s = false ->
  result (logData_recreate hw) (run (exists_retry hw 3 data_csv) s) = true ->
  logData_iteration hw s
  = logData_append hw
      (run (logData_recreate hw) (run (exists_retry hw 3 data_csv) s)).
Proof.
  intros Hsd. unfold logData_iteration, logData_write, result, run, bind, get.
  rewrite Hsd. cbn [negb].
  destruct (exists_retry hw 3 data_csv s) as [b s1]. cbn [fst snd].
  intros ->. cbn [negb].
  destruct (logData_recreate hw s1) as [c s2]. cbn [fst snd].
  intros ->. reflexivity.
Qed.


Lemma after_recreate_counts hw s :
  logCount (vars s) = 0 ->
  existsb is_incr (events (after_recreate hw) s) = true ->
  logCount (vars (run (after_recreate hw) s)) = 1.
Proof.
  intros Hz Hi.
  assert (Ht : obeys tracks (after_recreate hw)).
  { unfold after_recreate. obey. }
  destruct (Ht s) as (evs & Htr & Hlc).
  rewrite (events_intro _ _ _ Htr) in Hi. rewrite Hlc, Hz.
  apply replay_committed_zero.
  assert (Hs : committed evs \/ Forall tidy evs).
  { revert Htr. unfold run. pattern (after_recreate hw s).
    unfold after_recreate. apply bind_elim. intros flow s1 E.
    pose proof (logData_append_ends hw s) as (e1 & Htr1 & H1).
    rewrite E in Htr1, H1. cbn [fst snd] in Htr1, H1.
    destruct flow.
    - cbn. intros Htr. rewrite Htr1 in Htr. apply app_inv_head in Htr.
      subst e1. destruct H1 as [[_ H] | [_ H]]; auto.
    - destruct H1 as [[Hf _] | [_ H1]]; [discriminate | ].
      destruct (logData_loop_ends hw 1 s1) as (e2 & Htr2 & H2).
      unfold run in Htr2. rewrite Htr2, Htr1, <- List.app_assoc.
      intros Htr. apply app_inv_head in Htr. subst evs.
      destruct H2 as [H2 | H2].
      + left. apply committed_after; assumption.
      + right. apply Forall_app. split; assumption. }
  destruct Hs as [Hs | Hs]; [exact Hs | ].
  rewrite (tidy_no_incr _ Hs) in Hi. discriminate.
Qed.



(** * Rotation of the log file *)


Lemma rotatedName_fresh ts : rotatedName ts <> data_csv.
Proof.
  unfold rotatedName, snprintf, data_csv.
  match goal with |- context ["/data_" +:+ ?x] => generalize x end.
  intros x. simpl. discriminate.
Qed.

Lemma bind_bind {A B C} (m : M A) (f : A -> M B) (g : B -> M C) s :
  bind (bind m f) g s = bind m (fun x => bind (f x) g) s.
Proof. unfold bind. destruct (m s) as [a s1]. reflexivity. Qed.

Lemma verify_created_true hw n s :
  result (verify_created hw n) s = true ->
  exists c, card s !! data_csv = Some c /\ c <> "".
Proof.
  revert s. induction n as [ | n IH]; intros s; [discriminate | ].
  unfold result. pattern (verify_created hw (S n) s). cbn [verify_created].
  fwd_io. match goal with |- context [if ?b then _ else _] => destruct b eqn:Hex end.
  - rewrite bind_bind. fwd_io.
    match goal with
    | |- context [match ?f with Some _ => _ | None => _ end] =>
        destruct f as [c | ] eqn:Hf
    end.
    + cbn [calls card] in Hf.
      destruct (sd_open_ok hw (S (calls s))); [ | discriminate].
      rewrite bind_bind. fwd_prim. fwd_prim.
      destruct (0 <? Z.of_nat (String.length c)) eqn:Hlen.
      * intros _. exists c. split; [exact Hf | ].
        intros ->. discriminate.
      * fwd_prim. intros H. 
        destruct (IH _ H) as (c' & Hc' & Hne). exists c'. split; assumption.
    + fwd_prim. intros H.
      destruct (IH _ H) as (c' & Hc' & Hne). exists c'. split; assumption.
  - fwd_prim. intros H.
    destruct (IH _ H) as (c' & Hc' & Hne). exists c'. split; assumption.
Qed.

Lemma rotate_archive_clears hw newName s :
  (forall n, sd_lookup_ok hw n = true) ->
  (forall n, sd_remove_ok hw n = true) ->
  newName <> data_csv ->
  card (run (rotate_archive hw newName) s) !! data_csv = None.
Proof.
  intros Hlook Hrem Hne.
  focus (rotate_archive hw newName). unfold rotate_archive.
  fwd_io. rewrite Hlook. cbn [andb]. unfold present at 1.
  destruct (card s !! data_csv) as [c | ] eqn:Hc; cbn [opened when].
  2: { cbn. exact Hc. }
  fwd_io. rewrite Hlook. cbn [andb calls card].
  apply bind_elim. intros a s1 E.
  assert (Hs1 : card s1 !! data_csv = Some c).
  { destruct (present (card s) newName); cbn [when] in E.
    - unfold bind in E. rewrite SD_remove_run in E. cbv zeta in E.
      cbv [delay] in E. injection E as _ <-. cbn.
      destruct (_ && _); [ | exact Hc].
      rewrite lookup_delete_ne by exact Hne. exact Hc.
    - cbv [ret] in E. injection E as _ <-. exact Hc. }
  clear E. fwd_io.
  match goal with |- context [if negb ?b then _ else _] => destruct b eqn:Hren end;
    cbn [negb].
  - cbv [delay]. cbn. rewrite Hs1.
    apply lookup_insert_None. split; [ | exact Hne].
    apply lookup_delete_eq.
  - fwd_io. cbv [delay]. cbn. rewrite Hrem. unfold present. rewrite Hs1. cbn.
    apply lookup_delete_eq.
Qed.

Lemma rotate_archive_quiet hw newName : obeys (within quiet) (rotate_archive hw newName).
Proof. obey. Qed.

Lemma header_line_length : (0 < String.length header_line)%nat.
Proof. apply Nat.ltb_lt. vm_compute. reflexivity. Qed.

(** A file that is there, opens and is not empty is verified at the
    first look. *)
Lemma verify_created_sees hw n s c :
  sd_lookup_ok hw (calls s) = true ->
  sd_open_ok hw (S (calls s)) = true ->
  card s !! data_csv = Some c ->
  (0 < String.length c)%nat ->
  result (verify_created hw (S n)) s = true.
Proof.
  intros Hlook Hopen Hc Hlen.
  unfold result. pattern (verify_created hw (S n) s). cbn [verify_created].
  fwd_io. rewrite Hlook. unfold present. rewrite Hc. cbn [opened andb].
  rewrite bind_bind. fwd_io. cbn [calls card]. rewrite Hopen, Hc.
  rewrite bind_bind. fwd_prim.
  replace (0 <? Z.of_nat (String.length c)) with true
    by (symmetry; apply Z.ltb_lt; lia).
  reflexivity.
Qed.

(** C2, as the code has it.  When [rotateLogFile] returns true,
    [logCount] is 0 and [/data.csv] exists and is not empty; when it
    returns false (storage cannot be brought up, the fresh file cannot be
    created or verified), [logCount] is what it was.  On a card whose
    directory lookups, removals and writes work, a true result leaves
    exactly the header line in [/data.csv]; and if files open too and
    storage is available or comes up, the result is true.  Nothing is
    asked of the rename: when it fails the old file is removed and the
    rotation completes all the same. *)
Theorem rotateLogFile_outcome hw s :
  let s' := run (rotateLogFile hw) s in
  (result (rotateLogFile hw) s = true ->
   logCount (vars s') = 0
   /\ exists c, card s' !! data_csv = Some c /\ c <> "")
  /\ (result (rotateLogFile hw) s = false ->
      logCount (vars s') = logCount (vars s))
  /\ ((forall n, sd_lookup_ok hw n = true) ->
      (forall n, sd_remove_ok hw n = true) ->
      (forall n, (String.length header_line <= sd_write_len hw n)%nat) ->
      (result (rotateLogFile hw) s = true ->
       card s' !! data_csv = Some header_line)
      /\ ((forall n, sd_open_ok hw n = true) ->
          sdAvailable (vars s) = true \/ result (reinitSD hw) s = true ->
          result (rotateLogFile hw) s = true)).
Proof.
  focus (rotateLogFile hw). unfold rotateLogFile.
  fwd_prim. fwd_frame quiet.
  assert (Hready : sdAvailable (vars s) = true \/ result (reinitSD hw) s = true
                   -> a = true).
  { destruct (sdAvailable (vars s)).
    - intros _. cbv [ret] in E. congruence.
    - intros [H | H]; [discriminate | ].
      unfold result in H. rewrite E in H. exact H. }
  clear E.
  destruct a; cbn [negb].
  2: { cbn. open_within. simpl in Hk.
       repeat split; intros; try discriminate; try congruence.
       all: apply Hready; assumption. }
  clear Hready.
  fwd_prim. cbn [fst].
  apply bind_elim. intros u s1 E.
  pose proof (within_run quiet _ _ _ _ (rotate_archive_quiet hw _) E) as W1.
  match type of E with rotate_archive hw ?n ?s0 = _ =>
    pose proof (rotate_archive_clears hw n s0) as Hclear
  end.
  unfold run in Hclear. rewrite E in Hclear. cbn [snd] in Hclear. clear E.
  fwd_io. destruct (sd_open_ok hw (calls s1)) eqn:Hopen; cbn [negb andb].
  2: { fwd_prim. cbn. merge. open_within. simpl in Hk.
       repeat split; intros; try discriminate; congruence. }
  fwd_io. fwd_prim.
  apply bind_elim. intros verified s2 E.
  pose proof (within_run readonly _ _ _ _ (verify_created_within hw readonly 3) E)
    as (_ & Hv & Hc & _).
  cbn in Hv, Hc.
  assert (Hver : verified = true -> exists c, card s2 !! data_csv = Some c /\ c <> "").
  { intros ->.
    match type of E with verify_created hw 3 ?s0 = _ =>
      destruct (verify_created_true hw 3 s0) as (c & Hcc & Hne)
    end.
    - unfold result. rewrite E. reflexivity.
    - exists c. split; [ | exact Hne]. cbn [card with_ms] in Hcc.
      rewrite Hc in Hcc. exact Hcc. }
  assert (Hfile : (forall n, sd_lookup_ok hw n = true) ->
                  (forall n, sd_remove_ok hw n = true) ->
                  (forall n, (String.length header_line <= sd_write_len hw n)%nat) ->
                  card s2 !! data_csv = Some header_line).
  { intros Hlook Hrem Hlen. rewrite <- Hc.
    rewrite substring_all by apply Hlen.
    unfold present. rewrite (Hclear Hlook Hrem (rotatedName_fresh _)). cbn.
    rewrite lookup_alter, decide_True by reflexivity.
    rewrite lookup_insert_eq. reflexivity. }
  assert (Hsees : (forall n, sd_lookup_ok hw n = true) ->
                  (forall n, sd_remove_ok hw n = true) ->
                  (forall n, (String.length header_line <= sd_write_len hw n)%nat) ->
                  (forall n, sd_open_ok hw n = true) ->
                  verified = true).
  { intros Hlook Hrem Hlen Hop.
    match type of E with verify_created hw 3 ?s0 = _ =>
      pose proof (verify_created_sees hw 2 s0 header_line (Hlook _) (Hop _)) as Hs
    end.
    unfold result in Hs. rewrite E in Hs. apply Hs.
    - cbn [card with_ms]. rewrite Hc. apply Hfile; assumption.
    - apply header_line_length. }
  clear E. destruct verified; cbn [negb].
  2: { fwd_prim. cbn. rewrite <- Hv. cbn. merge. open_within. simpl in Hk.
       repeat split; intros; try discriminate; try congruence.
       all: apply Hsees; assumption. }
  do 5 fwd_prim. cbn.
  split; [intros _; split; [reflexivity | apply Hver; reflexivity] | ].
  split; [discriminate | ].
  intros Hlook Hrem Hlen. split; [intros _; apply Hfile; assumption | reflexivity].
Qed.

(** C2 as stated fails.  Five rows are logged and counted.  The button is
    held for the long press, and the card stops opening files while it is
    held.  [rotateLogFile] is reached with storage marked available and
    a count of 5; it moves the old file away, cannot create the new one
    and returns false: there is no [/data.csv], and 5 rows stay
    counted. *)
Lemma rotateLogFile_fails_on_long_press :
  let hw := Press.long_pulled in
  let woken := enterLightSleep_asleep hw Press.five_logged in
  let shown :=
    run (measureDisplay hw) (run (wake_button_open Press.atof hw woken.1.1) woken.2) in
  let s := run (wake_button_hold hw) shown in
  let s' := run (rotateLogFile hw) s in
  (woken.1.2 = true /\ result (wake_button_hold hw) shown = true)
  /\ (sdAvailable (vars s) = true /\ logCount (vars s) = 5
      /\ card s !! data_csv = Some Scenario.five_rows)
  /\ result (rotateLogFile hw) s = false
  /\ logCount (vars s') = 5
  /\ card s' !! data_csv = None
  /\ card s' !! "/data_20241225_153000.csv" = Some Scenario.five_rows.
Proof. vm_compute. repeat split. Qed.

(** No rename succeeds on this card: the old file is removed, and the
    rotation completes with the header alone and a count of 0. *)
Lemma rotateLogFile_outcome_witness :
  let hw := Scenario.no_rename in
  let s := Scenario.miscounted in
  let s' := run (rotateLogFile hw) s in
  result (rotateLogFile hw) s = true
  /\ logCount (vars s') = 0
  /\ card s' !! data_csv = Some header_line
  /\ In (SdRename data_csv "/data_20241225_153000.csv" false)
       (events (rotateLogFile hw) s)
  /\ In (SdRemove data_csv true) (events (rotateLogFile hw) s).
Proof.
  cbv zeta.
  destruct (rotateLogFile_outcome Scenario.no_rename Scenario.miscounted)
    as (A & _ & C).
  destruct C as (Cfile & Cok); [reflexivity .. | | ].
  { intros n. apply Nat.leb_le. vm_compute. reflexivity. }
  assert (Hr : result (rotateLogFile Scenario.no_rename) Scenario.miscounted
               = true).
  { apply Cok; [reflexivity | left; reflexivity]. }
  split; [exact Hr | ]. split; [apply A, Hr | ]. split; [apply Cfile, Hr | ].
  split; vm_compute; tauto.
Defined.

(** * The rest of the sketch *)

(** ** More frames *)

Ltac lawful' :=
  split; simpl; unfold any, same_store; intros;
  repeat match goal with H : _ /\ _ |- _ => destruct H end;
  repeat split; try congruence.

#[export] Instance card_only_lawful : Lawful card_only.
Proof. lawful'. Qed.
#[export] Instance no_storage_lawful : Lawful no_storage.
Proof. lawful'. Qed.

#[export] Instance card_only_storage : StorageIO card_only.
Proof. intros e H; exact H. Qed.
#[export] Instance card_only_card : CardFree card_only. Proof. by_kind. Qed.
#[export] Instance card_only_time : TimeFree card_only. Proof. by_kind. Qed.

#[export] Instance no_storage_probe : ProbeIO no_storage. Proof. by_kind. Qed.
#[export] Instance no_storage_sht : ShtIO no_storage. Proof. by_kind. Qed.
#[export] Instance no_storage_ds : DsIO no_storage. Proof. by_kind. Qed.
#[export] Instance no_storage_clock : ClockIO no_storage. Proof. by_kind. Qed.
#[export] Instance no_storage_time : TimeFree no_storage. Proof. by_kind. Qed.
#[export] Instance no_storage_shtfree : ShtFree no_storage.
Proof. split; intros; simpl; unfold same_store; repeat split. Qed.

Lemma present_alter f p c : present (alter f p c) p = present c p.
Proof.
  unfold present. rewrite lookup_alter, decide_True by reflexivity.
  destruct (c !! p); reflexivity.
Qed.

Lemma present_created ok p c :
  ok = true ->
  present (if ok && negb (present c p) then <[p := ""]> c else c) p = true.
Proof.
  intros ->. cbn [andb]. destruct (present c p) eqn:H; cbn [negb]; [exact H | ].
  unfold present. rewrite lookup_insert_eq. reflexivity.
Qed.

Lemma u8_succ z : u8 (u8 z + 1) = u8 (z + 1).
Proof. unfold u8. apply Zplus_mod_idemp_l. Qed.

Ltac trace_tail :=
  cbn [trace with_trace with_vars with_ms with_calls with_card];
  repeat match goal with H : trace _ = _ |- _ => rewrite H end;
  cbn [trace with_trace with_vars with_ms with_calls with_card];
  rewrite <- ?List.app_assoc; cbn [app];
  eexists; reflexivity.

Ltac state :=
  unfold with_trace, with_ms, with_vars, with_calls, with_card;
  cbn [vars card now_ms calls trace fst snd].

Ltac finish :=
  unfold attempt_post; state;
  repeat match goal with H : _ = vars ?x |- _ => rewrite <- H; clear H end;
  state; cbn;
  repeat split; try trace_tail.

Lemma reinitSD_attempt_outcome hw k s :
  attempt_post k s (reinitSD_attempt hw k s).
Proof.
  unfold reinitSD_attempt.
  apply bind_elim. intros u s0 E.
  assert (Hs0 : s0 = with_ms (if 0 <? Z.of_nat k then u32 (now_ms s + 500) else now_ms s) s).
  { destruct (0 <? Z.of_nat k); cbv [when delay ret] in E; injection E as _ <-;
      [reflexivity | destruct s; reflexivity]. }
  clear E. subst s0.
  do 10 (fwd_prim; state).
  destruct (sd_begin_ok hw (calls s)) eqn:Hb; cbn [negb].
  2: { cbv [sdFail SD_end bind get assign emit ret]. finish. }
  do 2 fwd_prim. state.
  destruct (_ =? 0).
  { cbv [sdFail SD_end bind get assign emit ret]. finish. }
  fwd_frame card_only. clear E. open_within.
  destruct a; cbn [negb]; rewrite bind_bind.
  - fwd_io. state.
    match goal with
    | |- context [match ?f with Some _ => _ | None => _ end] =>
        destruct f as [c | ] eqn:Hf
    end.
    + rewrite bind_bind. fwd_prim. state.
      cbv [sdFail SD_end bind get assign emit ret]. finish.
      destruct (sd_open_ok hw (calls s0)); [ | discriminate].
      unfold present. rewrite Hf. reflexivity.
    + rewrite bind_bind. fwd_io. rewrite bind_bind. fwd_prim.
      rewrite bind_bind. fwd_io. state.
      destruct (sd_open_ok hw (S (S (calls s0)))) eqn:Ho; cbn [negb].
      * rewrite bind_bind. fwd_io. rewrite bind_bind. fwd_prim. state.
        cbv [sdFail SD_end bind get assign emit ret]. finish.
        rewrite present_alter. apply (present_created true). reflexivity.
      * cbv [sdFail SD_end bind get assign emit ret]. finish.
  - fwd_prim. state.
    destruct (sd_open_ok hw (calls s0)) eqn:Hroot; cbn [negb].
    2: { cbv [sdFail SD_end bind get assign emit ret]. finish. }
    rewrite bind_bind. fwd_prim. rewrite bind_bind. fwd_prim.
    rewrite bind_bind. fwd_io. state.
    destruct (sd_open_ok hw (S (calls s0))) eqn:Hof; cbn [negb].
    2: { cbv [sdFail SD_end bind get assign emit ret]. finish. }
    rewrite bind_bind. fwd_io. rewrite bind_bind. fwd_prim. state.
    apply bind_elim. intros verified s2 E.
    pose proof (within_run readonly _ _ _ _
                  (verify_created_within hw readonly 3) E)
      as ((evs2 & Htr2 & _) & Hv & Hc2 & _).
    cbn in Hv, Hc2, Htr2.
    match type of E with verify_created hw 3 ?s1 = _ =>
      pose proof (verify_created_true hw 3 s1) as Hver
    end.
    unfold result in Hver. rewrite E in Hver. cbn [fst card] in Hver.
    clear E. destruct verified; cbn [negb].
    + cbv [sdFail SD_end bind get assign emit ret]. finish.
      destruct (Hver eq_refl) as (c & Hcc & _).
      unfold present. rewrite <- Hc2, Hcc. reflexivity.
    + cbv [sdFail SD_end bind get assign emit ret]. finish.
Qed.

Lemma u8_add z n : u8 (u8 (z + 1) + n) = u8 (z + (1 + n)).
Proof. unfold u8. rewrite Zplus_mod_idemp_l. f_equal. lia. Qed.

Lemma reinitSD_loop_S hw n k :
  reinitSD_loop hw (S n) k
  = (ok <- reinitSD_attempt hw k;;
     if ok then ret true else reinitSD_loop hw n (S k)).
Proof. reflexivity. Qed.

Lemma reinitSD_loop_outcome hw n k s :
  retries_post (S n) s (reinitSD_loop hw (S n) k s).
Proof.
  revert k s. induction n as [ | n IH]; intros k s;
    rewrite reinitSD_loop_S; apply bind_elim; intros ok s1 E;
    pose proof (reinitSD_attempt_outcome hw k s) as H; rewrite E in H;
    destruct H as (_ & Hb & Hl & _ & H); cbn [fst snd] in *.
  - destruct ok; unfold retries_post; cbn; tauto.
  - destruct ok; [unfold retries_post; cbn; tauto | ].
    specialize (IH (S k) s1). unfold retries_post in *.
    destruct (reinitSD_loop hw (S n) (S k) s1) as [ok2 s2]. cbn [fst snd] in *.
    destruct IH as (Hb2 & Hl2 & IH), H as (Ha & Hi & Hf).
    split; [congruence | ]. split; [congruence | ].
    destruct ok2; [exact IH | ].
    destruct IH as (Ha2 & Hi2 & Hf2).
    split; [congruence | ]. split; [congruence | ].
    rewrite Hf2, Hf, u8_add. f_equal. lia.
Qed.

Lemma reinitSD_refused hw s : cooling s = true -> reinitSD hw s = (false, s).
Proof.
  unfold cooling. intros H. unfold reinitSD, bind, get, millis. rewrite H.
  reflexivity.
Qed.

(** X1: inside the cool-down [reinitSD] returns false at once and touches
    nothing; outside, it goes to the card, and its first act is to raise
    the chip select. *)
Theorem reinitSD_cools_down hw s :
  (cooling s = true -> reinitSD hw s = (false, s))
  /\ (cooling s = false ->
      exists evs, events (reinitSD hw) s = CsHigh :: evs).
Proof.
  split; [apply reinitSD_refused | ]. unfold cooling. intros H.
  - focus (reinitSD hw). unfold reinitSD. do 4 fwd_prim. rewrite H.
    assert (Hn : exists n, (if isBootPhase (vars s) then 3%nat else 1%nat) = S n)
      by (destruct (isBootPhase (vars s)); eexists; reflexivity).
    destruct Hn as (n & ->). rewrite reinitSD_loop_S.
    apply bind_elim. intros ok s1 E.
    pose proof (reinitSD_attempt_outcome hw 0 s) as Ha. rewrite E in Ha.
    destruct Ha as (_ & _ & _ & (evs & Htr) & _). cbn [snd] in Htr.
    destruct ok.
    + cbn. rewrite Htr. rewrite drop_app_length. eauto.
    + match goal with |- context [reinitSD_loop hw n 1 s1] =>
        pose proof (trace_events growing (reinitSD_loop hw n 1) s1 ltac:(obey)) as Htr2
      end.
      unfold run in Htr2. rewrite Htr2, Htr. 
      rewrite <- List.app_assoc, drop_app_length. cbn. eauto.
Qed.

(** X2: what [reinitSD] leaves behind: it never touches the count; on
    success storage is up with no failure counted, the logging interval
    and the file on the card; on failure the storage flag and the interval
    stay, and each attempt made (three at boot, one later, none inside the
    cool-down) counts one failure, modulo 256. *)
Theorem reinitSD_outcome hw s :
  let s' := run (reinitSD hw) s in
  logCount (vars s') = logCount (vars s)
  /\ isBootPhase (vars s') = isBootPhase (vars s)
  /\ if result (reinitSD hw) s then
       sdAvailable (vars s') = true /\ sdFailCount (vars s') = 0
       /\ interval (vars s') = INTERVAL_SD
       /\ present (card s') data_csv = true
     else
       sdAvailable (vars s') = sdAvailable (vars s)
       /\ interval (vars s') = interval (vars s)
       /\ sdFailCount (vars s')
          = if cooling s then sdFailCount (vars s)
            else u8 (sdFailCount (vars s)
                     + if isBootPhase (vars s) then 3 else 1).
Proof.
  destruct (cooling s) eqn:Hc.
  - unfold run, result. rewrite (reinitSD_refused hw s Hc).
    cbn. auto.
  - focus (reinitSD hw). unfold reinitSD. do 4 fwd_prim.
    unfold cooling in Hc. rewrite Hc.
    destruct (isBootPhase (vars s)) eqn:Hboot.
    + pose proof (reinitSD_loop_outcome hw 2 0 s) as (Hb & Hl & H).
      destruct (reinitSD_loop hw 3 0 s) as [ok s1]. cbn [fst snd] in *.
      rewrite Hboot in Hb. destruct ok; auto.
    + pose proof (reinitSD_loop_outcome hw 0 0 s) as (Hb & Hl & H).
      destruct (reinitSD_loop hw 1 0 s) as [ok s1]. cbn [fst snd] in *.
      rewrite Hboot in Hb. destruct ok; auto.
Qed.

(** X3: after the boot, a failed attempt keeps [reinitSD] away from the card
    for [SD_RETRY_INTERVAL]: a call that comes earlier returns false at
    once. *)
Theorem reinitSD_backs_off hw s s2 :
  isBootPhase (vars s) = false ->
  cooling s = false ->
  0 <= sdFailCount (vars s) < 255 ->
  result (reinitSD hw) s = false ->
  vars s2 = vars (run (reinitSD hw) s) ->
  u32 (now_ms s2 - now_ms s) < SD_RETRY_INTERVAL ->
  reinitSD hw s2 = (false, s2).
Proof.
  intros Hboot Hcool Hfc Hres Hvars Hsoon.
  apply reinitSD_refused. unfold cooling. rewrite Hvars.
  revert Hres. focus (reinitSD hw). unfold reinitSD. do 4 fwd_prim.
  unfold cooling in Hcool. rewrite Hcool, Hboot.
  rewrite reinitSD_loop_S. apply bind_elim. intros ok s1 E.
  pose proof (reinitSD_attempt_outcome hw 0 s) as H. rewrite E in H.
  destruct H as (Hl & Hb & _ & _ & H). cbn [fst snd] in *.
  destruct ok; [discriminate | ]. intros _. cbn.
  destruct H as (_ & _ & Hf). rewrite Hb, Hboot, Hl, Hf. cbn.
  unfold u8. rewrite Z.mod_small by lia.
  apply andb_true_iff. split; [apply Z.ltb_lt; lia | apply Z.ltb_lt; exact Hsoon].
Qed.

Lemma countLogEntries_result hw s :
  vars (run (countLogEntries hw) s) = vars s
  /\ card (run (countLogEntries hw) s) = card s
  /\ now_ms (run (countLogEntries hw) s) = now_ms s
  /\ (result (countLogEntries hw) s = 0
      \/ exists content,
           sdAvailable (vars s) = true
           /\ card s !! data_csv = Some content
           /\ result (countLogEntries hw) s = count_rows true 0 content).
Proof.
  focus (countLogEntries hw). unfold countLogEntries.
  fwd_prim. destruct (sdAvailable (vars s)) eqn:Hsd; cbn [negb]; [ | cbn; auto].
  fwd_io. state.
  destruct (sd_open_ok hw (calls s)); [ | cbn; auto].
  destruct (card s !! data_csv) as [content | ] eqn:Hc; [ | cbn; auto].
  fwd_prim. cbn. repeat split. right. exists content. auto.
Qed.


(** The card does not answer: the attempt at 100000 ms fails, and a call
    at 130000 ms is refused. *)
Lemma reinitSD_backs_off_witness :
  let s2 := with_ms 130000 (run (reinitSD Cases.dead) Cases.card_lost) in
  reinitSD Cases.dead s2 = (false, s2).
Proof.
  apply (reinitSD_backs_off Cases.dead Cases.card_lost).
  - reflexivity.
  - reflexivity.
  - cbn. lia.
  - vm_compute. reflexivity.
  - vm_compute. reflexivity.
  - vm_compute. reflexivity.
Defined.

(** ** The log store *)

Ltac io := fwd_io; state.
Ltac prim := fwd_prim; state.

Lemma storage_tidy evs :
  Forall (fun e => is_storage e = true) evs -> Forall tidy evs.
Proof.
  apply List.Forall_impl. intros e. destruct e; simpl; intros; congruence || exact I.
Qed.


Lemma logData_append_settles hw s :
  sdAvailable (vars s) = true -> commits_or_fails s (logData_append hw s).
Proof.
  intros Hsd. unfold logData_append.
  io. destruct (sd_open_ok hw (calls s)) eqn:Hopen; cbn [negb].
  2: { prim. unfold commits_or_fails. cbn. eexists. split; [reflexivity | ].
       right. repeat split. repeat constructor. }
  do 2 prim. io. do 4 prim.
  match goal with |- context [Z.of_nat ?n =? 0] =>
    destruct (Z.eqb_spec (Z.of_nat n) 0) as [Hz | Hz]
  end.
  - prim. unfold commits_or_fails. cbn. eexists. split.
    + rewrite <- !List.app_assoc. reflexivity.
    + right. repeat split. repeat constructor.
  - cbv [logCount_incr bind get assign emit ret]. state.
    unfold commits_or_fails. cbn.
    eexists. split.
    + rewrite <- !List.app_assoc. reflexivity.
    + left. split; [reflexivity | ]. split; [ | exact Hsd].
      eexists [_; _], _, _. split; [reflexivity | ].
      split; [lia | repeat constructor].
Qed.

Lemma commits_or_fails_after s s1 pre (p : Flow * State) :
  trace s1 = trace s ++ pre -> Forall tidy pre ->
  commits_or_fails s1 p -> commits_or_fails s p.
Proof.
  intros Htr Hpre (evs & Htr' & H). exists (pre ++ evs).
  rewrite Htr', Htr, List.app_assoc. split; [reflexivity | ].
  destruct H as [(Hf & Hc & Hsd) | (Hf & Ht & Hsd)].
  - left. repeat split; auto. apply committed_after; assumption.
  - right. repeat split; auto. apply Forall_app. auto.
Qed.

Lemma logData_write_settles hw s :
  sdAvailable (vars s) = true -> commits_or_fails s (logData_write hw s).
Proof.
  intros Hsd. unfold logData_write.
  fwd_frame card_only. clear E. open_within. apply storage_tidy in Hev.
  rewrite Hk in Hsd. clear Hk Hc Ht.
  destruct a; cbn [negb].
  - cbn [bind ret].
    apply (commits_or_fails_after s s0 evs _ Htr Hev).
    apply logData_append_settles, Hsd.
  - unfold logData_recreate. rewrite !bind_bind.
    io. destruct (sd_open_ok hw (calls s0)) eqn:Hopen; cbn [negb].
    2: { rewrite bind_bind. prim. cbn. eexists.
         split; [cbn; rewrite Htr, <- List.app_assoc; reflexivity | ].
         right. repeat split. apply Forall_app. split; [exact Hev | repeat constructor]. }
    rewrite bind_bind. io. rewrite bind_bind. prim. rewrite bind_bind. io.
    match goal with |- context [if ?b then _ else _] => destruct b eqn:Hex end.
    2: { rewrite bind_bind. prim. cbn. eexists.
         split; [cbn; rewrite Htr, <- !List.app_assoc; reflexivity | ].
         right. repeat split. apply Forall_app. split; [exact Hev | repeat constructor]. }
    cbv [logCount_set]. rewrite !bind_bind. do 2 prim. cbn [negb ret bind].
    eapply commits_or_fails_after; [ | | apply logData_append_settles; exact Hsd].
    + cbn [trace]. rewrite Htr, <- !List.app_assoc. reflexivity.
    + apply Forall_app. split; [exact Hev | repeat constructor].
Qed.

Lemma logData_iteration_settles hw s : settles s (logData_iteration hw s).
Proof.
  unfold logData_iteration.
  prim. destruct (sdAvailable (vars s)) eqn:Hsd; cbn [negb].
  - destruct (logData_write_settles hw s Hsd) as (evs & Htr & H).
    exists evs. split; [exact Htr | tauto].
  - prim. destruct (_ <? _).
    + apply bind_elim. intros ok s1 E.
      assert (W : within resetting s s1) by (eapply within_run; [ | exact E]; obey).
      assert (Hflag : sdAvailable (vars s1) = ok).
      { revert E. unfold reinitSD. cbv [bind get millis].
        destruct (_ && _).
        - intros E. injection E as <- <-. exact Hsd.
        - destruct (isBootPhase (vars s)).
          + pose proof (reinitSD_loop_outcome hw 2 0 s) as (_ & _ & H).
            intros E. rewrite E in H. cbn [fst snd] in H.
            destruct ok; [tauto | destruct H as (-> & _); exact Hsd].
          + pose proof (reinitSD_loop_outcome hw 0 0 s) as (_ & _ & H).
            intros E. rewrite E in H. cbn [fst snd] in H.
            destruct ok; [tauto | destruct H as (-> & _); exact Hsd]. }
      clear E. open_within. destruct ok; cbn [negb].
      * destruct (commits_or_fails_after s s1 evs _ Htr Hev
                    (logData_write_settles hw s1 Hflag)) as (e & He & H).
        exists e. split; [exact He | tauto].
      * cbn. exists evs. split; [exact Htr | ]. right. right. auto.
    + prim. cbn. exists []. rewrite app_nil_r. split; [reflexivity | ].
      right. left. repeat split. exact Hsd.
Qed.

Lemma logData_loop_settles hw n s :
  let s' := run (logData_loop hw n) s in
  exists evs,
    trace s' = trace s ++ evs
    /\ ((committed evs /\ sdAvailable (vars s') = true)
        \/ (Forall tidy evs
            /\ (sdAvailable (vars s') = false \/ n = 0%nat)
            /\ interval (vars s') = INTERVAL_NO_SD)).
Proof.
  revert s. induction n as [ | n IH]; intros s.
  - exists []. cbn. rewrite app_nil_r. split; [reflexivity | ].
    right. repeat split; auto.
  - cbv zeta. unfold run. pattern (logData_loop hw (S n) s). cbn [logData_loop].
    apply bind_elim. intros flow s1 E.
    pose proof (logData_iteration_settles hw s) as (evs & Htr & H).
    rewrite E in Htr, H. cbn [fst snd] in Htr, H.
    destruct flow.
    + cbn. exists evs. split; [exact Htr | ].
      destruct H as [(_ & Hc & Hsd) | [(_ & -> & Hsd & Hi) | (Hf & _)]];
        [left; auto | right; repeat split; auto | discriminate].
    + destruct H as [(Hf & _) | [(Hf & _) | (_ & Ht & Hsd)]]; try discriminate.
      destruct (IH s1) as (evs' & Htr' & H'). unfold run in Htr', H'.
      exists (evs ++ evs'). rewrite Htr', Htr, List.app_assoc.
      split; [reflexivity | ].
      destruct H' as [(Hc & Hs) | (Ht' & Hs & Hi)].
      * left. split; [apply committed_after; assumption | exact Hs].
      * right. split; [apply Forall_app; auto | ]. split; [ | exact Hi].
        destruct Hs as [Hs | ->]; [left; exact Hs | ]. left.
        cbn. exact Hsd.
Qed.

(** X5: [logData] leaves storage marked available exactly when it has
    committed a row; when it has not, the interval has fallen back to
    [INTERVAL_NO_SD]. *)
Theorem logData_outcome hw s :
  let evs := events (logData hw) s in
  let s' := run (logData hw) s in
  sdAvailable (vars s') = existsb is_incr evs
  /\ (existsb is_incr evs = false -> interval (vars s') = INTERVAL_NO_SD).
Proof.
  cbv zeta.
  destruct (logData_loop_settles hw MAX_LOG_RETRIES s) as (evs & Htr & H).
  fold (logData hw) in Htr, H. rewrite (events_intro _ _ _ Htr).
  destruct H as [(Hc & Hsd) | (Ht & [Hsd | Hn] & Hi)]; [ | | discriminate].
  - rewrite (committed_incr _ Hc). split; [exact Hsd | discriminate].
  - rewrite (tidy_no_incr _ Ht). split; [exact Hsd | intros _; exact Hi].
Qed.

(** X6: once [SD_MAX_RETRIES] failures are counted and storage is down,
    [logData] does not go to the card any more: it only sets the interval
    to [INTERVAL_NO_SD]. *)
Theorem logData_gives_up hw s :
  sdAvailable (vars s) = false ->
  SD_MAX_RETRIES <= sdFailCount (vars s) ->
  logData hw s = (tt, with_vars (set_interval INTERVAL_NO_SD (vars s)) s).
Proof.
  intros Hsd Hfc. unfold logData, MAX_LOG_RETRIES. cbn [logData_loop].
  unfold logData_iteration, bind, get. rewrite Hsd. cbn [negb].
  replace (_ <? _) with false by (symmetry; apply Z.ltb_ge; exact Hfc).
  reflexivity.
Qed.

Lemma open_retry_none hw n s :
  result (open_retry hw n) s = None ->
  events (open_retry hw n) s = repeat (SdOpen data_csv FILE_READ false) n.
Proof.
  revert s. induction n as [ | n IH]; intros s.
  - intros _. unfold events. cbn. rewrite drop_all. reflexivity.
  - unfold result, events, run. pattern (open_retry hw (S n) s).
    cbn [open_retry].
    apply bind_elim. intros f s1 E.
    cbv [SD_open_read bind ask files emit ret] in E. injection E as <- <-.
    destruct (if sd_open_ok hw (calls s) then card s !! data_csv else None) eqn:Ef.
    + discriminate.
    + apply bind_elim. intros a s1 E. cbv [delay] in E. injection E as <- <-.
      intros Hres. pose proof (IH _ Hres) as Hev.
      match type of Hev with events ?m ?s2 = _ =>
        pose proof (trace_events readonly m s2 ltac:(obey)) as Htr
      end.
      unfold run in Htr. rewrite Htr, Hev. simpl.
      rewrite <- List.app_assoc. rewrite drop_app_length. reflexivity.
Qed.

(** X7: when none of the five attempts of [verifyLastWrite] opens the
    file, the card is shut down (SD.end, chip select high, SPI.end),
    storage is marked unavailable and the result is false; the count and
    the files stay as they are.  With storage already marked unavailable
    nothing happens at all. *)
Theorem verifyLastWrite_gives_up hw s :
  (sdAvailable (vars s) = false -> verifyLastWrite hw s = (false, s))
  /\ (sdAvailable (vars s) = true ->
      result (open_retry hw 5) s = None ->
      let s' := run (verifyLastWrite hw) s in
      result (verifyLastWrite hw) s = false
      /\ vars s' = set_sdAvailable false (vars s)
      /\ card s' = card s
      /\ events (verifyLastWrite hw) s
         = repeat (SdOpen data_csv FILE_READ false) 5
           ++ [SdEnd; CsHigh; SpiEnd]).
Proof.
  split.
  - intros Hsd. unfold verifyLastWrite, bind, get. rewrite Hsd. reflexivity.
  - intros Hsd Hopen.
    pose proof (open_retry_none hw 5 s Hopen) as Hev.
    pose proof (trace_events readonly (open_retry hw 5) s ltac:(obey)) as Htr.
    rewrite Hev in Htr.
    pose proof (open_retry_within hw readonly 5 s) as W.
    revert Hopen Htr W.
    focus (verifyLastWrite hw). unfold verifyLastWrite.
    fwd_prim. rewrite Hsd. cbn [negb].
    apply bind_elim. intros f s1 E. rewrite E. cbn [fst snd]. intros -> Htr W.
    cbv [forceEndSD SD_end cs_high SPI_end bind emit delay assign ret]. state.
    destruct W as (_ & Hv & Hc & _). simpl in Hv, Hc.
    rewrite <- Hv, <- Hc. repeat split.
    rewrite Htr. rewrite <- !List.app_assoc. rewrite drop_app_length. reflexivity.
Qed.

(** Five failures counted: [logData] makes no driver call. *)
Lemma logData_gives_up_witness :
  logData Bench.healthy More.given_up
  = (tt, with_vars (set_interval INTERVAL_NO_SD (vars More.given_up))
           More.given_up)
  /\ events (logData Bench.healthy) More.given_up = [].
Proof.
  split.
  - apply (logData_gives_up Bench.healthy More.given_up).
    + reflexivity.
    + vm_compute. discriminate.
  - vm_compute. reflexivity.
Defined.

(** The file does not open: six rows stay counted, storage is marked
    unavailable. *)
Lemma verifyLastWrite_gives_up_witness :
  let s' := run (verifyLastWrite More.no_open) Scenario.miscounted in
  result (verifyLastWrite More.no_open) Scenario.miscounted = false
  /\ sdAvailable (vars s') = false
  /\ logCount (vars s') = 6.
Proof.
  destruct (verifyLastWrite_gives_up More.no_open Scenario.miscounted)
    as (_ & H).
  destruct H as (Hr & Hv & _).
  - reflexivity.
  - vm_compute. reflexivity.
  - cbv zeta. rewrite Hv. split; [exact Hr | ]. split; reflexivity.
Defined.

(** ** Counting the rows *)

Lemma append_assoc (a b c : string) : (a +:+ b) +:+ c = a +:+ (b +:+ c).
Proof.
  induction a as [ | x a IH]; [reflexivity | ].
  change ((String x a +:+ b) +:+ c) with (String x ((a +:+ b) +:+ c)).
  rewrite IH. reflexivity.
Qed.

Lemma lacks_app c a b : lacks c (a +:+ b) = lacks c a && lacks c b.
Proof.
  induction a as [ | x a IH]; [reflexivity | ].
  change (String x a +:+ b) with (String x (a +:+ b)). cbn [lacks].
  rewrite IH. apply andb_assoc.
Qed.

Lemma lacks_substring c n m s :
  lacks c s = true -> lacks c (substring n m s) = true.
Proof.
  revert n m. induction s as [ | x s IH]; intros n m H.
  - destruct n, m; reflexivity.
  - cbn [lacks] in H. apply andb_true_iff in H. destruct H as [Hx Hs].
    destruct n as [ | n]; [destruct m as [ | m] | ]; cbn [substring lacks].
    + reflexivity.
    + rewrite Hx. apply IH, Hs.
    + apply IH, Hs.
Qed.

Lemma count_rows_app b k c d :
  count_rows b k (c +:+ d)
  = count_rows (b && lacks LF c) (count_rows b k c) d.
Proof.
  revert b k. induction c as [ | x c IH]; intros b k.
  - cbn. rewrite andb_true_r. reflexivity.
  - change (String x c +:+ d) with (String x (c +:+ d)). cbn [count_rows lacks].
    unfold LF at 1. destruct (Ascii.eqb x "010"); cbn [negb andb].
    + rewrite andb_false_r. destruct b; rewrite IH; reflexivity.
    + apply IH.
Qed.

Lemma count_rows_line k row :
  lacks LF row = true -> count_rows false k (row +:+ crlf) = u32 (k + 1).
Proof.
  intros H. rewrite count_rows_app. rewrite andb_false_l.
  assert (Hk : forall s, lacks LF s = true -> count_rows false k s = k).
  { induction s as [ | x s IH]; [reflexivity | ]. cbn [lacks count_rows].
    unfold LF at 1. destruct (Ascii.eqb x "010"); [discriminate | exact IH]. }
  rewrite (Hk _ H). reflexivity.
Qed.

Lemma count_rows_header hdr :
  lacks LF hdr = true -> count_rows true 0 (hdr +:+ crlf) = 0.
Proof.
  intros H. rewrite count_rows_app, H.
  assert (Hk : forall s, lacks LF s = true -> count_rows true 0 s = 0).
  { induction s as [ | x s IH]; [reflexivity | ]. cbn [lacks count_rows].
    unfold LF at 1. destruct (Ascii.eqb x "010"); [discriminate | exact IH]. }
  rewrite (Hk _ H). reflexivity.
Qed.

Lemma u32_succ z : u32 (u32 z + 1) = u32 (z + 1).
Proof. unfold u32. apply Zplus_mod_idemp_l. Qed.

Lemma count_rows_unlines k rows :
  Forall (fun r => lacks LF r = true) rows ->
  0 <= k < 2 ^ 32 ->
  count_rows false k (unlines rows) = u32 (k + Z.of_nat (length rows)).
Proof.
  intros H. revert k. induction H as [ | r rows Hr _ IH]; intros k Hk.
  - cbn. rewrite Z.add_0_r. symmetry. apply u32_small, Hk.
  - cbn [unlines]. rewrite <- append_assoc, count_rows_app. cbn [andb].
    rewrite (count_rows_line _ _ Hr), IH by apply u32_range.
    unfold u32. rewrite Zplus_mod_idemp_l. f_equal.
    cbn [length]. lia.
Qed.

(** X8: a file made of a header line and of rows, each ended by CR LF and
    none holding a line feed, counts as many entries as it has rows
    (modulo 2^32, the counter being a [uint32_t]); a last line that lacks
    its line feed is not counted. *)
Theorem count_rows_file hdr rows partial :
  lacks LF hdr = true ->
  Forall (fun r => lacks LF r = true) rows ->
  lacks LF partial = true ->
  count_rows true 0 (unlines (hdr :: rows) +:+ partial)
  = u32 (Z.of_nat (length rows)).
Proof.
  intros Hh Hr Hp. cbn [unlines].
  rewrite !append_assoc, <- (append_assoc hdr crlf), count_rows_app.
  rewrite lacks_app. replace (lacks LF crlf) with false by reflexivity.
  rewrite andb_false_r. cbn [andb].
  rewrite (count_rows_header _ Hh), count_rows_app.
  rewrite andb_false_l, count_rows_unlines by (assumption || (cbn; lia)).
  cbn [Z.add].
  assert (Hk : forall k s, lacks LF s = true -> count_rows false k s = k).
  { intros k s. induction s as [ | x s IH]; [reflexivity | ]. cbn [lacks count_rows].
    unfold LF at 1. destruct (Ascii.eqb x "010"); [discriminate | exact IH]. }
  apply Hk, Hp.
Qed.

(** ** The row of [logData] *)

Lemma lacks_uint c d :
  lacks c "0123456789" = true -> lacks c (NilEmpty.string_of_uint d) = true.
Proof.
  intros H. cbn [lacks] in H.
  repeat match type of H with
         | _ && _ = true => apply andb_true_iff in H; destruct H as [? H]
         end.
  induction d; cbn [NilEmpty.string_of_uint lacks]; try reflexivity;
    apply andb_true_iff; split; assumption.
Qed.

Lemma lacks_digits c d :
  lacks c "0123456789" = true -> lacks c (NilZero.string_of_uint d) = true.
Proof.
  intros H. destruct d; unfold NilZero.string_of_uint;
    try (apply lacks_uint; exact H).
  cbn [lacks] in *. apply andb_true_iff in H. destruct H as [-> _].
  reflexivity.
Qed.

Lemma lacks_one c x : negb (Ascii.eqb x c) = true -> lacks c (String x "") = true.
Proof. intros H. cbn [lacks]. rewrite H. reflexivity. Qed.

Lemma lacks_zeros c n : lacks c "0" = true -> lacks c (zeros n) = true.
Proof.
  intros H. induction n; [reflexivity | ]. cbn [zeros lacks] in *.
  apply andb_true_iff in H. destruct H as [H _]. rewrite H. exact IHn.
Qed.

Lemma lacks_sign c (b : bool) :
  lacks c "-" = true -> lacks c (if b then "-" else "") = true.
Proof. destruct b; auto. Qed.

Lemma lacks_decimal c z :
  lacks c "-0123456789" = true -> lacks c (decimal z) = true.
Proof.
  intros H. cbn [lacks] in H. apply andb_true_iff in H. destruct H as [Hm Hd].
  unfold decimal. rewrite lacks_app, lacks_digits by exact Hd.
  rewrite lacks_sign by (apply lacks_one, Hm). reflexivity.
Qed.

Lemma lacks_fmt_0d c w z :
  lacks c "-0123456789" = true -> lacks c (fmt_0d w z) = true.
Proof.
  intros H. cbn [lacks] in H. apply andb_true_iff in H. destruct H as [Hm Hd].
  unfold fmt_0d. rewrite !lacks_app, lacks_digits by exact Hd.
  rewrite lacks_sign by (apply lacks_one, Hm).
  rewrite lacks_zeros; [reflexivity | ].
  cbn [lacks] in *. apply andb_true_iff in Hd. destruct Hd as [-> _]. reflexivity.
Qed.

Lemma lacks_snprintf c n s : lacks c s = true -> lacks c (snprintf n s) = true.
Proof. apply lacks_substring. Qed.

(** The row has no [c], for a [c] that is none of its separators, when
    the formatted numbers have none. *)
Lemma lacks_formatRow hw c utcNow d :
  lacks c "-0123456789,:TZ " = true ->
  (forall n x, lacks c (libc_fixed hw n x) = true) ->
  lacks c (formatRow hw utcNow d) = true.
Proof.
  intros Hc Hf. cbn [lacks] in Hc.
  repeat match type of Hc with
         | _ && _ = true => apply andb_true_iff in Hc; destruct Hc as [? Hc]
         end.
  assert (Hn : lacks c "-0123456789" = true).
  { cbn [lacks]. repeat (apply andb_true_iff; split; [assumption | ]). reflexivity. }
  assert (Hs : forall x, In x [","; ":"; "T"; "Z"; " "; "-"; "000,"; ""] ->
               lacks c x = true).
  { intros x Hx. cbn [In] in Hx.
    repeat destruct Hx as [<- | Hx]; try contradiction; cbn [lacks];
      repeat (apply andb_true_iff; split; [assumption | ]); reflexivity. }
  unfold formatRow.
  repeat first
    [ apply lacks_snprintf
    | rewrite lacks_app; apply andb_true_iff; split
    | apply lacks_fmt_0d; exact Hn
    | apply lacks_decimal; exact Hn
    | apply Hf
    | apply Hs; cbn [In]; tauto
    | match goal with |- lacks _ (if ?b then _ else _) = true => destruct b end ].
Qed.

Lemma length_substring_le n s : (String.length (substring 0 n s) <= n)%nat.
Proof.
  revert n. induction s as [ | x s IH]; intros [ | n]; cbn; try lia.
  specialize (IH n). lia.
Qed.

Lemma length_append a b :
  String.length (a +:+ b) = (String.length a + String.length b)%nat.
Proof.
  induction a as [ | x a IH]; [reflexivity | ].
  change (String x a +:+ b) with (String x (a +:+ b)). cbn. rewrite IH. reflexivity.
Qed.

Lemma formatRow_length hw utcNow d :
  (String.length (formatRow hw utcNow d) <= 219)%nat.
Proof. unfold formatRow, snprintf at 1. apply length_substring_le. Qed.

(** X9: an append that goes through on a card that takes whole lines adds
    one line to a file whose header is complete, and one to what
    [countLogEntries] finds there: if the count agreed with the file
    before, it agrees after. *)
Theorem logData_append_counted hw s content :
  card s !! data_csv = Some content ->
  lacks LF content = false ->
  (forall n x, lacks LF (libc_fixed hw n x) = true) ->
  (forall n, (221 <= sd_write_len hw n)%nat) ->
  result (logData_append hw) s = Return ->
  let s' := run (logData_append hw) s in
  exists row,
    card s' !! data_csv = Some (content +:+ row +:+ crlf)
    /\ count_rows true 0 (content +:+ row +:+ crlf)
       = u32 (count_rows true 0 content + 1)
    /\ logCount (vars s') = u32 (logCount (vars s) + 1).
Proof.
  intros Hcard Hhdr Hfix Hlen.
  focus (logData_append hw). unfold logData_append.
  io. destruct (sd_open_ok hw (calls s)) eqn:Hopen; cbn [negb].
  2: { prim. cbn. discriminate. }
  do 2 prim. io. do 4 prim.
  match goal with |- context [Z.of_nat ?n =? 0] =>
    destruct (Z.eqb_spec (Z.of_nat n) 0) as [Hz | Hz]
  end.
  { prim. cbn. discriminate. }
  cbv [logCount_incr bind get assign emit ret]. state. cbn [fst snd].
  intros _. eexists. split; [ | split; [ | reflexivity]].
  - unfold present. rewrite Hcard. cbn [opened negb andb].
    rewrite lookup_alter, decide_True by reflexivity. rewrite Hcard. cbn.
    rewrite substring_all; [reflexivity | ].
    rewrite length_append.
    pose proof (formatRow_length hw (u32 (rtc_unixtime hw (S (calls s))))
                  (data (vars s))) as Hr.
    specialize (Hlen (S (S (calls s)))). change (String.length crlf) with 2%nat. lia.
  - rewrite count_rows_app, Hhdr. cbn [andb].
    apply count_rows_line. apply lacks_formatRow; [reflexivity | exact Hfix].
Qed.

Lemma lacks_bench_fixed c n x :
  lacks c "-0123456789.naif" = true -> lacks c (Bench.fixed n x) = true.
Proof.
  intros Hc. cbn [lacks] in Hc.
  repeat match type of Hc with
         | _ && _ = true => apply andb_true_iff in Hc; destruct Hc as [? Hc]
         end.
  assert (Hn : lacks c "-0123456789" = true).
  { cbn [lacks]. repeat (apply andb_true_iff; split; [assumption | ]). reflexivity. }
  assert (Hs : forall x, In x ["-"; "."; "nan"; "inf"; "-inf"; ""] ->
               lacks c x = true).
  { intros y Hy. cbn [In] in Hy.
    repeat destruct Hy as [<- | Hy]; try contradiction; cbn [lacks];
      repeat (apply andb_true_iff; split; [assumption | ]); reflexivity. }
  unfold Bench.fixed.
  destruct (Prim2SF x);
  repeat first
    [ rewrite lacks_app; apply andb_true_iff; split
    | apply lacks_fmt_0d; exact Hn
    | apply lacks_decimal; exact Hn
    | apply Hs; cbn [In]; tauto
    | match goal with |- lacks _ (if ?b then _ else _) = true => destruct b end ].
Qed.

(** A header, two rows and the start of a third: two entries. *)
Lemma count_rows_file_witness :
  count_rows true 0 (unlines [CSV_HEADER; "a,1"; "b,2"] +:+ "c,") = 2.
Proof.
  apply (count_rows_file CSV_HEADER ["a,1"; "b,2"] "c,").
  - reflexivity.
  - repeat constructor.
  - reflexivity.
Defined.

(** The first row on a fresh card: one entry in the file, one counted. *)
Lemma logData_append_counted_witness :
  let s := Bench.start Bench.booted Bench.fresh_card in
  let s' := run (logData_append Bench.healthy) s in
  exists row,
    card s' !! data_csv = Some (header_line +:+ row +:+ crlf)
    /\ count_rows true 0 (header_line +:+ row +:+ crlf) = 1
    /\ logCount (vars s') = 1.
Proof.
  apply (logData_append_counted Bench.healthy
           (Bench.start Bench.booted Bench.fresh_card) header_line).
  - vm_compute. reflexivity.
  - vm_compute. reflexivity.
  - intros n x. apply lacks_bench_fixed. reflexivity.
  - intros n. apply Nat.leb_le. vm_compute. reflexivity.
  - vm_compute. reflexivity.
Defined.

(** ** The acquisition *)

(** The re-probe of the SHT3x, as both measuring functions have it. *)
Lemma probe_block hw (b : bool) s :
  let p := when b (found <- sht31_probe hw;; assign (set_shtOK found)) s in
  exists ok evs n,
    p.2 = mkState (if b then set_shtOK ok (vars s) else vars s) (card s)
            (now_ms s) n (trace s ++ evs)
    /\ Forall (fun e => is_probe e = true) evs.
Proof.
  destruct b; cbn [when].
  - cbv [sht31_probe sht31_begin bind ask emit ret assign]. state.
    destruct (sht_begin_ok hw (calls s) 68); state; cbn [fst snd];
      rewrite <- ?List.app_assoc; do 3 eexists; (split; [reflexivity | ]);
      repeat constructor.
  - exists true, [], (calls s). cbn. rewrite app_nil_r. destruct s; split; [reflexivity | constructor].
Qed.

(** The reading of the SHT3x: a pair of numbers is stored and marked
    valid, or a NaN marks the sensor unhealthy. *)
Lemma read_sht_post hw s :
  let s' := run (read_sht hw) s in
  exists evs g n,
    s' = mkState g (card s) (now_ms s) n (trace s ++ evs)
    /\ Forall (fun e => is_sht e = true) evs
    /\ ((g = vars s /\ evs = [] /\ shtOK (vars s) = false)
        \/ (exists t h,
              g = set_data (set_shtValid true
                     (set_td (dewpoint hw t h)
                        (set_h h (set_t t (data (vars s)))))) (vars s)
              /\ shtOK (vars s) = true)
        \/ (g = set_shtOK false (vars s) /\ shtOK (vars s) = true)).
Proof.
  unfold run, read_sht. cbv [bind get]. 
  destruct (shtOK (vars s)) eqn:Hok; cbn [when].
  - cbv [sht31_readTemperature sht31_readHumidity bind ask emit ret get assign].
    state.
    match goal with |- context [if ?b then _ else _] => destruct b end;
      state; cbn [fst snd]; rewrite <- ?List.app_assoc; do 3 eexists;
      (split; [reflexivity | ]); (split; [repeat constructor | ]).
    + right. left. eauto.
    + right. right. auto.
  - cbn. exists [], (vars s), (calls s). rewrite app_nil_r. destruct s; cbn.
    split; [reflexivity | ]. split; [constructor | ]. left. auto.
Qed.

Lemma probe_sht evs :
  Forall (fun e => is_probe e = true) evs -> Forall (fun e => is_sht e = true) evs.
Proof. apply List.Forall_impl. intros e. destruct e; simpl; congruence. Qed.

Lemma measureAndLog_summary hw s : measured hw s (measureAndLog hw s).
Proof.
  unfold measureAndLog.
  do 6 (fwd_prim; state).
  apply bind_elim. intros u1 s1 E.
  match type of E with when ?b _ ?s0 = _ =>
    pose proof (probe_block hw b s0) as (ok & evs1 & n1 & Hs1 & Hev1)
  end.
  rewrite E in Hs1. cbn [snd vars card now_ms trace] in Hs1. subst s1. clear E.
  apply bind_elim. intros u2 s2 E.
  match type of E with _ ?s0 = _ =>
    pose proof (read_sht_post hw s0) as (evs2 & g2 & n2 & Hs2 & Hev2 & Hg2)
  end.
  unfold run in Hs2. rewrite E in Hs2. cbn [snd vars card now_ms trace] in Hs2, Hg2.
  subst s2. clear E.
  assert (Hg : sht_part (vars s) g2).
  { unfold sht_part.
    destruct (negb (shtOK (vars s)) && _);
      destruct Hg2 as [(-> & _ & Hok) | [(t & h & -> & Hok) | (-> & Hok)]];
      cbn in Hok |- *; repeat split; auto; discriminate. }
  clear Hg2. apply probe_sht in Hev1.
  assert (Hev : Forall (fun e => is_sht e = true) (evs1 ++ evs2))
    by (apply Forall_app; auto).
  rewrite <- List.app_assoc. clear Hev1 Hev2. revert Hev.
  generalize (evs1 ++ evs2). clear evs1 evs2. intros sht_evs Hev.
  destruct Hg as (Hg1 & Hg2 & Hg3 & Hg4 & Hg5 & Hw & Hv).
  fwd_prim. state. rewrite Hg5.
  apply bind_elim. intros u3 s3 E.
  assert (Hs3 : exists v n3 g3,
            s3 = mkState g3 (card s) (now_ms s) n3
                   (trace s ++ sht_evs
                    ++ (if ds18b20OK (vars s) then [DsRequest; DsRead v] else []))
            /\ acquired (vars s) v g3).
  { unfold acquired. destruct (ds18b20OK (vars s)) eqn:Hds; cbn [when] in E.
    - cbv [ds18b20_requestTemperatures ds18b20_getTempCByIndex0 bind ask emit
           ret] in E.
      unfold with_trace, with_calls in E. cbn [vars card now_ms calls trace] in E.
      match type of E with context [plausible ?x] =>
        exists x; destruct (plausible x)
      end;
        cbv [store_water bind get assign ret] in E;
        unfold with_vars in E; cbn [vars card now_ms calls trace] in E;
        injection E as <- <-;
        do 2 eexists; (split; [rewrite <- ?List.app_assoc; reflexivity | ]);
        cbn; repeat split; auto; try discriminate;
        try (rewrite Hw; discriminate).
    - injection E as <- <-. exists 0%float, n2. eexists.
      split; [rewrite app_nil_r; reflexivity | ].
      cbn. repeat split; auto; try discriminate;
        try (rewrite Hw; discriminate). }
  clear E. destruct Hs3 as (v & n3 & g3 & -> & Hacq).
  clear Hw Hv Hg1 Hg2 Hg3 Hg4 Hg5.
  fwd_prim. state.
  destruct Hacq as (Hrtc & Hsd & Hlc & Hiv & Hds & Hwv & Htw & Hsv).
  rewrite Hrtc.
  apply bind_elim. intros nowUnix s4 E.
  assert (Hs4 : exists n4,
            s4 = mkState g3 (card s) (now_ms s) n4
                   (trace s ++ sht_evs
                    ++ (if ds18b20OK (vars s) then [DsRequest; DsRead v] else [])
                    ++ (if rtcOK (vars s) then [RtcNow nowUnix] else []))
            /\ (rtcOK (vars s) = false -> nowUnix = 0)).
  { destruct (rtcOK (vars s)).
    - cbv [rtc_now_unixtime bind ask emit ret] in E. 
      unfold with_trace, with_calls in E. cbn [vars card now_ms calls trace] in E.
      injection E as <- <-. eexists.
      split; [rewrite <- ?List.app_assoc; reflexivity | discriminate].
    - injection E as <- <-. eexists. rewrite !app_nil_r. split; reflexivity. }
  clear E. destruct Hs4 as (n4 & -> & Hnow).
  do 3 (fwd_prim; state). rewrite Hsd.
  destruct (sdAvailable (vars s)) eqn:Hsd0; cbn [when].
  - fwd_frame storage_only. clear E. open_within.
    destruct Hk as (Hk1 & Hk2 & Hk3 & Hk4 & Hk5 & Hk6 & Hk7).
    fwd_prim; state. cbv [assign]. state. unfold measured. cbn [fst snd vars card trace].
    exists sht_evs, v, nowUnix, evs.
    cbn in Htr, Hk1, Hk2, Hk3, Hk5.
    cbn [isMeasuring set_isMeasuring set_lastMeasureUnix lastMeasureUnix
         ds18b20OK data shtOK rtcOK].
    rewrite Hk1, Hk2, Hk3, Hk5. cbn [waterTempValid tWater shtValid ts set_ts].
    split; [rewrite Htr, <- !List.app_assoc; reflexivity | ].
    split; [exact Hev | ]. split; [exact Hev0 | ].
    split; [intros Hf; rewrite Hsd0 in Hf; discriminate | ].
    repeat split; auto.
    destruct (rtcOK (vars s)); [reflexivity | apply Hnow; reflexivity].
  - cbn [bind ret]. cbv [assign]. state. unfold measured.
    cbn [fst snd vars card trace].
    exists sht_evs, v, nowUnix, [].
    cbn [isMeasuring set_isMeasuring set_lastMeasureUnix lastMeasureUnix
         ds18b20OK data shtOK rtcOK set_data logCount interval sdAvailable].
    cbn [waterTempValid tWater shtValid ts set_ts].
    rewrite !app_nil_r.
    split; [reflexivity | ].
    split; [exact Hev | ]. split; [constructor | ].
    repeat split; auto.
    destruct (rtcOK (vars s)); [reflexivity | apply Hnow; reflexivity].
Qed.

Lemma measureAndLog_events hw s sht_evs v u store_evs :
  trace (measureAndLog hw s).2
  = trace s ++ sht_evs
    ++ (if ds18b20OK (vars s) then [DsRequest; DsRead v] else [])
    ++ (if rtcOK (vars s) then [RtcNow u] else []) ++ store_evs ->
  events (measureAndLog hw) s
  = sht_evs ++ (if ds18b20OK (vars s) then [DsRequest; DsRead v] else [])
    ++ (if rtcOK (vars s) then [RtcNow u] else []) ++ store_evs.
Proof. intros H. unfold events, run. rewrite H. apply drop_app_length. Qed.

Lemma sht_not_ds evs :
  Forall (fun e => is_sht e = true) evs -> existsb is_ds evs = false.
Proof.
  intros H. apply existsb_forall_false. eapply List.Forall_impl; [ | exact H].
  intros e. destruct e; simpl; congruence.
Qed.

Lemma store_not_ds evs :
  Forall (fun e => is_storage e || is_count e || is_clock e = true) evs ->
  existsb is_ds evs = false.
Proof.
  intros H. apply existsb_forall_false. eapply List.Forall_impl; [ | exact H].
  intros e. destruct e; simpl; congruence.
Qed.

(** X10: [measureAndLog] and the DS18B20.  A healthy probe is asked once;
    its answer [v] is stored and marked valid when it is no sentinel, and
    otherwise the probe is marked unhealthy and the reading stays invalid.
    An unhealthy probe is not asked at all and stays unhealthy. *)
Theorem measureAndLog_water hw s :
  let s' := run (measureAndLog hw) s in
  let evs := events (measureAndLog hw) s in
  if ds18b20OK (vars s) then
    exists v, In (DsRead v) evs
      /\ ds18b20OK (vars s') = plausible v
      /\ waterTempValid (data (vars s')) = plausible v
      /\ (plausible v = true -> tWater (data (vars s')) = v)
  else
    ds18b20OK (vars s') = false
    /\ waterTempValid (data (vars s')) = false
    /\ existsb is_ds evs = false.
Proof.
  cbv zeta. unfold run.
  destruct (measureAndLog_summary hw s)
    as (sht_evs & v & u & store_evs & Htr & Hsht & Hst & _ & Hds & Hwv & Htw & _).
  rewrite (measureAndLog_events _ _ _ _ _ _ Htr).
  rewrite Hds, Hwv. destruct (ds18b20OK (vars s)); cbn [andb].
  - exists v. split; [ | split; [reflexivity | split; [reflexivity | ]]].
    + apply in_or_app. right. right. left. reflexivity.
    + intros Hp. apply Htw. rewrite Hwv. exact Hp.
  - split; [reflexivity | ]. split; [reflexivity | ].
    rewrite !existsb_app, (sht_not_ds _ Hsht), (store_not_ds _ Hst).
    destruct (rtcOK (vars s)); reflexivity.
Qed.

(** X11: after [measureAndLog] the measuring flag is down, and a reading
    marked valid comes from a sensor marked healthy. *)
Theorem measureAndLog_validity hw s :
  let s' := run (measureAndLog hw) s in
  isMeasuring (vars s') = false
  /\ (shtValid (data (vars s')) = true -> shtOK (vars s') = true)
  /\ (waterTempValid (data (vars s')) = true -> ds18b20OK (vars s') = true).
Proof.
  cbv zeta. unfold run.
  destruct (measureAndLog_summary hw s)
    as (sht_evs & v & u & store_evs & _ & _ & _ & _ & Hds & Hwv & _ & _ & _
        & Hm & Hsv & _).
  split; [exact Hm | ]. split; [exact Hsv | ].
  rewrite Hds, Hwv. auto.
Qed.

(** X12: the stamp of [measureAndLog].  With the clock available, the
    first reading of the clock in the run gives both the local time of the
    record and [lastMeasureUnix]; without, the record is stamped
    2023-01-01 00:00:00 and [lastMeasureUnix] becomes 0. *)
Theorem measureAndLog_stamp hw s :
  let s' := run (measureAndLog hw) s in
  let evs := events (measureAndLog hw) s in
  rtcOK (vars s') = rtcOK (vars s)
  /\ if rtcOK (vars s) then
       exists pre u post,
         evs = pre ++ RtcNow u :: post
         /\ existsb is_clock pre = false
         /\ ts (data (vars s')) = unixToLocal hw u
         /\ lastMeasureUnix (vars s') = u
     else
       ts (data (vars s')) = mkDateTime 2023 1 1 0 0 0
       /\ lastMeasureUnix (vars s') = 0.
Proof.
  cbv zeta. unfold run.
  destruct (measureAndLog_summary hw s)
    as (sht_evs & v & u & store_evs & Htr & Hsht & _ & _ & _ & _ & _ & Hts & Hl
        & _ & _ & Hrtc).
  rewrite (measureAndLog_events _ _ _ _ _ _ Htr).
  split; [exact Hrtc | ].
  rewrite Hts, Hl. destruct (rtcOK (vars s)); [ | auto].
  exists (sht_evs ++ if ds18b20OK (vars s) then [DsRequest; DsRead v] else []),
    u, store_evs.
  rewrite <- !List.app_assoc. split; [reflexivity | ].
  split; [ | auto]. rewrite existsb_app.
  replace (existsb is_clock sht_evs) with false.
  - destruct (ds18b20OK (vars s)); reflexivity.
  - symmetry. apply existsb_forall_false.
    eapply List.Forall_impl; [ | exact Hsht].
    intros e. destruct e; simpl; congruence.
Qed.

(** X13: with storage marked unavailable [measureAndLog] makes no call to
    the card and leaves the files, the count, the interval and the storage
    flag as they are. *)
Theorem measureAndLog_offline hw s :
  sdAvailable (vars s) = false ->
  let s' := run (measureAndLog hw) s in
  let evs := events (measureAndLog hw) s in
  card s' = card s
  /\ logCount (vars s') = logCount (vars s)
  /\ interval (vars s') = interval (vars s)
  /\ sdAvailable (vars s') = false
  /\ existsb is_storage evs = false
  /\ existsb is_count evs = false.
Proof.
  intros Hsd. cbv zeta. unfold run.
  destruct (measureAndLog_summary hw s)
    as (sht_evs & v & u & store_evs & Htr & Hsht & _ & Hoff & _).
  destruct (Hoff Hsd) as (-> & Hc & Hl & Hi & Hs).
  rewrite (measureAndLog_events _ _ _ _ _ _ Htr).
  repeat split; auto.
  - rewrite !existsb_app.
    replace (existsb is_storage sht_evs) with false.
    + destruct (ds18b20OK (vars s)), (rtcOK (vars s)); reflexivity.
    + symmetry. apply existsb_forall_false.
      eapply List.Forall_impl; [ | exact Hsht].
      intros e. destruct e; simpl; congruence.
  - rewrite !existsb_app.
    replace (existsb is_count sht_evs) with false.
    + destruct (ds18b20OK (vars s)), (rtcOK (vars s)); reflexivity.
    + symmetry. apply existsb_forall_false.
      eapply List.Forall_impl; [ | exact Hsht].
      intros e. destruct e; simpl; congruence.
Qed.

(** Storage is down: a measurement makes no call to the card. *)
Lemma measureAndLog_offline_witness :
  let s := More.given_up in
  let s' := run (measureAndLog Bench.healthy) s in
  card s' = card s
  /\ logCount (vars s') = logCount (vars s)
  /\ interval (vars s') = interval (vars s)
  /\ sdAvailable (vars s') = false
  /\ existsb is_storage (events (measureAndLog Bench.healthy) s) = false
  /\ existsb is_count (events (measureAndLog Bench.healthy) s) = false.
Proof.
  apply (measureAndLog_offline Bench.healthy More.given_up). reflexivity.
Defined.

#[export] Hint Extern 4 (keeps no_storage _ _) =>
  (simpl; unfold same_store; simpl; repeat split) : side.

Lemma measureDisplay_frame hw : obeys (within no_storage) (measureDisplay hw).
Proof. obey. Qed.

Lemma no_storage_events evs :
  Forall (fun e => is_storage e || is_count e = false) evs ->
  existsb is_storage evs = false /\ existsb is_count evs = false.
Proof.
  intros H. split; apply existsb_forall_false;
    (eapply List.Forall_impl; [ | exact H]); intros e He;
    apply orb_false_iff in He; tauto.
Qed.

(** X14: the button's measurement writes no CSV: [measureDisplay] makes no
    call to the card and leaves the files and the globals of the log store
    alone.  The water reading it leaves is never valid (the conversion is
    only started), a valid SHT3x reading comes from a healthy sensor, and
    the record is stamped with the local time of what the clock returns,
    the last driver call of the function. *)
Theorem measureDisplay_no_csv hw s :
  let s' := run (measureDisplay hw) s in
  let evs := events (measureDisplay hw) s in
  card s' = card s
  /\ same_store (vars s) (vars s')
  /\ existsb is_storage evs = false
  /\ existsb is_count evs = false
  /\ waterTempValid (data (vars s')) = false
  /\ (shtValid (data (vars s')) = true -> shtOK (vars s') = true)
  /\ exists pre u,
       evs = pre ++ [RtcNow u] /\ ts (data (vars s')) = unixToLocal hw u.
Proof.
  cbv zeta.
  destruct (measureDisplay_frame hw s) as ((evs & Htr & Hev) & Hk & Hc & _).
  cbn in Hk, Hc.
  rewrite (events_intro _ _ _ Htr).
  destruct (no_storage_events _ Hev) as (Hst & Hco).
  split; [symmetry; exact Hc | ]. split; [exact Hk | ].
  split; [exact Hst | ]. split; [exact Hco | ].
  clear Hk Hc Hst Hco Hev. revert Htr.
  focus (measureDisplay hw). unfold measureDisplay.
  do 2 (fwd_prim; state).
  apply bind_elim. intros u1 s1 E.
  match type of E with when ?b _ ?s0 = _ =>
    pose proof (probe_block hw b s0) as (ok & evs1 & n1 & Hs1 & Hev1)
  end.
  rewrite E in Hs1. cbn [snd vars card now_ms trace] in Hs1. subst s1. clear E.
  apply bind_elim. intros u2 s2 E.
  match type of E with _ ?s0 = _ =>
    pose proof (read_sht_post hw s0) as (evs2 & g2 & n2 & Hs2 & Hev2 & Hg2)
  end.
  unfold run in Hs2. rewrite E in Hs2. cbn [snd vars card now_ms trace] in Hs2, Hg2.
  subst s2. clear E.
  assert (Hg : waterTempValid (data g2) = false
               /\ (shtValid (data g2) = true -> shtOK g2 = true)).
  { destruct (negb (shtOK (vars s)));
      destruct Hg2 as [(-> & _ & Hok) | [(t & h & -> & Hok) | (-> & Hok)]];
      cbn in Hok |- *; split; auto; discriminate. }
  clear Hg2. destruct Hg as (Hw & Hv).
  fwd_prim. state.
  apply bind_elim. intros u3 s3 E.
  assert (Hs3 : exists g3 n3 evs3,
            s3 = mkState g3 (card s) (now_ms s) n3
                   (trace s ++ evs1 ++ evs2 ++ evs3)
            /\ data g3 = data g2 /\ shtOK g3 = shtOK g2).
  { destruct (ds18b20OK g2); cbn [when] in E.
    - cbv [ds18b20_getResolution ds18b20_setWaitForConversion
           ds18b20_requestTemperatures bind ask emit ret get assign millis] in E.
      unfold with_trace, with_calls, with_vars in E.
      cbn [vars card now_ms calls trace] in E. injection E as <- <-.
      do 3 eexists.
      split; [rewrite <- !List.app_assoc; reflexivity | split; reflexivity].
    - injection E as <- <-. exists g2, n2, [].
      split; [ | split; reflexivity].
      rewrite <- !List.app_assoc, app_nil_r. reflexivity. }
  clear E. destruct Hs3 as (g3 & n3 & evs3 & -> & Hd & Hs).
  do 2 (fwd_prim; state). cbv [assign]. state. cbn.
  rewrite Hd, Hs. intros Htr. split; [exact Hw | ]. split; [exact Hv | ].
  rewrite <- !List.app_assoc in Htr. apply app_inv_head in Htr. subst evs.
  exists (evs1 ++ evs2 ++ evs3), (u32 (rtc_unixtime hw n3)).
  rewrite <- !List.app_assoc. split; reflexivity.
Qed.

(** ** The display *)

(** X15: [updateDisplay] does nothing while the display is off.  With the
    display on it draws one frame after one reading of the clock and
    counts the update; before that, a conversion that is pending and whose
    deadline [millis()] has reached is resolved: the reading is stored and
    marked valid, or, for a sentinel, the probe is marked unhealthy; then
    no conversion is pending. *)
Theorem updateDisplay_resolves hw s :
  let s' := run (updateDisplay hw) s in
  let evs := events (updateDisplay hw) s in
  if displayOn (vars s) then
    displayUpdateCount (vars s') = u32 (displayUpdateCount (vars s) + 1)
    /\ card s' = card s
    /\ if dsConvPending (vars s) && (now_ms s >=? dsConvReadyAt (vars s)) then
         exists v u,
           evs = [DsRead v; RtcNow u; DisplayFrame]
           /\ dsConvPending (vars s') = false
           /\ if plausible v then
                waterTempValid (data (vars s')) = true
                /\ tWater (data (vars s')) = v
                /\ ds18b20OK (vars s') = ds18b20OK (vars s)
              else
                data (vars s') = data (vars s)
                /\ ds18b20OK (vars s') = false
       else
         exists u,
           evs = [RtcNow u; DisplayFrame]
           /\ dsConvPending (vars s') = dsConvPending (vars s)
           /\ data (vars s') = data (vars s)
           /\ ds18b20OK (vars s') = ds18b20OK (vars s)
  else updateDisplay hw s = (tt, s).
Proof.
  cbv zeta. destruct (displayOn (vars s)) eqn:Hon.
  2: { unfold updateDisplay, bind, get. rewrite Hon. reflexivity. }
  focus (updateDisplay hw). unfold updateDisplay.
  fwd_prim. rewrite Hon. cbn [negb].
  do 3 (fwd_prim; state).
  destruct (dsConvPending (vars s) && (now_ms s >=? dsConvReadyAt (vars s)));
    cbn [when].
  - rewrite !bind_bind. fwd_prim; state.
    match goal with |- context [plausible ?x] => destruct (plausible x) eqn:Hp end;
      rewrite !bind_bind;
      cbv [store_water nowLocalFromRTC rtc_now_unixtime bind get assign ask emit ret];
      state; cbn; rewrite <- !List.app_assoc, drop_app_length;
      (split; [reflexivity | ]); (split; [reflexivity | ]);
      do 2 eexists; (split; [reflexivity | ]); rewrite ?Hp; cbn; auto.
  - cbv [nowLocalFromRTC rtc_now_unixtime bind get assign ask emit ret].
    state. cbn. rewrite <- !List.app_assoc, drop_app_length.
    split; [reflexivity | ]. split; [reflexivity | ].
    eexists. split; [reflexivity | ]. auto.
Qed.

(** ** Before the sleep *)

Lemma u32_idem z : u32 (u32 z) = u32 z.
Proof. unfold u32. apply Z.mod_mod. lia. Qed.

Lemma u32_add_l a b : u32 (u32 a + b) = u32 (a + b).
Proof. unfold u32. apply Zplus_mod_idemp_l. Qed.

Lemma u32_sub_l a b : u32 (u32 a - b) = u32 (a - b).
Proof. unfold u32. apply Zminus_mod_idemp_l. Qed.

Lemma u32_add a b : u32 (a + b) = u32 (u32 a + u32 b).
Proof. unfold u32. apply Zplus_mod. Qed.

Lemma elapsed_step now now' j :
  u32 (now' - u32 (now + 10)) = 10 * j -> 0 <= j <= 200 ->
  u32 (now' - now) = 10 * (j + 1).
Proof.
  intros H Hj.
  replace (now' - now) with ((now' - u32 (now + 10)) + (u32 (now + 10) - now))
    by lia.
  rewrite u32_add, H, u32_sub_l.
  replace (now + 10 - now) with 10 by lia.
  change (u32 10) with 10. rewrite u32_small; lia.
Qed.

Lemma waited_step now waitStart k :
  u32 (now - waitStart) = 10 * k -> 0 <= k <= 200 ->
  u32 (u32 (now + 10) - waitStart) = 10 * (k + 1).
Proof.
  intros H Hk. rewrite u32_sub_l.
  replace (now + 10 - waitStart) with ((now - waitStart) + 10) by lia.
  rewrite <- u32_add_l, H. rewrite u32_small; lia.
Qed.

Lemma resolve_loop_resolved hw fuel waitStart k s :
  u32 (now_ms s - waitStart) = 10 * k ->
  0 <= k <= 200 ->
  200 - k <= Z.of_nat fuel ->
  exists j, 0 <= j <= 200 - k /\ resolved s j (resolve_loop hw fuel waitStart s).
Proof.
  revert k s. induction fuel as [ | fuel IH]; intros k s Hel Hk Hfuel.
  - assert (k = 200) by lia. subst k. exists 0. split; [lia | ].
    cbn [resolve_loop]. cbv [bind get millis]. rewrite Hel.
    rewrite andb_false_r. unfold resolved. cbn.
    rewrite Z.sub_diag. repeat split. left. auto.
  - set (Q := fun p : bool * State =>
                exists j, 0 <= j <= 200 - k /\ resolved s j p).
    change (Q (resolve_loop hw (S fuel) waitStart s)).
    cbn [resolve_loop]. do 2 fwd_prim.
    destruct (dsConvPending (vars s)) eqn:Hp; cbn [andb].
    2: { exists 0. split; [lia | ]. unfold resolved. cbn.
         rewrite Z.sub_diag. repeat split. left. auto. }
    rewrite Hel. destruct (Z.ltb_spec (10 * k) 2000) as [Hlt | Hge].
    2: { exists 0. split; [lia | ]. unfold resolved. cbn.
         rewrite Z.sub_diag. repeat split; try discriminate. left. auto. }
    fwd_prim.
    assert (Hnext : forall s1 : State,
              now_ms s1 = now_ms s -> card s1 = card s ->
              ds18b20OK (vars s1) = ds18b20OK (vars s) ->
              (trace s1 = trace s /\ data (vars s1) = data (vars s)
               /\ dsConvPending (vars s1) = dsConvPending (vars s)
               \/ exists v,
                    trace s1 = trace s ++ [DsRead v]
                    /\ dsConvPending (vars s1) = false
                    /\ data (vars s1)
                       = if plausible v
                         then set_waterTempValid true
                                (set_tWater v (data (vars s)))
                         else data (vars s)) ->
              Q ((delay 10;; resolve_loop hw fuel waitStart) s1)).
    { intros s1 Hn Hc Hd Hev. fwd_prim.
      match goal with |- Q (resolve_loop hw fuel waitStart ?s2) =>
        destruct (IH (k + 1) s2) as (j & Hj & Hr);
          [ cbn; rewrite Hn; apply waited_step; auto | lia | lia | ];
        destruct (resolve_loop hw fuel waitStart s2) as [r s3]
      end.
      exists (j + 1). split; [lia | ].
      destruct Hr as (Hres & Hnow & Hcard & Hds & Hidle & Htr).
      cbn in Hres, Hnow, Hcard, Hds, Hidle, Htr. rewrite Hn in Hnow.
      unfold resolved. cbn [fst snd]. split; [exact Hres | ].
      split; [apply elapsed_step; [exact Hnow | lia] | ].
      split; [congruence | ]. split; [congruence | ].
      split; [rewrite Hp; discriminate | ].
      destruct Hev as [(Ht1 & Hd1 & Hp1) | (v & Ht1 & Hp1 & Hd1)].
      - destruct Htr as [(Ht2 & Hd2 & Hp2) | (v & Ht2 & Hp2 & Hd2)].
        + left. repeat split; congruence.
        + right. exists v. rewrite Ht2, Hp2, Hd2, Ht1, Hd1. auto.
      - rewrite (Hidle Hp1). cbn. right. exists v. auto. }
    destruct (i32 (now_ms s - dsConvReadyAt (vars s)) >=? 0); cbn [when].
    + rewrite !bind_bind. fwd_prim; state.
      match goal with |- context [plausible ?x] => destruct (plausible x) eqn:Hpl end;
        cbn [when]; rewrite !bind_bind; do 2 (fwd_prim; state);
        apply Hnext; try reflexivity; right; eexists;
        (split; [reflexivity | ]); rewrite Hpl; auto.
    + fwd_prim. apply Hnext; try reflexivity. left. auto.
Qed.

(** X16: the wait of [enterLightSleep] for a pending conversion always
    ends by itself, within 2000 ms; afterwards no conversion is pending.
    The sensor is read at most once; its reading is stored and marked
    valid unless it is a sentinel, and the probe's health flag is left as
    it was in either case.  With nothing pending, nothing happens. *)
Theorem enterLightSleep_resolve_completes hw s :
  let s' := run (enterLightSleep_resolve hw) s in
  let evs := events (enterLightSleep_resolve hw) s in
  result (enterLightSleep_resolve hw) s = true
  /\ dsConvPending (vars s') = false
  /\ ds18b20OK (vars s') = ds18b20OK (vars s)
  /\ card s' = card s
  /\ u32 (now_ms s' - now_ms s) <= 2000
  /\ (dsConvPending (vars s) = false -> s' = s)
  /\ (evs = [] /\ data (vars s') = data (vars s)
      \/ exists v,
           evs = [DsRead v]
           /\ data (vars s')
              = if plausible v
                then set_waterTempValid true (set_tWater v (data (vars s)))
                else data (vars s)).
Proof.
  focus (enterLightSleep_resolve hw). unfold enterLightSleep_resolve.
  fwd_prim. destruct (dsConvPending (vars s)) eqn:Hp.
  2: { cbn. rewrite Z.sub_diag, drop_all. repeat split; auto.
       discriminate. }
  fwd_prim.
  destruct (resolve_loop_resolved hw 200 (now_ms s) 0 s) as (j & Hj & Hr).
  { rewrite Z.sub_diag. reflexivity. }
  { lia. }
  { cbn. lia. }
  apply bind_elim. intros left_ s1 E. rewrite E in Hr.
  destruct Hr as (Hres & Hnow & Hcard & Hds & _ & Htr).
  cbn [fst snd] in *. subst left_.
  cbv [assign ret bind]. state. cbn [dsConvPending set_dsConvPending ds18b20OK data].
  split; [reflexivity | ]. split; [reflexivity | ]. split; [exact Hds | ].
  split; [exact Hcard | ]. split; [rewrite Hnow; lia | ].
  split; [discriminate | ].
  destruct Htr as [(Ht & Hd & _) | (v & Ht & _ & Hd)]; rewrite Ht.
  - left. rewrite drop_all. auto.
  - right. exists v. rewrite drop_app_length. auto.
Qed.

(** ** The counter on the display *)

(** X17: [updateLogCount] does nothing within [LOG_COUNT_UPDATE_INTERVAL]
    of the last refresh.  Later it replaces [logCount] by what
    [countLogEntries] returns, which is 0 while storage is marked
    unavailable, and notes the time; the card is only read. *)
Theorem updateLogCount_throttled hw s :
  let s' := run (updateLogCount hw) s in
  if u32 (now_ms s - lastLogCountUpdate (vars s)) >=? LOG_COUNT_UPDATE_INTERVAL
  then
    logCount (vars s') = result (countLogEntries hw) s
    /\ lastLogCountUpdate (vars s') = now_ms s
    /\ card s' = card s
    /\ (sdAvailable (vars s) = false -> logCount (vars s') = 0)
  else updateLogCount hw s = (tt, s).
Proof.
  cbv zeta.
  destruct (u32 (now_ms s - lastLogCountUpdate (vars s))
            >=? LOG_COUNT_UPDATE_INTERVAL) eqn:Hdue.
  2: { unfold updateLogCount, bind, millis, get. rewrite Hdue. reflexivity. }
  pose proof (countLogEntries_result hw s) as (Hv & Hc & Hn & Hr).
  revert Hv Hc Hn Hr.
  focus (updateLogCount hw). unfold updateLogCount.
  do 2 fwd_prim. rewrite Hdue. cbn [when].
  apply bind_elim. intros c s1 E. rewrite E. cbn [fst snd].
  intros Hv Hc Hn Hr.
  cbv [logCount_set bind assign emit millis ret]. state. cbn.
  repeat split; auto.
  intros Hsd. destruct Hr as [-> | (content & Hsd' & _)]; [reflexivity | ].
  congruence.
Qed.

(** ** Sleeping and waking *)

(** X18: the sleep ends when the next measurement is due.  With the clock
    working and the readings in the range of a [uint32_t]: when a
    measurement is due, the sleep lasts one second; when it is not, the
    sleep never passes the due time, and it ends exactly there when that
    is at most [MAX_SLEEP_SEC] away, so that the test of [loop()] then
    finds the measurement due. *)
Theorem sleepRemaining_meets_due interval last now :
  0 <= last <= now -> now + MAX_SLEEP_SEC < 2 ^ 32 -> 0 <= interval < 2 ^ 32 ->
  let r := sleepRemaining interval last now true in
  (measurement_due interval last now = true -> r = 1)
  /\ (measurement_due interval last now = false ->
      now + r <= last + interval
      /\ (interval - (now - last) <= MAX_SLEEP_SEC ->
          measurement_due interval last (now + r) = true)).
Proof.
  intros Hl Hn Hi. cbv zeta. unfold measurement_due, sleepRemaining, MAX_SLEEP_SEC in *.
  replace (now >=? last) with true by (symmetry; apply Z.geb_le; lia).
  rewrite (u32_small (now - last)) by lia.
  split.
  - intros Hdue. apply Z.geb_le in Hdue.
    replace (now - last <? interval) with false by (symmetry; apply Z.ltb_ge; lia).
    reflexivity.
  - intros Hdue. rewrite Z.geb_leb in Hdue. apply Z.leb_gt in Hdue.
    replace (now - last <? interval) with true by (symmetry; apply Z.ltb_lt; lia).
    rewrite (u32_small (interval - (now - last))) by lia.
    destruct (Z.gtb_spec (interval - (now - last)) 268) as [Hbig | Hsmall].
    + cbn. split; [lia | intros; lia].
    + replace (interval - (now - last) =? 0) with false
        by (symmetry; apply Z.eqb_neq; lia).
      split; [lia | ]. intros _.
      replace (now + (interval - (now - last)) >=? last) with true
        by (symmetry; apply Z.geb_le; lia).
      rewrite u32_small by lia. apply Z.geb_le. lia.
Qed.

(** An interval of 240 s, 100 s after the last measurement: the sleep
    lasts 140 s and ends when the measurement is due. *)
Lemma sleepRemaining_meets_due_witness :
  let r := sleepRemaining 240 1735137000 1735137100 true in
  (measurement_due 240 1735137000 1735137100 = true -> r = 1)
  /\ (measurement_due 240 1735137000 1735137100 = false ->
      1735137100 + r <= 1735137000 + 240
      /\ (240 - (1735137100 - 1735137000) <= MAX_SLEEP_SEC ->
          measurement_due 240 1735137000 (1735137100 + r) = true)).
Proof.
  apply (sleepRemaining_meets_due 240 1735137000 1735137100);
    unfold MAX_SLEEP_SEC; lia.
Defined.

Lemma offline_events sht_evs (ds rtc : bool) v u :
  Forall (fun e => is_sht e = true) sht_evs ->
  let evs := sht_evs ++ (if ds then [DsRequest; DsRead v] else [])
             ++ (if rtc then [RtcNow u] else []) ++ [] in
  existsb is_storage evs = false /\ existsb is_count evs = false.
Proof.
  intros H. cbv zeta. rewrite !existsb_app.
  replace (existsb is_storage sht_evs) with false.
  replace (existsb is_count sht_evs) with false.
  - destruct ds, rtc; split; reflexivity.
  - symmetry. apply existsb_forall_false.
    eapply List.Forall_impl; [ | exact H].
    intros e. destruct e; simpl; congruence.
  - symmetry. apply existsb_forall_false.
    eapply List.Forall_impl; [ | exact H].
    intros e. destruct e; simpl; congruence.
Qed.

(** X19: a wake-up on the timer after which the card does not come up
    marks storage unavailable, falls back to [INTERVAL_NO_SD], and then
    measures without touching the card: whatever the run does to the card
    is done by [reinitSD]. *)
Theorem wake_timer_offline hw longSleep s :
  longSleep || negb (sdAvailable (vars s)) = true ->
  result (reinitSD hw) s = false ->
  let s' := run (wake_timer hw longSleep) s in
  sdAvailable (vars s') = false
  /\ interval (vars s') = INTERVAL_NO_SD
  /\ logCount (vars s') = logCount (vars s)
  /\ card s' = card (run (reinitSD hw) s)
  /\ exists evs,
       events (wake_timer hw longSleep) s = events (reinitSD hw) s ++ evs
       /\ existsb is_storage evs = false.
Proof.
  intros Hcond Hres.
  pose proof (trace_events growing (reinitSD hw) s ltac:(obey)) as Htr0.
  pose proof (reinitSD_within hw quiet s) as (_ & Hq & _). cbn in Hq.
  revert Hres Htr0 Hq.
  focus (wake_timer hw longSleep). unfold wake_timer.
  fwd_prim. rewrite Hcond. cbn [when]. rewrite !bind_bind.
  apply bind_elim. intros ok s1 E. rewrite E. cbn [fst snd].
  intros -> Htr0 Hq. cbn [negb when]. rewrite !bind_bind.
  do 2 (fwd_prim; state).
  match goal with |- context [measureAndLog hw ?s2] =>
    pose proof (measureAndLog_summary hw s2)
      as (sht_evs & v & u & store_evs & Htr & Hsht & _ & Hoff & _)
  end.
  destruct (measureAndLog hw _) as [u0 s3]. cbn [fst snd vars card trace] in *.
  destruct (Hoff eq_refl) as (-> & Hc & Hl & Hi & Hs). cbn in Hl, Hi.
  split; [exact Hs | ]. split; [exact Hi | ]. split; [congruence | ].
  split; [exact Hc | ].
  remember (drop (length (trace s)) (trace s1)) as d0 eqn:Hd0. clear Hd0.
  rewrite Htr, Htr0. rewrite <- !List.app_assoc, drop_app_length.
  eexists. split; [reflexivity | ].
  apply (offline_events sht_evs _ _ v u), Hsht.
Qed.

(** The card does not answer after a long sleep. *)
Lemma wake_timer_offline_witness :
  let s := Cases.card_lost in
  let s' := run (wake_timer Cases.dead true) s in
  sdAvailable (vars s') = false
  /\ interval (vars s') = INTERVAL_NO_SD
  /\ logCount (vars s') = logCount (vars s)
  /\ card s' = card (run (reinitSD Cases.dead) s)
  /\ exists evs,
       events (wake_timer Cases.dead true) s
       = events (reinitSD Cases.dead) s ++ evs
       /\ existsb is_storage evs = false.
Proof.
  apply (wake_timer_offline Cases.dead true Cases.card_lost).
  - reflexivity.
  - vm_compute. reflexivity.
Defined.

(** ** The history *)

Lemma c_str_idem l : c_str (c_str l) = c_str l.
Proof.
  induction l as [ | c l IH]; [reflexivity | ]. cbn [c_str].
  destruct (Ascii.eqb c "000") eqn:Hc; [reflexivity | ].
  cbn [c_str]. rewrite Hc, IH. reflexivity.
Qed.

Lemma c_str_substring n l : c_str (substring 0 n (c_str l)) = substring 0 n (c_str l).
Proof.
  revert n. induction l as [ | c l IH]; intros n.
  - destruct n; reflexivity.
  - cbn [c_str]. destruct (Ascii.eqb c "000") eqn:Hc.
    + destruct n; reflexivity.
    + destruct n; [reflexivity | ]. cbn [substring c_str]. rewrite Hc, IH.
      reflexivity.
Qed.

Lemma substring_substring n l : substring 0 n (substring 0 n l) = substring 0 n l.
Proof.
  revert n. induction l as [ | c l IH]; intros [ | n]; cbn; try reflexivity.
  rewrite IH. reflexivity.
Qed.

Lemma stored_idem l : stored (stored l) = stored l.
Proof. unfold stored. rewrite c_str_substring. apply substring_substring. Qed.

Lemma last_three {A} (l : list A) :
  (3 <= length l)%nat -> exists pre a b c, l = pre ++ [a; b; c].
Proof.
  intros H.
  destruct (rev l) as [ | c [ | b [ | a r]]] eqn:Hr;
    try (apply (f_equal (@length A)) in Hr; rewrite length_rev in Hr;
         cbn in Hr; lia).
  exists (rev r), a, b, c.
  rewrite <- (rev_involutive l), Hr. cbn. rewrite <- !List.app_assoc. reflexivity.
Qed.

Lemma keep_line_holds kept sc :
  holds_last kept sc -> holds_last (kept ++ [currentLine sc]) (keep_line sc).
Proof.
  intros (Hn & Hlen & Hls). unfold holds_last, keep_line. cbn [lineCount lines].
  rewrite length_app. cbn [length].
  split; [lia | ].
  destruct (lines sc) as [ | l0 [ | l1 [ | l2 [ | ? ?]]]]; try discriminate.
  rewrite Hn.
  destruct (le_lt_dec 3 (length kept)) as [Hge | Hlt].
  - replace (Z.of_nat (length kept) <? 3) with false
      by (symmetry; apply Z.ltb_ge; lia).
    split; [reflexivity | ].
    destruct (last_three kept Hge) as (pre & ka & kb & kc & ->).
    rewrite length_app in *. cbn [length] in *.
    replace (3 `min` (length pre + 3))%nat with 3%nat in Hls by lia.
    replace (3 `min` (length pre + 3 + 1))%nat with 3%nat by lia.
    replace (length pre + 3 - 3)%nat with (length pre) in Hls by lia.
    replace (length pre + 3 + 1 - 3)%nat with (length (pre ++ [ka])) 
      by (rewrite length_app; cbn; lia).
    rewrite !map_app in *. cbn [map] in *.
    rewrite <- (length_map stored pre) in Hls. rewrite drop_app_length in Hls.
    cbn in Hls. injection Hls as -> -> ->.
    replace ((map stored pre ++ [stored ka; stored kb; stored kc]) ++ [stored (currentLine sc)])
      with ((map stored pre ++ [stored ka]) ++ [stored kb; stored kc; stored (currentLine sc)])
      by (rewrite <- !List.app_assoc; reflexivity).
    replace (length (pre ++ [ka])) with (length (map stored pre ++ [stored ka]))
      by (rewrite !length_app, length_map; reflexivity).
    rewrite drop_app_length. cbn.
    unfold safeStrncpy. cbn [Nat.eqb Nat.sub].
    fold (stored (stored kb)). fold (stored (stored kc)). fold (stored (currentLine sc)).
    rewrite !stored_idem. reflexivity.
  - replace (Z.of_nat (length kept) <? 3) with true
      by (symmetry; apply Z.ltb_lt; lia).
    rewrite Nat2Z.id.
    destruct kept as [ | k0 [ | k1 [ | k2 rest]]]; cbn in Hlt; try lia.
    + cbn. split; reflexivity.
    + cbn in Hls |- *. injection Hls as ->. split; reflexivity.
    + cbn in Hls |- *. injection Hls as -> ->. split; reflexivity.
Qed.

Lemma empty_line (l : string) :
  (0 <? Z.of_nat (String.length l)) = false -> l = "".
Proof. destruct l; [reflexivity | ]. cbn. discriminate. Qed.

Lemma scan_lines_holds content kept sc :
  holds_last kept sc ->
  holds_last (kept ++ full_lines content (currentLine sc)) (scan_lines content sc)
  /\ currentLine (scan_lines content sc) = last_line content (currentLine sc).
Proof.
  revert kept sc. induction content as [ | c rest IH]; intros kept sc H.
  - cbn. rewrite app_nil_r. auto.
  - cbn [scan_lines full_lines last_line].
    destruct (Ascii.eqb c "010").
    + destruct (0 <? Z.of_nat (String.length (currentLine sc))) eqn:Hne.
      * destruct (IH _ _ (keep_line_holds kept sc H)) as (H1 & H2).
        cbn [currentLine keep_line] in H1, H2.
        rewrite <- List.app_assoc in H1. auto.
      * destruct (IH kept sc H) as (H1 & H2).
        rewrite (empty_line _ Hne) in H1, H2. auto.
    + destruct (negb (Ascii.eqb c "013")
                && (Z.of_nat (String.length (currentLine sc)) <? 219)).
      * apply (IH kept (mkScan (lines sc) (lineCount sc)
                          (currentLine sc +:+ String c ""))).
        exact H.
      * apply IH, H.
Qed.

(** The scan of a file leaves the buffer holding the last lines kept. *)
Lemma read_lines_holds content :
  exists kept,
    data_lines content = map stored kept
    /\ holds_last kept (read_lines content).
Proof.
  unfold read_lines, data_lines.
  set (rest := skip_line content).
  assert (H0 : holds_last [] (mkScan [None; None; None] 0 "")).
  { unfold holds_last. cbn. auto. }
  destruct (scan_lines_holds rest _ _ H0) as (H & Hcur).
  cbn [currentLine app] in H, Hcur. rewrite Hcur.
  destruct (0 <? Z.of_nat (String.length (last_line rest ""))).
  - apply keep_line_holds in H. rewrite Hcur in H. eexists. split; [reflexivity | exact H].
  - rewrite app_nil_r. eexists. split; [reflexivity | exact H].
Qed.

(** X20: the buffer of three lines of [readLastMeasurements] ends up with
    the last three data lines of the file, oldest first (all of them when
    there are fewer), and [lineCount] with their number: the places that
    are read afterwards have all been written. *)
Theorem read_lines_last_three content :
  let sc := read_lines content in
  let ls := data_lines content in
  lineCount sc = Z.of_nat (length ls)
  /\ take (Nat.min 3 (length ls)) (lines sc)
     = map Some (drop (length ls - 3) ls).
Proof.
  cbv zeta. destruct (read_lines_holds content) as (kept & -> & Hn & _ & Hls).
  rewrite length_map. auto.
Qed.

Section Values.

Variable atof : string -> float.

Lemma insert_put idx (x : float) w l : <[idx := x]> (put idx w l) = <[idx := x]> l.
Proof. destruct w; cbn; [apply list_insert_insert_eq | reflexivity]. Qed.

Lemma parse_fields_values line k field idx acc hd :
  parse_fields atof line k field idx (put_values idx acc hd)
  = put_values idx (line_values atof line k field acc) hd.
Proof.
  revert k field acc. induction line as [ | ch rest IH]; intros k field acc;
    destruct acc as [[t h] w]; cbn [parse_fields line_values].
  - destruct ((0 <? Z.of_nat (String.length field)) && (k =? 6));
      [ | reflexivity].
    unfold put_values, set_hist_tWater.
    cbn [hist_t hist_h hist_tWater valid put]. rewrite insert_put. reflexivity.
  - destruct (Ascii.eqb ch ",").
    + rewrite <- IH. f_equal. unfold store_field.
      destruct ((k =? 3) && _); [ | destruct ((k =? 4) && _);
                                     [ | destruct ((k =? 6) && _) ]];
        unfold put_values, set_hist_t, set_hist_h, set_hist_tWater;
        cbn [hist_t hist_h hist_tWater valid put]; rewrite ?insert_put;
        reflexivity.
    + destruct (Z.of_nat (String.length field) <? 31); apply IH.
Qed.

Lemma put_values_none idx hd : put_values idx (None, None, None) hd = hd.
Proof. destruct hd; reflexivity. Qed.

Lemma parse_lines_place recent before hd :
  parse_lines atof (length recent) (length before)
    (length before + length recent) (map Some (before ++ recent)) hd
  = place_lines atof recent hd.
Proof.
  revert before hd. induction recent as [ | l rest IH];
    intros before hd; [reflexivity | ].
  cbn [length parse_lines place_lines].
  unfold line_at. rewrite list_lookup_fmap.
  rewrite lookup_app_r by lia. rewrite Nat.sub_diag.
  cbn [lookup list_lookup fmap option_fmap option_map].
  replace (length before + S (length rest) - 1 - length before)%nat
    with (length rest) by lia.
  specialize (IH (before ++ [l])). rewrite length_app in IH. cbn [length] in IH.
  rewrite <- List.app_assoc in IH. cbn [app] in IH.
  replace (length before + 1)%nat with (S (length before)) in IH by lia.
  replace (length before + S (length rest))%nat
    with (S (length before) + length rest)%nat by lia.
  apply IH.
Qed.

Lemma parse_lines_ext todo i count ls ls' hd :
  (forall j, (i <= j < i + todo)%nat -> line_at ls j = line_at ls' j) ->
  parse_lines atof todo i count ls hd = parse_lines atof todo i count ls' hd.
Proof.
  revert i hd. induction todo as [ | k IH]; intros i hd H; [reflexivity | ].
  cbn [parse_lines]. rewrite (H i) by lia. apply IH.
  intros j Hj. apply H. lia.
Qed.

(** X21: the history that [readLastMeasurements] makes of a file: the
    last three data lines (fewer when the file has fewer) are parsed,
    oldest first, each into the place that counts the lines after it, so
    that place 0 holds the newest; the other places stay 0, and the
    history is valid when there is a data line. *)
Theorem history_newest_first content :
  let ls := data_lines content in
  let recent := drop (length ls - 3) ls in
  history atof content
  = set_valid (0 <? Z.of_nat (length ls))
      (place_lines atof recent (no_history)).
Proof.
  cbv zeta. unfold history.
  destruct (read_lines_holds content) as (kept & Hk & Hn & _ & Hls).
  rewrite <- (length_map stored), <- Hk in Hn, Hls.
  set (ls := data_lines content) in *.
  set (recent := drop (length ls - 3) ls) in *.
  rewrite Hn.
  assert (Hc : Z.to_nat (Z.min (Z.of_nat (length ls)) 3) = length recent).
  { unfold recent. rewrite length_drop. lia. }
  rewrite Hc.
  assert (Hv : (0 <? Z.of_nat (length recent)) = (0 <? Z.of_nat (length ls))).
  { unfold recent. rewrite length_drop.
    destruct (Z.ltb_spec 0 (Z.of_nat (length ls)));
      [apply Z.ltb_lt | apply Z.ltb_ge]; lia. }
  rewrite Hv. f_equal.
  replace (Nat.min 3 (length ls)) with (length recent) in Hls
    by (unfold recent; rewrite length_drop; lia).
  rewrite (parse_lines_ext _ _ _ _ (map Some recent)).
  - apply (parse_lines_place recent []).
  - intros j Hj. rewrite <- Hls. unfold line_at.
    rewrite lookup_take_lt by lia. reflexivity.
Qed.

Lemma append_nil_r (a : string) : a +:+ "" = a.
Proof.
  induction a as [ | y a IH]; [reflexivity | ].
  change (String y a +:+ "") with (String y (a +:+ "")). rewrite IH. reflexivity.
Qed.

Lemma append_cons (a : string) x b : (a +:+ String x "") +:+ b = a +:+ String x b.
Proof.
  induction a as [ | y a IH]; [reflexivity | ].
  change ((String y a +:+ String x "") +:+ b)
    with (String y ((a +:+ String x "") +:+ b)).
  rewrite IH. reflexivity.
Qed.

Lemma length_append1 (a : string) x :
  String.length (a +:+ String x "") = S (String.length a).
Proof. rewrite length_append. cbn. lia. Qed.

Lemma substring_prefix n (a b : string) :
  String.length a = n -> substring 0 n (a +:+ b) = a.
Proof.
  revert n. induction a as [ | y a IH]; intros n Hn.
  - cbn in Hn. subst n. destruct b; reflexivity.
  - cbn in Hn. subst n. change (String y a +:+ b) with (String y (a +:+ b)).
    cbn [substring]. rewrite IH by reflexivity. reflexivity.
Qed.

(** The characters of a field go to the buffer of 31. *)
Lemma line_values_field f rest k cur acc :
  lacks COMMA f = true ->
  (String.length cur <= 31)%nat ->
  line_values atof (f +:+ rest) k cur acc
  = line_values atof rest k (substring 0 31 (cur +:+ f)) acc.
Proof.
  revert cur. induction f as [ | ch f IH]; intros cur Hf Hle.
  - cbn [append]. rewrite append_nil_r.
    rewrite substring_all by lia. reflexivity.
  - cbn [lacks] in Hf. apply andb_true_iff in Hf. destruct Hf as [Hch Hf].
    change (String ch f +:+ rest) with (String ch (f +:+ rest)).
    destruct acc as [[t h] w]. cbn [line_values].
    unfold COMMA in Hch. apply negb_true_iff in Hch. rewrite Hch.
    destruct (Z.ltb_spec (Z.of_nat (String.length cur)) 31) as [Hlt | Hge].
    + rewrite (IH (cur +:+ String ch "") Hf)
        by (rewrite length_append1; lia).
      rewrite append_cons. reflexivity.
    + assert (Hlen : String.length cur = 31%nat) by lia.
      rewrite (IH cur Hf Hle).
      rewrite !substring_prefix by exact Hlen. reflexivity.
Qed.

(** A field and its comma. *)
Lemma line_values_comma f rest k acc :
  lacks COMMA f = true ->
  line_values atof (f +:+ "," +:+ rest) k "" acc
  = line_values atof rest (k + 1) ""
      (let '(t, h, w) := acc in
       let v := field_value atof (substring 0 31 f) in
       if k =? 3 then (match v with Some _ => v | None => t end, h, w)
       else if k =? 4 then (t, match v with Some _ => v | None => h end, w)
       else if k =? 6 then (t, h, match v with Some _ => v | None => w end)
       else acc).
Proof.
  intros Hf. rewrite (line_values_field f _ k "" acc Hf) by (cbn; lia).
  change ("" +:+ f) with f. destruct acc as [[t h] w].
  change ("," +:+ rest) with (String "," rest). cbn [line_values].
  change (Ascii.eqb "," ",") with true. cbv iota.
  unfold field_value.
  destruct (k =? 3), (k =? 4), (k =? 6),
    (0 <? Z.of_nat (String.length (substring 0 31 f))); reflexivity.
Qed.

(** The last field of a row. *)
Lemma line_values_end f k acc :
  lacks COMMA f = true -> k <> 6 ->
  line_values atof f k "" acc = acc.
Proof.
  intros Hf Hk. rewrite <- (append_nil_r f).
  rewrite (line_values_field f "" k "" acc Hf) by (cbn; lia).
  change ("" +:+ f) with f. destruct acc as [[t h] w]. cbn [line_values].
  replace (k =? 6) with false by (symmetry; apply Z.eqb_neq; exact Hk).
  rewrite andb_false_r. reflexivity.
Qed.

Lemma line_values_nine f0 f1 f2 f3 f4 f5 f6 f7 f8 :
  Forall (fun f => lacks COMMA f = true) [f0; f1; f2; f3; f4; f5; f6; f7; f8] ->
  line_values atof (csv [f0; f1; f2; f3; f4; f5; f6; f7; f8]) 0 ""
    (None, None, None)
  = (field_value atof (substring 0 31 f3),
     field_value atof (substring 0 31 f4),
     field_value atof (substring 0 31 f6)).
Proof.
  intros H. repeat match goal with
                   | H : Forall _ (_ :: _) |- _ => inversion_clear H
                   end.
  cbn [csv].
  rewrite !line_values_comma by assumption. cbn.
  rewrite line_values_end by (assumption || discriminate).
  destruct (field_value atof (substring 0 31 f3)),
    (field_value atof (substring 0 31 f4)),
    (field_value atof (substring 0 31 f6)); reflexivity.
Qed.

(** X22: from a row of nine fields without commas, the scan of the
    fields takes the fourth, the fifth and the seventh (temperature,
    humidity, water temperature), each cut at 31 characters and converted
    by [atof], into the place [dataIdx] of the three arrays; an empty
    field leaves its place as it is, and nothing else is changed. *)
Theorem parse_fields_row f0 f1 f2 f3 f4 f5 f6 f7 f8 dataIdx hd :
  Forall (fun f => lacks COMMA f = true) [f0; f1; f2; f3; f4; f5; f6; f7; f8] ->
  parse_fields atof (csv [f0; f1; f2; f3; f4; f5; f6; f7; f8]) 0 "" dataIdx hd
  = put_values dataIdx
      (field_value atof (substring 0 31 f3),
       field_value atof (substring 0 31 f4),
       field_value atof (substring 0 31 f6)) hd.
Proof.
  intros H. rewrite <- (put_values_none dataIdx hd) at 1.
  rewrite parse_fields_values, (line_values_nine _ _ _ _ _ _ _ _ _ H).
  reflexivity.
Qed.

End Values.

Lemma parse_fields_row_witness :
  let atof := fun s : string =>
    if String.eqb s "22.50" then 22.5%float
    else if String.eqb s "58.5" then 58.5%float else 0%float in
  parse_fields atof
    (csv ["2024-12-25T14:30:00Z"; "1735137000000"; "2024-12-25 15:30:00";
          "22.50"; "58.5"; "13.95"; ""; "1"; "0"]) 0 "" 1 no_history
  = put_values 1 (Some 22.5%float, Some 58.5%float, None) no_history.
Proof.
  intros atof.
  apply (parse_fields_row atof "2024-12-25T14:30:00Z" "1735137000000"
           "2024-12-25 15:30:00" "22.50" "58.5" "13.95" "" "1" "0" 1
           no_history).
  repeat constructor.
Defined.

(** ** The size of a row *)

Lemma nb_digits_double d :
  (Decimal.nb_digits (Decimal.Little.double d) <= S (Decimal.nb_digits d))%nat
  /\ (Decimal.nb_digits (Decimal.Little.succ_double d)
      <= S (Decimal.nb_digits d))%nat.
Proof.
  induction d as [ | d [IH1 IH2] | d [IH1 IH2] | d [IH1 IH2] | d [IH1 IH2]
                   | d [IH1 IH2] | d [IH1 IH2] | d [IH1 IH2] | d [IH1 IH2]
                   | d [IH1 IH2] | d [IH1 IH2]];
    cbn; split; lia.
Qed.

Lemma nb_digits_little p :
  (Decimal.nb_digits (Pos.to_little_uint p) <= Pos.size_nat p)%nat.
Proof.
  induction p as [p IH | p IH | ]; cbn [Pos.to_little_uint Pos.size_nat].
  - pose proof (proj2 (nb_digits_double (Pos.to_little_uint p))). lia.
  - pose proof (proj1 (nb_digits_double (Pos.to_little_uint p))). lia.
  - cbn. lia.
Qed.

Lemma length_string_of_uint d :
  String.length (NilEmpty.string_of_uint d) = Decimal.nb_digits d.
Proof. induction d; cbn; congruence. Qed.

Lemma size_nat_bound p :
  forall n : nat, Z.pos p < 2 ^ Z.of_nat n -> (Pos.size_nat p <= n)%nat.
Proof.
  induction p as [p IH | p IH | ]; intros [ | n] H; cbn [Pos.size_nat];
    try (change (2 ^ Z.of_nat 0) with 1 in H; lia);
    try (rewrite Nat2Z.inj_succ, Z.pow_succ_r in H by lia;
         specialize (IH n); lia).
Qed.

Lemma length_digits p :
  Z.pos p < 2 ^ 32 ->
  (String.length (NilZero.string_of_uint (Pos.to_uint p)) <= 33)%nat.
Proof.
  intros Hn. unfold Pos.to_uint.
  assert (Hnil : Decimal.rev (Pos.to_little_uint p) <> Decimal.Nil).
  { apply (DecimalPos.Unsigned.to_uint_nonnil p). }
  pose proof (nb_digits_little p) as Hd.
  pose proof (size_nat_bound p 32 Hn) as Hs.
  unfold NilZero.string_of_uint.
  destruct (Decimal.rev (Pos.to_little_uint p)) eqn:Hr; [contradiction | ..];
    rewrite <- Hr, length_string_of_uint, DecimalFacts.nb_digits_rev; lia.
Qed.

Lemma length_decimal_u32 z : (String.length (decimal (u32 z)) <= 33)%nat.
Proof.
  pose proof (u32_range z) as Hr. unfold decimal.
  destruct (u32 z) as [ | p | p].
  - vm_compute. lia.
  - change (Z.pos p <? 0) with false. change ("" +:+ ?x) with x.
    apply length_digits. lia.
  - lia.
Qed.

Lemma length_snprintf n s : (String.length (snprintf n s) <= n - 1)%nat.
Proof. apply length_substring_le. Qed.

Lemma length_substring_len n s :
  (String.length (substring 0 n s) <= String.length s)%nat.
Proof.
  revert n. induction s as [ | x s IH]; intros [ | n]; cbn; try lia.
  specialize (IH n). lia.
Qed.

(** The text of a row before the buffer of 220 takes it. *)
Lemma formatRow_text hw utcNow d :
  exists f0 f2 f3 f4 f5 f6 f7 f8,
    let row := csv [f0; decimal (u32 utcNow) +:+ "000"; f2; f3; f4; f5; f6; f7; f8] in
    formatRow hw utcNow d = snprintf 220 row
    /\ (String.length f0 <= 24)%nat /\ (String.length f2 <= 19)%nat
    /\ f3 = (if shtValid d then snprintf 16 (libc_fixed hw 2 (t d)) else "")
    /\ f4 = (if shtValid d then snprintf 16 (libc_fixed hw 1 (h d)) else "")
    /\ f5 = (if shtValid d then snprintf 16 (libc_fixed hw 2 (td d)) else "")
    /\ f6 = (if waterTempValid d
             then snprintf 16 (libc_fixed hw 2 (tWater d)) else "")
    /\ f7 = (if shtValid d then "1" else "0")
    /\ f8 = (if waterTempValid d then "1" else "0")
    /\ (forall c, lacks c "-0123456789:TZ " = true ->
        lacks c f0 = true /\ lacks c f2 = true).
Proof.
  unfold formatRow.
  match goal with
  | |- context [snprintf 220 (?a +:+ "," +:+ ?b +:+ "000," +:+ ?c +:+ "," +:+ ?r)] =>
      exists a, c
  end.
  exists (if shtValid d then snprintf 16 (libc_fixed hw 2 (t d)) else "").
  exists (if shtValid d then snprintf 16 (libc_fixed hw 1 (h d)) else "").
  exists (if shtValid d then snprintf 16 (libc_fixed hw 2 (td d)) else "").
  exists (if waterTempValid d then snprintf 16 (libc_fixed hw 2 (tWater d)) else "").
  exists (if shtValid d then "1" else "0").
  exists (if waterTempValid d then "1" else "0").
  cbv zeta. split; [ | split; [apply (length_snprintf 25) | ]].
  - f_equal. cbn [csv]. rewrite append_assoc.
    destruct (shtValid d), (waterTempValid d); reflexivity.
  - split; [apply (length_snprintf 20) | ].
    repeat (split; [reflexivity | ]).
    intros c Hc. cbn [lacks] in Hc.
    repeat match type of Hc with
           | _ && _ = true => apply andb_true_iff in Hc; destruct Hc as [? Hc]
           end.
    assert (Hn : lacks c "-0123456789" = true).
    { cbn [lacks]. repeat (apply andb_true_iff; split; [assumption | ]). reflexivity. }
    assert (Hs : forall x, In x [":"; "T"; "Z"; " "; "-"] -> lacks c x = true).
    { intros x Hx. cbn [In] in Hx.
      repeat destruct Hx as [<- | Hx]; try contradiction; cbn [lacks];
        repeat (apply andb_true_iff; split; [assumption | ]); reflexivity. }
    split;
    repeat first
      [ apply lacks_snprintf
      | rewrite lacks_app; apply andb_true_iff; split
      | apply lacks_fmt_0d; exact Hn
      | apply Hs; cbn [In]; tauto ].
Qed.

Lemma formatRow_room hw utcNow d :
  exists f0 f2 f3 f4 f5 f6 f7 f8,
    let row := csv [f0; decimal (u32 utcNow) +:+ "000"; f2; f3; f4; f5; f6; f7; f8] in
    formatRow hw utcNow d = row
    /\ (String.length row <= 149)%nat
    /\ f3 = (if shtValid d then snprintf 16 (libc_fixed hw 2 (t d)) else "")
    /\ f4 = (if shtValid d then snprintf 16 (libc_fixed hw 1 (h d)) else "")
    /\ f6 = (if waterTempValid d
             then snprintf 16 (libc_fixed hw 2 (tWater d)) else "")
    /\ (forall c, lacks c "-0123456789:TZ " = true ->
        (forall n x, lacks c (libc_fixed hw n x) = true) ->
        Forall (fun f => lacks c f = true)
          [f0; decimal (u32 utcNow) +:+ "000"; f2; f3; f4; f5; f6; f7; f8]).
Proof.
  destruct (formatRow_text hw utcNow d)
    as (f0 & f2 & f3 & f4 & f5 & f6 & f7 & f8 & Hrow & H0 & H2 & H3 & H4 & H5
        & H6 & H7 & H8 & Hl).
  exists f0, f2, f3, f4, f5, f6, f7, f8. cbv zeta in *.
  assert (Hlen : (String.length
                    (csv [f0; decimal (u32 utcNow) +:+ "000"; f2; f3; f4; f5;
                          f6; f7; f8]) <= 149)%nat).
  { cbn [csv]. rewrite !length_append.
    pose proof (length_decimal_u32 utcNow).
    assert (String.length f3 <= 15)%nat
      by (subst f3; destruct (shtValid d); [apply (length_snprintf 16) | cbn; lia]).
    assert (String.length f4 <= 15)%nat
      by (subst f4; destruct (shtValid d); [apply (length_snprintf 16) | cbn; lia]).
    assert (String.length f5 <= 15)%nat
      by (subst f5; destruct (shtValid d); [apply (length_snprintf 16) | cbn; lia]).
    assert (String.length f6 <= 15)%nat
      by (subst f6; destruct (waterTempValid d);
          [apply (length_snprintf 16) | cbn; lia]).
    assert (String.length f7 = 1)%nat by (subst f7; destruct (shtValid d); reflexivity).
    assert (String.length f8 = 1)%nat
      by (subst f8; destruct (waterTempValid d); reflexivity).
    cbn [String.length]. lia. }
  split; [rewrite Hrow; unfold snprintf; apply substring_all; lia | ].
  split; [exact Hlen | ]. split; [exact H3 | ]. split; [exact H4 | ].
  split; [exact H6 | ].
  intros c Hc Hf. destruct (Hl c Hc) as (Hc0 & Hc2).
  assert (Hn : lacks c "-0123456789" = true).
  { cbn [lacks] in Hc |- *.
    repeat match type of Hc with
           | _ && _ = true => apply andb_true_iff in Hc; destruct Hc as [? Hc]
           end.
    repeat (apply andb_true_iff; split; [assumption | ]). reflexivity. }
  assert (Hd : lacks c "0" = true /\ lacks c "1" = true).
  { cbn [lacks] in Hn |- *.
    repeat match type of Hn with
           | _ && _ = true => apply andb_true_iff in Hn; destruct Hn as [? Hn]
           end.
    split; apply andb_true_iff; split; auto. }
  destruct Hd as (Hd0 & Hd1).
  subst f3 f4 f5 f6 f7 f8.
  repeat constructor; try assumption;
    try (destruct (shtValid d); [apply lacks_snprintf, Hf | reflexivity]);
    try (destruct (waterTempValid d); [apply lacks_snprintf, Hf | reflexivity]);
    try (destruct (shtValid d); assumption);
    try (destruct (waterTempValid d); assumption).
  rewrite lacks_app. apply andb_true_iff. split; [apply lacks_decimal, Hn | ].
  cbn [lacks] in Hd0 |- *. apply andb_true_iff in Hd0. destruct Hd0 as [-> _].
  reflexivity.
Qed.

(** X23: a row never fills the buffer of 220 bytes that [logData] formats
    it in: it has at most 149 characters, so that it is never cut. *)
Theorem formatRow_fits hw utcNow d :
  (String.length (formatRow hw utcNow d) <= 149)%nat.
Proof.
  destruct (formatRow_room hw utcNow d)
    as (f0 & f2 & f3 & f4 & f5 & f6 & f7 & f8 & Hrow & Hlen & _).
  cbv zeta in *. rewrite Hrow. exact Hlen.
Qed.

(** X24: what is logged is what the history shows.  When the formatted
    numbers hold no comma, the values that [readLastMeasurements] takes
    from a row of [logData] are the logged temperature, humidity and
    water temperature, as they were printed; a reading that was not valid
    was logged as an empty field and gives no value, so that the history
    keeps 0 for it. *)
Theorem formatRow_reads_back (atof : string -> float) hw utcNow d dataIdx hd :
  (forall n x, lacks COMMA (libc_fixed hw n x) = true) ->
  parse_fields atof (formatRow hw utcNow d) 0 "" dataIdx hd
  = put_values dataIdx
      (if shtValid d
       then field_value atof (snprintf 16 (libc_fixed hw 2 (t d))) else None,
       if shtValid d
       then field_value atof (snprintf 16 (libc_fixed hw 1 (h d))) else None,
       if waterTempValid d
       then field_value atof (snprintf 16 (libc_fixed hw 2 (tWater d)))
       else None) hd.
Proof.
  intros Hf. rewrite <- (put_values_none dataIdx hd) at 1.
  rewrite parse_fields_values.
  destruct (formatRow_room hw utcNow d)
    as (f0 & f2 & f3 & f4 & f5 & f6 & f7 & f8 & Hrow & _ & H3 & H4 & H6 & Hl).
  cbv zeta in *. rewrite Hrow.
  rewrite (line_values_nine atof) by (apply Hl; [reflexivity | exact Hf]).
  assert (Hcut : forall b x,
            field_value atof
              (substring 0 31 (if b : bool then snprintf 16 x else ""))
            = if b then field_value atof (snprintf 16 x) else None).
  { intros [ | ] x; [ | reflexivity].
    rewrite substring_all; [reflexivity | ].
    pose proof (length_snprintf 16 x). lia. }
  rewrite H3, H4, H6, !Hcut. reflexivity.
Qed.

Lemma formatRow_reads_back_witness :
  let atof := fun s : string =>
    if String.eqb s "22.50" then 22.5%float
    else if String.eqb s "58.5" then 58.5%float else 0%float in
  let d := set_shtValid true
             (set_t 22.5%float (set_h 58.5%float Bench.no_data)) in
  parse_fields atof (formatRow Bench.healthy 1735137000 d) 0 "" 0 no_history
  = put_values 0
      (if shtValid d
       then field_value atof
              (snprintf 16 (libc_fixed Bench.healthy 2 (t d))) else None,
       if shtValid d
       then field_value atof
              (snprintf 16 (libc_fixed Bench.healthy 1 (h d))) else None,
       if waterTempValid d
       then field_value atof
              (snprintf 16 (libc_fixed Bench.healthy 2 (tWater d)))
       else None) no_history.
Proof.
  intros atof d.
  apply (formatRow_reads_back atof Bench.healthy 1735137000 d 0 no_history).
  intros n x. apply lacks_bench_fixed. reflexivity.
Defined.

(** ** The display and the history *)

(** X25: [readLastMeasurements] as a whole.  It only reads the card and
    leaves the storage flag and the count alone.  The history becomes
    that of [/data.csv] when storage is marked available and the file
    opens, and the empty history (not valid, all places 0) otherwise; with
    storage marked unavailable the card is not asked at all. *)
Theorem readLastMeasurements_outcome (atof : string -> float) hw s :
  let s' := run (readLastMeasurements atof hw) s in
  let evs := events (readLastMeasurements atof hw) s in
  card s' = card s
  /\ sdAvailable (vars s') = sdAvailable (vars s)
  /\ logCount (vars s') = logCount (vars s)
  /\ historicalData (vars s')
     = (if sdAvailable (vars s) && sd_open_ok hw (calls s) then
          match card s !! data_csv with
          | Some content => history atof content
          | None => no_history
          end
        else no_history)
  /\ (sdAvailable (vars s) = false -> evs = [])
  /\ existsb is_count evs = false.
Proof.
  focus (readLastMeasurements atof hw). unfold readLastMeasurements.
  do 2 fwd_prim. state.
  destruct (sdAvailable (vars s)) eqn:Hsd; cbn [negb andb].
  2: { cbn. rewrite drop_all. repeat split; auto. }
  fwd_io. state.
  destruct (sd_open_ok hw (calls s)) eqn:Hok.
  2: { cbn. rewrite ?drop_app_length. cbn. repeat split; auto. discriminate. }
  destruct (card s !! data_csv) as [content | ] eqn:Hc.
  2: { cbn. rewrite ?drop_app_length. cbn. repeat split; auto. discriminate. }
  cbv [File_close bind emit assign ret]. state. cbn.
  rewrite <- ?List.app_assoc, ?drop_app_length. cbn.
  repeat split; auto. discriminate.
Qed.

Lemma updateDisplay_counts hw s :
  displayOn (vars s) = true ->
  let s' := run (updateDisplay hw) s in
  displayOn (vars s') = true
  /\ displayUpdateCount (vars s') = u32 (displayUpdateCount (vars s) + 1).
Proof.
  intros Hon.
  focus (updateDisplay hw). unfold updateDisplay.
  fwd_prim. rewrite Hon. cbn [negb].
  do 3 (fwd_prim; state).
  destruct (dsConvPending (vars s) && (now_ms s >=? dsConvReadyAt (vars s)));
    cbn [when].
  - rewrite !bind_bind. fwd_prim; state.
    match goal with |- context [plausible ?x] => destruct (plausible x) end;
      rewrite !bind_bind;
      cbv [store_water nowLocalFromRTC rtc_now_unixtime bind get assign ask emit ret];
      state; cbn; auto.
  - cbv [nowLocalFromRTC rtc_now_unixtime bind get assign ask emit ret].
    state. cbn. auto.
Qed.

Lemma updateLogCount_display hw s :
  let s' := run (updateLogCount hw) s in
  displayOn (vars s') = displayOn (vars s)
  /\ displayUpdateCount (vars s') = displayUpdateCount (vars s).
Proof.
  pose proof (countLogEntries_result hw s) as (Hv & _).
  revert Hv.
  focus (updateLogCount hw). unfold updateLogCount.
  do 2 fwd_prim.
  destruct (u32 (now_ms s - lastLogCountUpdate (vars s))
            >=? LOG_COUNT_UPDATE_INTERVAL); cbn [when]; [ | cbn; auto].
  apply bind_elim. intros c s1 E. rewrite E. cbn [fst snd].
  intros Hv.
  cbv [logCount_set bind assign emit millis ret]. state. cbn.
  rewrite Hv. auto.
Qed.

(** X26: the display's part of [loop()].  With the display off nothing
    happens.  With the display on and 20 updates counted, the display is
    switched off, after one blank frame and without a call to the card.
    With fewer counted the display stays on, and the count of updates
    stays or grows by one. *)
Theorem loop_display_auto_off hw s :
  let s' := run (loop_display hw) s in
  let evs := events (loop_display hw) s in
  if displayOn (vars s) then
    if displayUpdateCount (vars s) >=? 20 then
      displayOn (vars s') = false /\ evs = [DisplayFrame] /\ card s' = card s
    else
      displayOn (vars s') = true
      /\ (displayUpdateCount (vars s') = displayUpdateCount (vars s)
          \/ displayUpdateCount (vars s')
             = u32 (displayUpdateCount (vars s) + 1))
  else loop_display hw s = (tt, s).
Proof.
  cbv zeta. destruct (displayOn (vars s)) eqn:Hon.
  2: { unfold loop_display, bind, get. rewrite Hon. reflexivity. }
  focus (loop_display hw). unfold loop_display.
  fwd_prim. rewrite Hon. cbn [when]. fwd_prim.
  destruct (displayUpdateCount (vars s) >=? 20) eqn:Hc.
  - cbv [displayOff bind emit assign]. state. cbn.
    rewrite drop_app_length. auto.
  - do 2 fwd_prim.
    destruct (u32 (now_ms s - lastDisplayUpdate (vars s))
              >=? DISPLAY_UPDATE_INTERVAL); cbn [when]; [ | cbn; auto].
    pose proof (updateDisplay_counts hw s Hon) as Hd. revert Hd.
    unfold run. cbv zeta.
    apply bind_elim. intros [] s1 E. rewrite E. cbn [fst snd]. intros (Hon1 & Hc1).
    do 2 (fwd_prim; state).
    match goal with |- context [updateLogCount hw ?x] =>
      pose proof (updateLogCount_display hw x) as Hl end.
    revert Hl. unfold run. cbv zeta. state. intros (-> & ->). auto.
Qed.


(** ** The loops of [enterLightSleep] *)

Lemma u32_step now w e d :
  u32 (now - w) = e -> 0 <= e + d < 2 ^ 32 ->
  u32 (u32 (now + d) - w) = e + d.
Proof.
  intros H Hr. unfold u32 in *. rewrite Zminus_mod_idemp_l.
  replace (now + d - w) with ((now - w) + d) by lia.
  rewrite <- Zplus_mod_idemp_l, H. apply Z.mod_small. exact Hr.
Qed.

Lemma sleepRemaining_le interval last now rtc :
  sleepRemaining interval last now rtc <= MAX_SLEEP_SEC.
Proof.
  unfold sleepRemaining, MAX_SLEEP_SEC.
  repeat match goal with
         | |- context [?a >? ?b] => destruct (Z.gtb_spec a b)
         | |- context [?a =? ?b] => destruct (Z.eqb_spec a b)
         end; lia.
Qed.

Lemma wait_measuring_left n w k s :
  u32 (now_ms s - w) = 50 * k -> 0 <= k <= 100 -> 100 - k <= Z.of_nat n ->
  result (wait_measuring n w) s = true.
Proof.
  revert k s. induction n as [ | n IH]; intros k s Hel Hk Hn.
  - unfold result. cbn [wait_measuring]. cbv [bind get millis]. rewrite Hel.
    replace k with 100 by lia. rewrite andb_false_r. reflexivity.
  - unfold result. cbn [wait_measuring]. cbv [bind get millis]. rewrite Hel.
    destruct (isMeasuring (vars s) && (50 * k <? 5000)) eqn:Hc; [ | reflexivity].
    apply andb_true_iff in Hc. destruct Hc as [_ Hc]. apply Z.ltb_lt in Hc.
    cbv [delay]. apply (IH (k + 1)); [ | lia | lia].
    cbn. rewrite (u32_step _ _ _ 50 Hel) by lia. lia.
Qed.

Lemma u32_le z : 0 <= z -> u32 z <= z.
Proof. intros H. unfold u32. apply Z.mod_le; lia. Qed.

Lemma sleep_loop_left hw n u r s :
  r <= Z.of_nat n -> result (sleep_loop hw n u r) s = true.
Proof.
  revert r s. induction n as [ | n IH]; intros r s Hr; unfold result;
    cbn [sleep_loop]; destruct (Z.gtb_spec r 0) as [Hpos | Hz];
    try reflexivity; [lia | ].
  cbv [bind pin_is_low ask delay ret].
  destruct (pin_low hw (calls s) PIN_BUTTON); [reflexivity | ].
  cbn [calls with_calls with_ms].
  destruct (pin_low hw (S (calls s)) PIN_BUTTON); cbn [negb andb];
    [destruct u; reflexivity | ].
  assert (Hnext : forall s', result
            (sleep_loop hw n u (u32 (r - (if r >? 5 then 5 else r)))) s' = true).
  { intros s'. apply IH.
    destruct (Z.gtb_spec r 5); (etransitivity; [apply u32_le; lia | lia]). }
  destruct u; cbn [calls with_calls with_ms].
  - destruct (pin_low hw (S (S (calls s))) PIN_WAKE_RX); cbn [negb];
      [reflexivity | apply Hnext].
  - apply Hnext.
Qed.

Lemma debounce_loop_left hw n w k s :
  u32 (now_ms s - w) = 50 * k -> 0 <= k <= 100 -> 100 - k <= Z.of_nat n ->
  result (debounce_loop hw n w) s = true.
Proof.
  revert k s. induction n as [ | n IH]; intros k s Hel Hk Hn.
  - unfold result. cbn [debounce_loop]. cbv [bind pin_is_low ask millis].
    cbn. rewrite Hel.
    replace k with 100 by lia. rewrite andb_false_r. reflexivity.
  - unfold result. cbn [debounce_loop]. cbv [bind pin_is_low ask millis].
    cbn [now_ms with_calls]. rewrite Hel.
    destruct (pin_low hw (calls s) PIN_BUTTON && (50 * k <? 5000)) eqn:Hc;
      [ | reflexivity].
    apply andb_true_iff in Hc. destruct Hc as [_ Hc]. apply Z.ltb_lt in Hc.
    cbv [delay]. apply (IH (k + 1)); [ | lia | lia].
    cbn. rewrite (u32_step _ _ _ 50 Hel) by lia. lia.
Qed.

#[export] Instance timeless_lawful : Lawful timeless.
Proof. lawful. Qed.
#[export] Instance timeless_ds : DsIO timeless. Proof. by_kind. Qed.
#[export] Instance timeless_clock : ClockIO timeless. Proof. by_kind. Qed.
#[export] Instance timeless_shtfree : ShtFree timeless. Proof. by_kind. Qed.

Lemma updateDisplay_timeless hw : obeys (within timeless) (updateDisplay hw).
Proof. obey. Qed.

Lemma hold_loop_left hw n w k s :
  u32 (now_ms s - w) = 50 * k -> 0 <= k <= 300 -> 300 - k <= Z.of_nat n ->
  result (hold_loop hw n w) s = true.
Proof.
  revert k s. induction n as [ | n IH]; intros k s Hel Hk Hn.
  - unfold result. cbn [hold_loop]. cbv [bind pin_is_low ask millis].
    cbn. rewrite Hel.
    replace k with 300 by lia. rewrite andb_false_r. reflexivity.
  - unfold result. pattern (hold_loop hw (S n) w s). cbn [hold_loop].
    fwd_prim. fwd_prim. cbn [now_ms with_calls]. rewrite Hel.
    destruct (pin_low hw (calls s) PIN_BUTTON && (50 * k <? LONG_PRESS_MS)) eqn:Hc;
      [ | reflexivity].
    apply andb_true_iff in Hc. destruct Hc as [_ Hc]. apply Z.ltb_lt in Hc.
    unfold LONG_PRESS_MS in Hc.
    do 2 fwd_prim.
    apply bind_elim. intros [] s1 E.
    assert (W : within timeless (with_calls (S (calls s)) s) s1).
    { eapply within_run; [ | exact E].
      pose proof (updateDisplay_timeless hw). obey. }
    destruct W as (_ & _ & _ & Ht). simpl in Ht.
    fwd_prim. apply (IH (k + 1)); [ | lia | lia].
    cbn. rewrite <- Ht. rewrite (u32_step _ _ _ 50 Hel) by lia. lia.
Qed.

(** X28: the four loops of [enterLightSleep] end by themselves, within
    the bound the model gives them: the wait for a measurement (100
    pauses of 50 ms), the sleep in slices (268 slices for at most
    [MAX_SLEEP_SEC] seconds), the hold of the button (300 pauses for
    [LONG_PRESS_MS]) and the debounce (100 pauses), each from the state
    in which it is entered, whatever the pins read. *)
Theorem enterLightSleep_loops_end hw s useRtcWake interval last now rtc :
  result (wait_measuring 100 (now_ms s)) s = true
  /\ result
       (sleep_loop hw 268 useRtcWake (sleepRemaining interval last now rtc))
       s = true
  /\ result (hold_loop hw 300 (now_ms s)) s = true
  /\ result (debounce_loop hw 100 (now_ms s)) s = true.
Proof.
  assert (H0 : u32 (now_ms s - now_ms s) = 50 * 0)
    by (rewrite Z.sub_diag; reflexivity).
  split; [apply (wait_measuring_left _ _ 0); [exact H0 | lia | reflexivity] | ].
  split.
  { apply sleep_loop_left.
    pose proof (sleepRemaining_le interval last now rtc) as H.
    unfold MAX_SLEEP_SEC in H. lia. }
  split; [apply (hold_loop_left _ _ _ 0); [exact H0 | lia | reflexivity] | ].
  apply (debounce_loop_left _ _ _ 0); [exact H0 | lia | reflexivity].
Qed.
